(** * Fleet monitoring backend (server.py): geo utilities, fleet status
      and the transit query resolver, embedded in Rocq.

    The backend is a Python/FastAPI program over MongoDB collections.  The
    embedding keeps the data as the program has it:
    - Python [float] is IEEE 754 binary64 with round-to-nearest-even, taken
      from the Standard Library's executable specification [SpecFloat];
    - Python [int] is [Z];
    - exceptions are an explicit outcome, and [try ... except Exception]
      is a handler on that outcome;
    - MongoDB collections are lists of documents in natural order, and a
      [$regex] filter is modelled for patterns of literal characters and
      dots;
    - the C library behind [math.sin], [math.cos] and [math.atan2] is a
      parameter, of which only a few facts are assumed;
    - the random source and the wall clock are explicit oracles. *)

From Stdlib Require Import ZArith List String Ascii Bool Lia.
From Stdlib Require Import Floats.SpecFloat.
From Stdlib Require Import Sorting.Sorted Sorting.Permutation.
Import ListNotations.

Local Open Scope Z_scope.

(** ** Python floats: IEEE 754 binary64 *)

Module Float64.

Definition prec : Z := 53.
Definition emax : Z := 1024.

Definition float := spec_float.

Definition fadd : float -> float -> float := SFadd prec emax.
Definition fsub : float -> float -> float := SFsub prec emax.
Definition fmul : float -> float -> float := SFmul prec emax.
Definition fdiv : float -> float -> float := SFdiv prec emax.
Definition fsqrt : float -> float := SFsqrt prec emax.
Definition fneg : float -> float := SFopp.

(** Python's [==] on floats. *)
Definition feqb : float -> float -> bool := SFeqb.

Definition pzero : float := S754_zero false.
Definition nzero : float := S754_zero true.

Definition is_nan (x : float) : bool :=
  match x with S754_nan => true | _ => false end.

Definition is_inf (x : float) : bool :=
  match x with S754_infinity _ => true | _ => false end.

(** C's [isfinite]: neither an infinity nor a NaN. *)
Definition is_finite (x : float) : bool :=
  match x with
  | S754_zero _ | S754_finite _ _ _ => true
  | _ => false
  end.

(** The sign bit ([copysign(1., x) == -1.]); a NaN carries none here. *)
Definition sign_bit (x : float) : bool :=
  match x with
  | S754_zero s | S754_infinity s | S754_finite s _ _ => s
  | S754_nan => false
  end.

(** A well-formed binary64 datum: canonical mantissa, exponent in range. *)
Definition valid (x : float) : bool := valid_binary prec emax x.

(** Conversion of a Python [int] to the nearest float (exact for the
    constants of the program). *)
Definition of_int (n : Z) : float := binary_normalize prec emax n 0 false.

(** The integer part of a finite float, truncated toward zero. *)
Definition trunc (x : float) : Z :=
  match x with
  | S754_finite s m e =>
      let a := match e with
               | Zneg p => Z.shiftr (Zpos m) (Zpos p)
               | _ => Z.shiftl (Zpos m) e
               end in
      if s then - a else a
  | _ => 0
  end.

(** The float nearest to the decimal [n / 10^k], as a Python literal
    such as [28.6562] denotes it (both operands are exact here). *)
Definition decimal (n : Z) (k : Z) : float := fdiv (of_int n) (of_int (10 ^ k)).

End Float64.

Import Float64.

(** ** Python runtime: exceptions, outcomes, numeric conversions *)

(** The exceptions the modelled code can meet.  All of them derive from
    Python's [Exception], [HTTPException] included. *)
Inductive exn : Type :=
| ZeroDivisionError
| ValueError
| OverflowError
| HTTPException (status_code : Z) (detail : string).

(** What evaluating a piece of the program yields.  [OutsideModel] marks an
    input on which the embedding does not commit to a behaviour (a regular
    expression beyond the modelled fragment); no handler catches it. *)
Inductive outcome (A : Type) : Type :=
| Return (a : A)
| Raise (e : exn)
| OutsideModel.

Arguments Return {A} a.
Arguments Raise {A} e.
Arguments OutsideModel {A}.

Definition bind {A B : Type} (c : outcome A) (k : A -> outcome B) : outcome B :=
  match c with
  | Return a => k a
  | Raise e => Raise e
  | OutsideModel => OutsideModel
  end.

Notation "x <- c ;; k" := (bind c (fun x => k))
  (at level 61, c at next level, right associativity).

(** [try: body except Exception as e: handler e]. *)
Definition try_except {A : Type} (body : outcome A) (handler : exn -> outcome A)
  : outcome A :=
  match body with
  | Raise e => handler e
  | other => other
  end.

(** [for x in l: body], threading the loop state. *)
Fixpoint for_each {A S : Type} (l : list A) (body : A -> S -> outcome S) (s : S)
  : outcome S :=
  match l with
  | [] => Return s
  | x :: rest => s' <- body x s ;; for_each rest body s'
  end.

(** An integer as an exact (unnormalised) binary mantissa. *)
Definition int_mantissa (n : Z) : float :=
  match n with
  | Z0 => S754_zero false
  | Zpos p => S754_finite false p 0
  | Zneg p => S754_finite true p 0
  end.

(** [a / b] on two ints: the correctly rounded quotient of the exact
    integers, [ZeroDivisionError] on a zero divisor, [OverflowError] when the
    quotient exceeds the float range. *)
Definition int_truediv (a b : Z) : outcome float :=
  if b =? 0 then Raise ZeroDivisionError
  else
    let q := fdiv (int_mantissa a) (int_mantissa b) in
    if is_inf q then Raise OverflowError else Return q.

(** [x / y] on floats. *)
Definition float_truediv (x y : float) : outcome float :=
  match y with
  | S754_zero _ => Raise ZeroDivisionError
  | _ => Return (fdiv x y)
  end.

(** [int(x)] on a float: truncation toward zero. *)
Definition py_int (x : float) : outcome Z :=
  match x with
  | S754_nan => Raise ValueError
  | S754_infinity _ => Raise OverflowError
  | _ => Return (trunc x)
  end.

(** ** The [math] module *)

(** The platform's C library, on which [math] relies for the functions
    IEEE 754 does not define. *)
Record libm : Type := {
  c_sin : float -> float;
  c_cos : float -> float;
  c_atan2 : float -> float -> float
}.

Module math.

(** [Py_MATH_PI], the double nearest to pi. *)
Definition pi : float := S754_finite false 7074237752028440 (-51).

Definition degToRad : float := fdiv pi (of_int 180).

Definition radians (x : float) : float := fmul x degToRad.

(** CPython's wrapper for one-argument functions that cannot overflow:
    a NaN from a non-NaN argument, or an infinity from a finite one, is a
    [ValueError] ("math domain error").  The C library's [errno] is left
    out: the functions used set it on underflow only, which the wrapper
    ignores. *)
Definition math_1 (f : float -> float) (x : float) : outcome float :=
  let r := f x in
  if is_nan r && negb (is_nan x) then Raise ValueError
  else if is_inf r && is_finite x then Raise ValueError
  else Return r.

Definition copysign (mag sgn : float) : float :=
  if Bool.eqb (sign_bit mag) (sign_bit sgn) then mag else fneg mag.

(** CPython's [m_atan2]: the special cases are fixed by the interpreter,
    the general case is the C library's. *)
Definition m_atan2 (M : libm) (y x : float) : float :=
  if is_nan x || is_nan y then S754_nan
  else if is_inf y then
    if is_inf x then
      if negb (sign_bit x) then copysign (fmul (decimal 25 2) pi) y
      else copysign (fmul (decimal 75 2) pi) y
    else copysign (fmul (decimal 5 1) pi) y
  else if is_inf x || feqb y pzero then
    if negb (sign_bit x) then copysign pzero y
    else copysign pi y
  else c_atan2 M y x.

(** CPython's wrapper for two-argument functions. *)
Definition math_2 (f : float -> float -> float) (x y : float) : outcome float :=
  let r := f x y in
  if is_nan r then
    if negb (is_nan x) && negb (is_nan y) then Raise ValueError else Return r
  else if is_inf r then
    if is_finite x && is_finite y then Raise OverflowError else Return r
  else Return r.

Definition sin (M : libm) : float -> outcome float := math_1 (c_sin M).
Definition cos (M : libm) : float -> outcome float := math_1 (c_cos M).
Definition sqrt : float -> outcome float := math_1 fsqrt.
Definition atan2 (M : libm) : float -> float -> outcome float :=
  math_2 (m_atan2 M).

End math.

(** ** Geo utilities *)

(** [calculate_distance]: haversine distance in kilometres. *)
Definition calculate_distance (M : libm) (lat1 lng1 lat2 lng2 : float)
  : outcome float :=
  let R := of_int 6371 in
  let lat1_rad := math.radians lat1 in
  let lat2_rad := math.radians lat2 in
  let delta_lat := math.radians (fsub lat2 lat1) in
  let delta_lng := math.radians (fsub lng2 lng1) in
  h1 <- float_truediv delta_lat (of_int 2) ;;
  s1 <- math.sin M h1 ;;
  h2 <- float_truediv delta_lat (of_int 2) ;;
  s2 <- math.sin M h2 ;;
  c1 <- math.cos M lat1_rad ;;
  c2 <- math.cos M lat2_rad ;;
  h3 <- float_truediv delta_lng (of_int 2) ;;
  t1 <- math.sin M h3 ;;
  h4 <- float_truediv delta_lng (of_int 2) ;;
  t2 <- math.sin M h4 ;;
  let a := fadd (fmul s1 s2) (fmul (fmul (fmul c1 c2) t1) t2) in
  y <- math.sqrt a ;;
  x <- math.sqrt (fsub (of_int 1) a) ;;
  r <- math.atan2 M y x ;;
  let c := fmul (of_int 2) r in
  Return (fmul R c).

(** The pieces of [calculate_distance], named for the proofs: half of an
    angle difference in radians, the haversine term [a], and the distance
    computed from [a]. *)
Definition half_angle (delta : float) : float :=
  fdiv (math.radians delta) (of_int 2).

Definition haversine_a (s c1 c2 t : float) : float :=
  fadd (fmul s s) (fmul (fmul (fmul c1 c2) t) t).

Definition central_distance (M : libm) (a : float) : outcome float :=
  y <- math.sqrt a ;;
  x <- math.sqrt (fsub (of_int 1) a) ;;
  r <- math.atan2 M y x ;;
  Return (fmul (of_int 6371) (fmul (of_int 2) r)).

(** [interpolate_position]: the pair [(lat, lng)]. *)
Definition interpolate_position
  (start_lat start_lng end_lat end_lng progress : float) : float * float :=
  let lat := fadd start_lat (fmul (fsub end_lat start_lat) progress) in
  let lng := fadd start_lng (fmul (fsub end_lng start_lng) progress) in
  (lat, lng).


(** ** Data model (the pydantic models and the MongoDB documents) *)

Module BusStop.
Record t : Type := {
  id : string;
  name : string;
  lat : float;
  lng : float;
  city : string
}.
End BusStop.

Module Route.
Record t : Type := {
  id : string;
  name : string;
  stops : list string;           (* stop ids, in route order *)
  distance_km : float;
  estimated_duration_minutes : Z;
  city : string
}.
End Route.

(** A naive local [datetime], as far as the program looks into it. *)
Record datetime : Type := {
  day : Z;                         (* proleptic ordinal of the date *)
  minute_of_day : Z;               (* 0 .. 1439 *)
  second : Z;
  microsecond : Z
}.

Module Bus.
Record t : Type := {
  id : string;
  bus_number : string;
  route_id : string;
  capacity : Z;
  current_occupancy : Z;
  current_lat : float;
  current_lng : float;
  current_stop_index : Z;
  direction : Z;                 (* 1 forward, -1 backward *)
  status : string;               (* active, maintenance, offline *)
  last_updated : datetime
}.
End Bus.

Module BusQuery.
Record t : Type := {
  from_stop : string;
  to_stop : string
}.
End BusQuery.

Module BusQueryResponse.
Record t : Type := {
  bus_number : string;
  route_name : string;
  eta_minutes : Z;
  occupancy_percentage : Z;
  available_seats : Z;
  next_arrival : string
}.
End BusQueryResponse.

(** The three collections of [db], each in natural (insertion) order. *)
Record database : Type := {
  bus_stops : list BusStop.t;
  routes : list Route.t;
  buses : list Bus.t
}.

(** ** MongoDB queries *)

(** [{"$regex": pattern, "$options": "i"}] on a string field.

    The fragment of the PCRE syntax modelled: ordinary 7-bit characters,
    which match themselves up to ASCII case, and [.], which matches any
    character but a line feed; the match may start anywhere in the subject.
    A pattern using any other metacharacter, or any text outside 7-bit
    ASCII, is [OutsideModel]. *)
Module regex.

Local Open Scope char_scope.

Inductive atom : Type :=
| Lit (c : ascii)
| Dot.

Definition is_metachar (c : ascii) : bool :=
  existsb (Ascii.eqb c)
    ["\"; "^"; "$"; "."; "["; "|"; "("; ")"; "?"; "*"; "+"; "{"].

Definition is_ascii7 (c : ascii) : bool := (N_of_ascii c <? 128)%N.

Fixpoint all_ascii7 (s : string) : bool :=
  match s with
  | EmptyString => true
  | String c rest => is_ascii7 c && all_ascii7 rest
  end.

Fixpoint compile (p : string) : option (list atom) :=
  match p with
  | EmptyString => Some []
  | String c rest =>
      match compile rest with
      | None => None
      | Some atoms =>
          if Ascii.eqb c "." then Some (Dot :: atoms)
          else if is_metachar c || negb (is_ascii7 c) then None
          else Some (Lit c :: atoms)
      end
  end.

Definition to_lower (c : ascii) : ascii :=
  let n := N_of_ascii c in
  if ((65 <=? n) && (n <=? 90))%N then ascii_of_N (n + 32) else c.

Definition atom_matches (a : atom) (c : ascii) : bool :=
  match a with
  | Lit l => Ascii.eqb (to_lower l) (to_lower c)
  | Dot => negb (Ascii.eqb c "010")
  end.

(** The atoms match a prefix of the subject. *)
Fixpoint match_here (atoms : list atom) (s : string) : bool :=
  match atoms, s with
  | [], _ => true
  | a :: atoms', String c s' => atom_matches a c && match_here atoms' s'
  | _ :: _, EmptyString => false
  end.

(** The atoms match at some offset of the subject. *)
Fixpoint search (atoms : list atom) (s : string) : bool :=
  match_here atoms s
  || match s with
     | EmptyString => false
     | String _ s' => search atoms s'
     end.

End regex.

(** [db.bus_stops.find_one({"name": {"$regex": pattern, "$options": "i"}})]:
    the first stop, in natural order, whose name the pattern matches. *)
Fixpoint first_match (atoms : list regex.atom) (coll : list BusStop.t)
  : outcome (option BusStop.t) :=
  match coll with
  | [] => Return None
  | doc :: rest =>
      if regex.all_ascii7 (BusStop.name doc) then
        if regex.search atoms (BusStop.name doc) then Return (Some doc)
        else first_match atoms rest
      else OutsideModel
  end.

Definition find_one_name_regex (coll : list BusStop.t) (pattern : string)
  : outcome (option BusStop.t) :=
  match regex.compile pattern with
  | None => OutsideModel
  | Some atoms => first_match atoms coll
  end.

Definition mem_string (x : string) (l : list string) : bool :=
  existsb (String.eqb x) l.

(** [db.routes.find({"stops": {"$all": [a, b]}})]. *)
Definition find_routes_all (coll : list Route.t) (a b : string) : list Route.t :=
  filter (fun r => mem_string a (Route.stops r) && mem_string b (Route.stops r))
    coll.

(** [db.buses.find({"route_id": rid, "status": "active"})]. *)
Definition find_buses_on_route (coll : list Bus.t) (rid : string) : list Bus.t :=
  filter (fun b => String.eqb (Bus.route_id b) rid
                   && String.eqb (Bus.status b) "active")
    coll.

(** ** The random source and the wall clock

    Both are oracles read by position: the [k]-th draw of the generator and
    the [k]-th reading of [datetime.now()]. *)
Record world : Type := {
  entropy : nat -> Z;
  clock : nat -> datetime
}.

(** [random.randint(a, b)]: an integer [N] with [a <= N <= b]. *)
Definition randint (w : world) (k : nat) (a b : Z) : Z :=
  a + entropy w k mod (b - a + 1).

(** [t + timedelta(minutes=m)]; dates run from ordinal 1 to 3652059
    (years 1 to 9999), beyond which Python raises [OverflowError]. *)
Definition plus_minutes (t : datetime) (m : Z) : outcome datetime :=
  let total := minute_of_day t + m in
  let d := day t + total / 1440 in
  if (1 <=? d) && (d <=? 3652059) then
    Return {| day := d; minute_of_day := total mod 1440;
              second := second t; microsecond := microsecond t |}
  else Raise OverflowError.

Definition two_digits (n : Z) : string :=
  String (ascii_of_N (48 + Z.to_N (n / 10)))
    (String (ascii_of_N (48 + Z.to_N (n mod 10))) EmptyString).

(** [t.strftime("%H:%M")]. *)
Definition strftime_HM (t : datetime) : string :=
  (two_digits (minute_of_day t / 60) ++ ":"
   ++ two_digits (minute_of_day t mod 60))%string.

(** ** Fleet status *)

Inductive pynum : Type :=
| PyInt (n : Z)
| PyFloat (x : float).

Module FleetStatus.
Record t : Type := {
  total_buses : Z;
  active_buses : Z;
  offline_buses : Z;
  total_capacity : Z;
  current_occupancy : Z;
  occupancy_rate : pynum;
  buses : list Bus.t;
  routes : Z;
  last_updated : datetime        (* rendered by [isoformat] on the wire *)
}.
End FleetStatus.

Definition is_active (b : Bus.t) : bool := String.eqb (Bus.status b) "active".

(** Python's [len] on a list. *)
Definition len {A : Type} (l : list A) : Z := Z.of_nat (List.length l).

(** Python's [sum] over ints. *)
Definition sum (l : list Z) : Z := fold_left Z.add l 0.

(** [get_fleet_status]: the aggregate for the admin dashboard. *)
Definition get_fleet_status (w : world) (db : database) : outcome FleetStatus.t :=
  let buses := buses db in
  let routes := routes db in
  let total_buses := len buses in
  let active_buses := len (filter is_active buses) in
  let total_capacity := sum (map Bus.capacity buses) in
  let current_occupancy := sum (map Bus.current_occupancy buses) in
  let buses_data := buses in
  occupancy_rate <-
    (if total_capacity >? 0 then
       q <- int_truediv current_occupancy total_capacity ;;
       Return (PyFloat (fmul q (of_int 100)))
     else Return (PyInt 0)) ;;
  Return {| FleetStatus.total_buses := total_buses;
            FleetStatus.active_buses := active_buses;
            FleetStatus.offline_buses := total_buses - active_buses;
            FleetStatus.total_capacity := total_capacity;
            FleetStatus.current_occupancy := current_occupancy;
            FleetStatus.occupancy_rate := occupancy_rate;
            FleetStatus.buses := buses_data;
            FleetStatus.routes := len routes;
            FleetStatus.last_updated := clock w 0 |}.

(** ** Transit query resolver *)

(** [list.sort(key=lambda x: x.eta_minutes)]: a stable sort, so elements
    with equal keys keep their relative order. *)
Fixpoint insert_by_eta (r : BusQueryResponse.t) (sorted : list BusQueryResponse.t)
  : list BusQueryResponse.t :=
  match sorted with
  | [] => [r]
  | x :: rest =>
      if BusQueryResponse.eta_minutes r <=? BusQueryResponse.eta_minutes x
      then r :: sorted
      else x :: insert_by_eta r rest
  end.

Definition sort_by_eta (l : list BusQueryResponse.t) : list BusQueryResponse.t :=
  fold_right insert_by_eta [] l.

Definition eta_le (a b : BusQueryResponse.t) : Prop :=
  BusQueryResponse.eta_minutes a <= BusQueryResponse.eta_minutes b.

Definition has_eta (v : Z) (r : BusQueryResponse.t) : bool :=
  BusQueryResponse.eta_minutes r =? v.

(** The body of the inner loop: one result for one bus.  The loop state is
    the [results] list and the number of buses handled so far. *)
Definition bus_result (M : libm) (w : world) (from_stop : BusStop.t)
  (route : Route.t) (bus : Bus.t) (st : list BusQueryResponse.t * nat)
  : outcome (list BusQueryResponse.t * nat) :=
  let '(results, k) := st in
  distance_to_from <-
    calculate_distance M (Bus.current_lat bus) (Bus.current_lng bus)
      (BusStop.lat from_stop) (BusStop.lng from_stop) ;;
  hours <- float_truediv distance_to_from (of_int 20) ;;
  whole <- py_int (fmul hours (of_int 60)) ;;
  let eta_minutes := whole + randint w k 2 8 in
  ratio <- int_truediv (Bus.current_occupancy bus) (Bus.capacity bus) ;;
  occupancy_percentage <- py_int (fmul ratio (of_int 100)) ;;
  let available_seats := Bus.capacity bus - Bus.current_occupancy bus in
  arrival <- plus_minutes (clock w k) eta_minutes ;;
  let next_arrival := strftime_HM arrival in
  Return (results ++ [ {| BusQueryResponse.bus_number := Bus.bus_number bus;
                          BusQueryResponse.route_name := Route.name route;
                          BusQueryResponse.eta_minutes := eta_minutes;
                          BusQueryResponse.occupancy_percentage := occupancy_percentage;
                          BusQueryResponse.available_seats := available_seats;
                          BusQueryResponse.next_arrival := next_arrival |} ],
          S k).

(** The body of the outer loop: the active buses of one route. *)
Definition route_results (M : libm) (w : world) (db : database)
  (from_stop : BusStop.t) (route : Route.t) (st : list BusQueryResponse.t * nat)
  : outcome (list BusQueryResponse.t * nat) :=
  let buses := find_buses_on_route (buses db) (Route.id route) in
  for_each buses (bus_result M w from_stop route) st.

(** The [try] block of [find_buses] up to the sort. *)
Definition collect_results (M : libm) (w : world) (db : database)
  (query : BusQuery.t) : outcome (list BusQueryResponse.t) :=
  from_stop <- find_one_name_regex (bus_stops db) (BusQuery.from_stop query) ;;
  to_stop <- find_one_name_regex (bus_stops db) (BusQuery.to_stop query) ;;
  match from_stop, to_stop with
  | Some from_stop, Some to_stop =>
      let routes :=
        find_routes_all (routes db) (BusStop.id from_stop) (BusStop.id to_stop) in
      st <- for_each routes (route_results M w db from_stop) ([], 0%nat) ;;
      Return (fst st)
  | _, _ => Raise (HTTPException 404 "One or both stops not found")
  end.

(** [find_buses]: the handler of [POST /api/find-buses]. *)
Definition find_buses (M : libm) (w : world) (db : database) (query : BusQuery.t)
  : outcome (list BusQueryResponse.t) :=
  try_except
    (results <- collect_results M w db query ;;
     Return (sort_by_eta results))
    (fun e => (* logging.error(...) *)
       Raise (HTTPException 500 "Error finding buses")).

(** ** The seed table [INDIAN_CITIES_DATA] *)

Record seed_stop : Type := {
  seed_name : string;
  seed_lat : float;
  seed_lng : float
}.

Record seed_route : Type := {
  seed_route_name : string;
  seed_route_stops : list nat;     (* indices into the city's stops *)
  seed_distance : float;
  seed_duration : Z
}.

Record seed_city : Type := {
  seed_city_name : string;
  seed_stops : list seed_stop;
  seed_routes : list seed_route
}.

Definition seed_stop_of (n : string) (lat lng : Z) : seed_stop :=
  {| seed_name := n; seed_lat := decimal lat 4; seed_lng := decimal lng 4 |}.

Definition seed_route_of (n : string) (ix : list nat) (dist : Z) (dur : Z)
  : seed_route :=
  {| seed_route_name := n; seed_route_stops := ix;
     seed_distance := decimal dist 1; seed_duration := dur |}.

Definition INDIAN_CITIES_DATA : list seed_city :=
  [ {| seed_city_name := "Delhi";
       seed_stops :=
         [ seed_stop_of "Red Fort" 286562 772410;
           seed_stop_of "India Gate" 286129 772295;
           seed_stop_of "Connaught Place" 286315 772167;
           seed_stop_of "Karol Bagh" 286519 771909;
           seed_stop_of "Rajouri Garden" 286449 771212;
           seed_stop_of "Dwarka" 285921 770460;
           seed_stop_of "Chandni Chowk" 286506 772303;
           seed_stop_of "Khan Market" 285983 772319 ];
       seed_routes :=
         [ seed_route_of "Red Line" [0; 1; 2; 3]%nat 255 45;
           seed_route_of "Blue Line" [2; 3; 4; 5]%nat 302 50;
           seed_route_of "Green Line" [6; 0; 2; 7]%nat 187 35 ] |};
    {| seed_city_name := "Mumbai";
       seed_stops :=
         [ seed_stop_of "Gateway of India" 189220 728347;
           seed_stop_of "Marine Drive" 189432 728235;
           seed_stop_of "Bandra" 190596 728295;
           seed_stop_of "Andheri" 191136 728697;
           seed_stop_of "Juhu Beach" 190968 728269;
           seed_stop_of "Worli" 190176 728236;
           seed_stop_of "Powai" 191171 729062 ];
       seed_routes :=
         [ seed_route_of "Western Express" [0; 1; 5; 2; 3]%nat 358 60;
           seed_route_of "Coastal Route" [1; 0; 5; 4]%nat 224 40;
           seed_route_of "Tech Corridor" [2; 3; 6; 4]%nat 281 45 ] |};
    {| seed_city_name := "Bangalore";
       seed_stops :=
         [ seed_stop_of "MG Road" 129716 775946;
           seed_stop_of "Koramangala" 129352 776245;
           seed_stop_of "Electronic City" 128456 776603;
           seed_stop_of "Whitefield" 129698 777500;
           seed_stop_of "Indiranagar" 129719 776412;
           seed_stop_of "Jayanagar" 129237 775831;
           seed_stop_of "Marathahalli" 129591 776974 ];
       seed_routes :=
         [ seed_route_of "Tech Hub Express" [0; 4; 6; 3]%nat 325 55;
           seed_route_of "South Loop" [0; 1; 5; 2]%nat 289 50;
           seed_route_of "Central Line" [4; 0; 1; 6]%nat 243 42 ] |} ].

(** *** Documents built from the seed table, for the worked scenarios

    The real identifiers are random UUIDs; the scenarios below name a stop
    ["stop:<name>"] and a route ["route:<name>"]. *)

Definition stop_doc (c : seed_city) (s : seed_stop) : BusStop.t :=
  {| BusStop.id := ("stop:" ++ seed_name s)%string;
     BusStop.name := seed_name s;
     BusStop.lat := seed_lat s;
     BusStop.lng := seed_lng s;
     BusStop.city := seed_city_name c |}.

Definition route_doc (c : seed_city) (r : seed_route) : Route.t :=
  {| Route.id := ("route:" ++ seed_route_name r)%string;
     Route.name := seed_route_name r;
     Route.stops :=
       flat_map (fun i => match nth_error (seed_stops c) i with
                          | Some s => [BusStop.id (stop_doc c s)]
                          | None => []
                          end)
         (seed_route_stops r);
     Route.distance_km := seed_distance r;
     Route.estimated_duration_minutes := seed_duration r;
     Route.city := seed_city_name c |}.

Definition all_stop_docs : list BusStop.t :=
  flat_map (fun c => map (stop_doc c) (seed_stops c)) INDIAN_CITIES_DATA.

Definition all_route_docs : list Route.t :=
  flat_map (fun c => map (route_doc c) (seed_routes c)) INDIAN_CITIES_DATA.

Definition noon : datetime :=
  {| day := 739000; minute_of_day := 720; second := 0; microsecond := 0 |}.

(** A bus document standing at a given coordinate. *)
Definition bus_doc (ident number rid : string) (cap occ : Z) (lat lng : float)
  (st : string) : Bus.t :=
  {| Bus.id := ident; Bus.bus_number := number; Bus.route_id := rid;
     Bus.capacity := cap; Bus.current_occupancy := occ;
     Bus.current_lat := lat; Bus.current_lng := lng;
     Bus.current_stop_index := 0; Bus.direction := 1;
     Bus.status := st; Bus.last_updated := noon |}.

Definition red_fort_lat : float := decimal 286562 4.
Definition red_fort_lng : float := decimal 772410 4.

Definition red_fort_doc : BusStop.t :=
  {| BusStop.id := "stop:Red Fort"; BusStop.name := "Red Fort";
     BusStop.lat := red_fort_lat; BusStop.lng := red_fort_lng;
     BusStop.city := "Delhi" |}.

Definition india_gate_doc : BusStop.t :=
  {| BusStop.id := "stop:India Gate"; BusStop.name := "India Gate";
     BusStop.lat := decimal 286129 4; BusStop.lng := decimal 772295 4;
     BusStop.city := "Delhi" |}.

Definition red_line_doc : Route.t :=
  {| Route.id := "route:Red Line"; Route.name := "Red Line";
     Route.stops := ["stop:Red Fort"; "stop:India Gate";
                     "stop:Connaught Place"; "stop:Karol Bagh"]%string;
     Route.distance_km := decimal 255 1;
     Route.estimated_duration_minutes := 45;
     Route.city := "Delhi" |}.

(** One active bus on the Red Line, standing at Red Fort, 10 of 40 seats
    taken. *)
Definition red_fort_fleet : list Bus.t :=
  [ bus_doc "bus-1" "DL-01" "route:Red Line" 40 10 red_fort_lat red_fort_lng
      "active" ].

(** Two active buses on the Red Line at Red Fort, 39 of 40 and 5 of 40
    seats taken. *)
Definition crowded_fleet : list Bus.t :=
  [ bus_doc "bus-1" "DL-01" "route:Red Line" 40 39 red_fort_lat red_fort_lng
      "active";
    bus_doc "bus-2" "DL-02" "route:Red Line" 40 5 red_fort_lat red_fort_lng
      "active" ].

Definition response (number route : string) (eta pct seats : Z) (arrival : string)
  : BusQueryResponse.t :=
  {| BusQueryResponse.bus_number := number;
     BusQueryResponse.route_name := route;
     BusQueryResponse.eta_minutes := eta;
     BusQueryResponse.occupancy_percentage := pct;
     BusQueryResponse.available_seats := seats;
     BusQueryResponse.next_arrival := arrival |}.

Definition crowded_results : list BusQueryResponse.t :=
  [ response "DL-01" "Red Line" 2 97 1 "12:02";
    response "DL-02" "Red Line" 3 12 35 "12:03" ].

(** Two active buses on the Red Line at Red Fort; the one stored first has
    the greater identifier and the greater number. *)
Definition tie_fleet : list Bus.t :=
  [ bus_doc "bus-9" "DL-09" "route:Red Line" 40 10 red_fort_lat red_fort_lng
      "active";
    bus_doc "bus-1" "DL-01" "route:Red Line" 40 10 red_fort_lat red_fort_lng
      "active" ].

Definition tie_results : list BusQueryResponse.t :=
  [ response "DL-09" "Red Line" 2 25 30 "12:02";
    response "DL-01" "Red Line" 2 25 30 "12:02" ].

Definition red_fort_results : list BusQueryResponse.t :=
  [ response "DL-01" "Red Line" 2 25 30 "12:02" ].

Definition seeded_db (fleet : list Bus.t) : database :=
  {| bus_stops := all_stop_docs; routes := all_route_docs; buses := fleet |}.

(** A world whose [k]-th random draw is [k] and whose clock stands at noon. *)
Definition sample_world : world :=
  {| entropy := fun k => Z.of_nat k; clock := fun _ => noon |}.

(** A world whose random draws are all equal. *)
Definition flat_world : world :=
  {| entropy := fun _ => 0; clock := fun _ => noon |}.

(** A fleet with one bus in each status. *)
Definition mixed_fleet : list Bus.t :=
  [ bus_doc "bus-1" "DL-01" "route:Red Line" 40 10 red_fort_lat red_fort_lng
      "active";
    bus_doc "bus-2" "DL-02" "route:Red Line" 40 0 red_fort_lat red_fort_lng
      "maintenance";
    bus_doc "bus-3" "DL-03" "route:Blue Line" 50 0 red_fort_lat red_fort_lng
      "offline" ].

Definition mixed_fleet_status : FleetStatus.t :=
  {| FleetStatus.total_buses := 3;
     FleetStatus.active_buses := 1;
     FleetStatus.offline_buses := 2;
     FleetStatus.total_capacity := 130;
     FleetStatus.current_occupancy := 10;
     FleetStatus.occupancy_rate :=
       PyFloat (S754_finite false 8660768514174031 (-50));
     FleetStatus.buses := mixed_fleet;
     FleetStatus.routes := 9;
     FleetStatus.last_updated := noon |}.

(** Python's [==] on two coordinate pairs. *)
Definition point_eqb (p q : float * float) : bool :=
  feqb (fst p) (fst q) && feqb (snd p) (snd q).

Definition stop_point (s : BusStop.t) : float * float :=
  (BusStop.lat s, BusStop.lng s).

(** [interpolate_position] between two stops. *)
Definition interpolate_stops (a b : BusStop.t) (progress : float) : float * float :=
  interpolate_position (BusStop.lat a) (BusStop.lng a)
    (BusStop.lat b) (BusStop.lng b) progress.

(** ** Where a result comes from *)

(** [r] is what the inner loop of [find_buses] appends for [bus] on [route]
    at its [k]-th iteration, for the origin stop [from_stop]. *)
Definition produced (M : libm) (w : world) (from_stop : BusStop.t)
  (route : Route.t) (bus : Bus.t) (k : nat) (r : BusQueryResponse.t) : Prop :=
  exists (d ratio : float) (arrival : datetime),
    calculate_distance M (Bus.current_lat bus) (Bus.current_lng bus)
      (BusStop.lat from_stop) (BusStop.lng from_stop) = Return d
    /\ py_int (fmul (fdiv d (of_int 20)) (of_int 60))
       = Return (BusQueryResponse.eta_minutes r - randint w k 2 8)
    /\ int_truediv (Bus.current_occupancy bus) (Bus.capacity bus) = Return ratio
    /\ py_int (fmul ratio (of_int 100))
       = Return (BusQueryResponse.occupancy_percentage r)
    /\ BusQueryResponse.available_seats r
       = Bus.capacity bus - Bus.current_occupancy bus
    /\ plus_minutes (clock w k) (BusQueryResponse.eta_minutes r) = Return arrival
    /\ BusQueryResponse.next_arrival r = strftime_HM arrival
    /\ BusQueryResponse.bus_number r = Bus.bus_number bus
    /\ BusQueryResponse.route_name r = Route.name route.

(** [r] stems from an active bus on a route through both stops. *)
Definition result_of (M : libm) (w : world) (db : database)
  (from_stop to_stop : BusStop.t) (r : BusQueryResponse.t) : Prop :=
  exists (route : Route.t) (bus : Bus.t) (k : nat),
    In route (find_routes_all (routes db) (BusStop.id from_stop)
                (BusStop.id to_stop))
    /\ In bus (find_buses_on_route (buses db) (Route.id route))
    /\ produced M w from_stop route bus k r.

(** The percentage the inner loop computes from a bus's two counters:
    [int((occupancy / capacity) * 100)]. *)
Definition percent_of (occupancy capacity : Z) : outcome Z :=
  ratio <- int_truediv occupancy capacity ;;
  py_int (fmul ratio (of_int 100)).

(** The computed percentage is the exact quotient's floor, or one below. *)
Definition percent_near_floor (occupancy capacity : Z) : bool :=
  match percent_of occupancy capacity with
  | Return p =>
      (100 * occupancy / capacity - 1 <=? p) && (p <=? 100 * occupancy / capacity)
  | _ => false
  end.

(** The percentage as the specification words it:
    [round(100 * occupancy / capacity)], halves rounded up. *)
Definition round_half_up_percent (occupancy capacity : Z) : Z :=
  (200 * occupancy + capacity) / (2 * capacity).

(** ** Assumptions on the C library

    What the development assumes of [sin], [cos] and [atan2]: the sine maps
    [+0] to [+0] (C's Annex F) and is odd, the cosine of a finite argument
    is below 2 in magnitude, and the arctangent of a point of the first
    quadrant is not negative. *)

(** [|x| < 2^k], read off the representation. *)
Definition abs_lt_pow2 (k : Z) (x : float) : bool :=
  match x with
  | S754_zero _ => true
  | S754_finite _ m e => Z.pos (digits2_pos m) + e <=? k
  | _ => false
  end.

(** A finite double in its canonical representation, as any finite Python
    float is. *)
Definition finite_double (x : float) : bool := is_finite x && valid x.

(** Two finite numbers with the same sign and the same binary exponent. *)
Definition same_binade (x y : float) : bool :=
  match x, y with
  | S754_finite sx _ ex, S754_finite sy _ ey => Bool.eqb sx sy && (ex =? ey)
  | _, _ => false
  end.

(** A latitude or longitude in degrees: finite, of magnitude below 256. *)
Definition coordinate (x : float) : bool := abs_lt_pow2 8 x.

(** Finite and strictly positive. *)
Definition is_positive (x : float) : bool :=
  match x with
  | S754_finite false _ _ => true
  | _ => false
  end.

(** Not below zero: a zero of either sign, a positive number, or a NaN. *)
Definition not_negative (x : float) : bool :=
  match x with
  | S754_finite true _ _ | S754_infinity true => false
  | _ => true
  end.

Record libm_ok (M : libm) : Prop := {
  sin_zero : c_sin M pzero = pzero;
  sin_odd : forall x, c_sin M (fneg x) = fneg (c_sin M x);
  cos_range : forall x, is_finite x = true -> abs_lt_pow2 1 (c_cos M x) = true;
  atan2_quadrant : forall y x,
    is_positive y = true -> is_finite x = true -> not_negative x = true ->
    not_negative (c_atan2 M y x) = true
}.

(** The first-order approximations at the origin, [sin x ~ x], [cos x ~ 1]
    and [atan2 y x ~ y] near [x = 1]: an instance on which the worked
    scenarios run. *)
Definition small_angle_libm : libm :=
  {| c_sin := fun x => x;
     c_cos := fun _ => of_int 1;
     c_atan2 := fun y _ => y |}.

(** ** The catalog lookup as the specification words it *)

Fixpoint lower (s : string) : string :=
  match s with
  | EmptyString => EmptyString
  | String c rest => String (regex.to_lower c) (lower rest)
  end.

(** [name] contains [q] as a substring, up to ASCII case. *)
Definition contains_ci (name q : string) : Prop :=
  exists pre mid post : string,
    name = (pre ++ mid ++ post)%string /\ lower mid = lower q.

(** [s] is the first stop of [coll] whose name contains [q]. *)
Definition first_containing (coll : list BusStop.t) (q : string) (s : BusStop.t)
  : Prop :=
  exists before after : list BusStop.t,
    coll = before ++ s :: after
    /\ contains_ci (BusStop.name s) q
    /\ Forall (fun t => ~ contains_ci (BusStop.name t) q) before.

(** The pattern that matches the characters of [q] literally. *)
Fixpoint literal (q : string) : list regex.atom :=
  match q with
  | EmptyString => []
  | String c rest => regex.Lit c :: literal rest
  end.

(** A query made of ordinary 7-bit characters only. *)
Fixpoint plain_query (q : string) : bool :=
  match q with
  | EmptyString => true
  | String c rest =>
      negb (regex.is_metachar c) && regex.is_ascii7 c && plain_query rest
  end.

Definition query (a b : string) : BusQuery.t :=
  {| BusQuery.from_stop := a; BusQuery.to_stop := b |}.

(** ** The distance as the specification words it *)

(** The great-circle distance by the haversine formula on a sphere of radius
    6371 km: [R * (2 * atan2 (sqrt a) (sqrt (1 - a)))] with
    [a = sin^2 (dlat / 2) + cos lat1 * cos lat2 * sin^2 (dlng / 2)], the
    angles in radians, evaluated in binary64 on the C library's functions. *)
Definition distanceKm (M : libm) (lat1 lng1 lat2 lng2 : float) : float :=
  let s := c_sin M (half_angle (fsub lat2 lat1)) in
  let t := c_sin M (half_angle (fsub lng2 lng1)) in
  let a :=
    haversine_a s (c_cos M (math.radians lat1)) (c_cos M (math.radians lat2)) t in
  fmul (of_int 6371)
    (fmul (of_int 2) (math.m_atan2 M (fsqrt a) (fsqrt (fsub (of_int 1) a)))).

(** One active bus on the Red Line, standing at India Gate, 10 of 40 seats
    taken: some 5 km from Red Fort. *)
Definition india_gate_fleet : list Bus.t :=
  [ bus_doc "bus-1" "DL-01" "route:Red Line" 40 10
      (BusStop.lat india_gate_doc) (BusStop.lng india_gate_doc) "active" ].

Definition india_gate_results : list BusQueryResponse.t :=
  [ response "DL-01" "Red Line" 16 25 30 "12:16" ].

(** ** Results of a query, pair by pair *)

(** The (route, bus) pairs the two loops of [find_buses] visit, in the order
    they visit them: the routes through both stops in natural order, and
    for each the active buses assigned to it. *)
Definition matching_pairs (db : database) (from_stop to_stop : BusStop.t)
  : list (Route.t * Bus.t) :=
  flat_map
    (fun route => map (pair route) (find_buses_on_route (buses db) (Route.id route)))
    (find_routes_all (routes db) (BusStop.id from_stop) (BusStop.id to_stop)).

(** [results] holds one result for each pair, in the same order, the first
    of them appended at iteration [k] and the others at the following ones. *)
Fixpoint produced_in_order (M : libm) (w : world) (from_stop : BusStop.t) (k : nat)
  (pairs : list (Route.t * Bus.t)) (results : list BusQueryResponse.t) : Prop :=
  match pairs, results with
  | [], [] => True
  | (route, bus) :: pairs', r :: results' =>
      produced M w from_stop route bus k r
      /\ produced_in_order M w from_stop (S k) pairs' results'
  | _, _ => False
  end.

(** ** Fleet insights *)

(** [x < y] on floats; any comparison with a NaN is false. *)
Definition fltb : float -> float -> bool := SFltb.

(** [[x for x in l if cond(x)]] with a condition that may raise: the
    elements are tested in order and the first exception ends the
    comprehension. *)
Fixpoint comprehension_if {A : Type} (cond : A -> outcome bool) (l : list A)
  : outcome (list A) :=
  match l with
  | [] => Return []
  | x :: rest =>
      keep <- cond x ;;
      kept <- comprehension_if cond rest ;;
      Return (if keep then x :: kept else kept)
  end.

(** The user message of [get_ai_insights].  Its text is a constant template
    around seven interpolated values; the message is kept as those values
    (the two rates are printed with one decimal, the cities joined by
    commas, the two bus lists printed as their lengths). *)
Module UserMessage.
Record t : Type := {
  total_buses : Z;
  active_buses : Z;
  occupancy_rate : pynum;
  avg_occupancy : pynum;
  route_cities : list string;
  high_occupancy_buses : list Bus.t;
  low_occupancy_buses : list Bus.t
}.
End UserMessage.

(** The language model behind [LlmChat], an external service: building the
    chat may fail, and so may each message sent, with an exception derived
    from [Exception].  A task cancelled while it waits for the reply is
    [get_ai_insights_task]'s matter. *)
Inductive reply : Type :=
| Answer (text : string)
| Failure (e : exn).

Record LlmChat : Type := {
  with_model : option exn;                 (* [Some e]: the constructor raises [e] *)
  send_message : UserMessage.t -> reply
}.

(** The static text returned when anything in [get_ai_insights] fails. *)
Definition fallback_insights : string := "
🚌 FLEET MANAGEMENT INSIGHTS

🎯 IMMEDIATE ACTIONS (Today):
1. Deploy additional buses to high-occupancy routes during peak hours (7-9 AM, 6-8 PM)

📊 OPTIMIZATION OPPORTUNITIES (This Week):
2. Analyze passenger flow patterns to adjust bus frequency on underutilized routes
3. Implement dynamic routing based on real-time crowd data

👥 PASSENGER EXPERIENCE (Ongoing):
4. Set up real-time passenger information displays at major stops
5. Introduce mobile app notifications for bus arrivals and delays

💡 EFFICIENCY IMPROVEMENTS:
6. Schedule preventive maintenance during off-peak hours to maximize bus availability
7. Train drivers on fuel-efficient driving techniques to reduce operational costs

🚀 STRATEGIC INSIGHTS:
8. Consider electric buses for high-frequency routes to reduce long-term costs
9. Implement AI-powered predictive maintenance to prevent breakdowns

Note: AI insights temporarily unavailable. These are general recommendations for Indian bus fleet management.
        ".

(** [b["current_occupancy"] / b["capacity"]]. *)
Definition load_factor (b : Bus.t) : outcome float :=
  int_truediv (Bus.current_occupancy b) (Bus.capacity b).

(** The metrics of [get_ai_insights], up to the message they are put in.
    [list(set(...))] yields the distinct cities in the set's iteration
    order, which Python does not fix; they are kept here in list order. *)
Definition fleet_metrics (buses_data : list Bus.t) (routes_data : list Route.t)
  : outcome UserMessage.t :=
  let total_buses := len buses_data in
  let active_buses := len (filter is_active buses_data) in
  avg_occupancy <-
    (if total_buses >? 0 then
       q <- int_truediv (sum (map Bus.current_occupancy buses_data)) total_buses ;;
       Return (PyFloat q)
     else Return (PyInt 0)) ;;
  let total_capacity := sum (map Bus.capacity buses_data) in
  occupancy_rate <-
    (if total_capacity >? 0 then
       q <- int_truediv (sum (map Bus.current_occupancy buses_data)) total_capacity ;;
       Return (PyFloat (fmul q (of_int 100)))
     else Return (PyInt 0)) ;;
  high_occupancy_buses <-
    comprehension_if
      (fun b => q <- load_factor b ;; Return (fltb (decimal 8 1) q)) buses_data ;;
  low_occupancy_buses <-
    comprehension_if
      (fun b => q <- load_factor b ;; Return (fltb q (decimal 3 1))) buses_data ;;
  let route_cities := nodup string_dec (map Route.city routes_data) in
  Return {| UserMessage.total_buses := total_buses;
            UserMessage.active_buses := active_buses;
            UserMessage.occupancy_rate := occupancy_rate;
            UserMessage.avg_occupancy := avg_occupancy;
            UserMessage.route_cities := route_cities;
            UserMessage.high_occupancy_buses := high_occupancy_buses;
            UserMessage.low_occupancy_buses := low_occupancy_buses |}.

(** [get_ai_insights], for a task that is not cancelled: the model's
    answer, or the static text when anything in the [try] block raises. *)
Definition get_ai_insights (chat : LlmChat) (buses_data : list Bus.t)
  (routes_data : list Route.t) : outcome string :=
  try_except
    (ready <- match with_model chat with
              | Some e => Raise e
              | None => Return tt
              end ;;
     prompt <- fleet_metrics buses_data routes_data ;;
     match send_message chat prompt with
     | Answer response => Return response
     | Failure e => Raise e
     end)
    (fun e => (* logging.error(...) *)
       Return fallback_insights).

(** How a coroutine ends: with an outcome, or cancelled while it waits at
    an [await].  [asyncio.CancelledError] is then raised at the [await]; it
    derives from [BaseException] and not from [Exception], so no
    [except Exception] clause stops it. *)
Inductive completion (A : Type) : Type :=
| Completed (o : outcome A)
| CancelledError.

Arguments Completed {A} o.
Arguments CancelledError {A}.

(** [get_ai_insights] as a task that may be cancelled.  Its only [await] is
    on the reply to the message; [cancelled] tells whether the task is
    cancelled there.  When the [try] block does not get that far, or the
    task is left alone, it ends as [get_ai_insights] does. *)
Definition get_ai_insights_task (chat : LlmChat) (cancelled : bool)
  (buses_data : list Bus.t) (routes_data : list Route.t) : completion string :=
  match (ready <- match with_model chat with
                  | Some e => Raise e
                  | None => Return tt
                  end ;;
         fleet_metrics buses_data routes_data) with
  | Return prompt =>
      if cancelled then CancelledError
      else Completed (get_ai_insights chat buses_data routes_data)
  | _ => Completed (get_ai_insights chat buses_data routes_data)
  end.

Module Insights.
Record t : Type := {
  insights : string;
  generated_at : datetime        (* rendered by [isoformat] on the wire *)
}.
End Insights.

(** [get_fleet_insights]: the handler of [GET /api/ai-insights].  The clock
    is read a first time for the chat's session id. *)
Definition get_fleet_insights (chat : LlmChat) (w : world) (db : database)
  : outcome Insights.t :=
  let buses := buses db in
  let routes := routes db in
  insights <- get_ai_insights chat buses routes ;;
  Return {| Insights.insights := insights;
            Insights.generated_at := clock w 1 |}.

(** ** The simulation switch *)

(** The tasks a handler can hand to [BackgroundTasks]. *)
Inductive background_task : Type :=
| simulate_bus_movement.

(** [start_simulation]: the handler of [POST /api/start-simulation], on the
    global flag [simulation_running] and the request's task list. *)
Definition start_simulation (simulation_running : bool)
  (background_tasks : list background_task)
  : string * bool * list background_task :=
  if negb simulation_running then
    ("Bus simulation started"%string, true,
     background_tasks ++ [simulate_bus_movement])
  else ("Simulation already running"%string, simulation_running, background_tasks).

(** [shutdown_db_client]: the shutdown hook, as far as the flag goes. *)
Definition shutdown_db_client (simulation_running : bool) : bool := false.

(** What reaches the process: a call of the start endpoint, or the
    shutdown event. *)
Inductive event : Type :=
| StartSimulation
| Shutdown.

(** The process over a sequence of events, from a value of the flag: the
    messages answered, the final flag, and every task scheduled (each
    request has its own, initially empty, task list). *)
Fixpoint serve (events : list event) (simulation_running : bool)
  : list string * bool * list background_task :=
  match events with
  | [] => ([], simulation_running, [])
  | StartSimulation :: rest =>
      let '(message, running, tasks) := start_simulation simulation_running [] in
      let '(messages, final, scheduled) := serve rest running in
      (message :: messages, final, tasks ++ scheduled)
  | Shutdown :: rest => serve rest (shutdown_db_client simulation_running)
  end.

(** ** Dashboard helpers (App.js)

    JavaScript numbers are binary64 floats; [/] never throws. *)

Definition getOccupancyColor (occupancy capacity : float) : string :=
  let percentage := fmul (fdiv occupancy capacity) (of_int 100) in
  if fltb percentage (of_int 30) then "text-green-600"
  else if fltb percentage (of_int 70) then "text-yellow-600"
  else "text-red-600".

Definition getOccupancyBgColor (percentage : float) : string :=
  if fltb percentage (of_int 30) then "bg-green-100"
  else if fltb percentage (of_int 70) then "bg-yellow-100"
  else "bg-red-100".

(** The band a class name stands for: 0 green, 1 yellow, 2 red. *)
Definition band (css : string) : Z :=
  if String.eqb css "text-green-600" || String.eqb css "bg-green-100" then 0
  else if String.eqb css "text-yellow-600" || String.eqb css "bg-yellow-100" then 1
  else 2.

(** The admin table and the customer card show the same band for a bus
    with these two counters. *)
Definition same_band (occupancy capacity : Z) : bool :=
  match percent_of occupancy capacity with
  | Return p =>
      band (getOccupancyBgColor (of_int p))
      =? band (getOccupancyColor (of_int occupancy) (of_int capacity))
  | _ => false
  end.

(** ** Further scenario data *)

(** A chat that answers every message with the same text, and one whose
    service is down. *)
Definition canned_chat (text : string) : LlmChat :=
  {| with_model := None; send_message := fun _ => Answer text |}.

Definition broken_chat : LlmChat :=
  {| with_model := None; send_message := fun _ => Failure ValueError |}.

(** A fleet with a bus whose capacity was recorded as zero. *)
Definition zero_capacity_fleet : list Bus.t :=
  [ bus_doc "bus-1" "DL-01" "route:Red Line" 40 10 red_fort_lat red_fort_lng
      "active";
    bus_doc "bus-2" "DL-02" "route:Red Line" 0 0 red_fort_lat red_fort_lng
      "active" ].

(** * Properties *)

(** ** Binary64 arithmetic *)

Example trunc_39_40 :
  trunc (fmul (fdiv (of_int 39) (of_int 40)) (of_int 100)) = 97.
Proof. vm_compute. reflexivity. Qed.

Example trunc_29_100 :
  trunc (fmul (fdiv (of_int 29) (of_int 100)) (of_int 100)) = 28.
Proof. vm_compute. reflexivity. Qed.

(** *** Sign symmetry of the binary64 operations

    Rounding to nearest-even treats a value and its negation alike, so the
    sign only travels through the operations.  These facts are what the
    symmetry of [calculate_distance] rests on. *)

Section SignSymmetry.

Lemma binary_round_aux_negb (s : bool) (m e : Z) (l : location) :
  binary_round_aux prec emax (negb s) m e l
  = fneg (binary_round_aux prec emax s m e l).
Proof.
  unfold binary_round_aux.
  destruct (shr_fexp prec emax m e l) as [mrs1 e1].
  destruct (shr_fexp prec emax _ e1 loc_Exact) as [mrs2 e2].
  destruct (shr_m mrs2); try reflexivity.
  destruct (e2 <=? emax - prec); reflexivity.
Qed.

Lemma binary_round_negb (s : bool) (m : positive) (e : Z) :
  binary_round prec emax (negb s) m e = fneg (binary_round prec emax s m e).
Proof.
  unfold binary_round.
  destruct (shl_align m e _) as [mz ez].
  apply binary_round_aux_negb.
Qed.

Lemma fneg_involutive (x : float) : fneg (fneg x) = x.
Proof. destruct x; simpl; rewrite ?negb_involutive; reflexivity. Qed.

Lemma xorb_negb_l (a b : bool) : xorb (negb a) b = negb (xorb a b).
Proof. destruct a, b; reflexivity. Qed.

Lemma fmul_fneg_l (x y : float) : fmul (fneg x) y = fneg (fmul x y).
Proof.
  destruct x as [sx|sx| |sx mx ex], y as [sy|sy| |sy my ey]; simpl;
    rewrite ?xorb_negb_l; try reflexivity.
  apply binary_round_aux_negb.
Qed.

Lemma fmul_comm (x y : float) : fmul x y = fmul y x.
Proof.
  destruct x as [sx|sx| |sx mx ex], y as [sy|sy| |sy my ey]; simpl;
    rewrite ?(xorb_comm sx sy); try reflexivity.
  now rewrite Pos.mul_comm, Z.add_comm.
Qed.

Lemma fmul_fneg_fneg (x : float) : fmul (fneg x) (fneg x) = fmul x x.
Proof.
  rewrite fmul_fneg_l, (fmul_comm x (fneg x)), fmul_fneg_l.
  apply fneg_involutive.
Qed.

Lemma fdiv_fneg_l (x y : float) : fdiv (fneg x) y = fneg (fdiv x y).
Proof.
  destruct x as [sx|sx| |sx mx ex], y as [sy|sy| |sy my ey]; simpl;
    rewrite ?xorb_negb_l; try reflexivity.
  destruct (SFdiv_core_binary prec emax (Z.pos mx) ex (Z.pos my) ey)
    as [[mz ez] lz].
  apply binary_round_aux_negb.
Qed.

Lemma binary_normalize_opp (m e : Z) :
  m <> 0 ->
  binary_normalize prec emax (- m) e false
  = fneg (binary_normalize prec emax m e false).
Proof.
  destruct m as [|p|p]; intros Hm; [congruence| |]; simpl.
  - apply (binary_round_negb false).
  - apply (binary_round_negb true).
Qed.

(** Subtraction is antisymmetric, except that [x - x] is [+0] both ways. *)
Lemma fsub_antisym (x y : float) :
  fsub y x = fneg (fsub x y) \/ (fsub x y = pzero /\ fsub y x = pzero).
Proof.
  destruct x as [sx|sx| |sx mx ex], y as [sy|sy| |sy my ey]; simpl;
    try (left; reflexivity);
    try (destruct sx, sy; simpl; (left; reflexivity) || (right; split; reflexivity)).
  rewrite (Z.min_comm ey ex).
  set (a := cond_Zopp sx _). set (b := cond_Zopp sy _).
  destruct (Z.eq_dec (a - b) 0) as [H0|H0].
  - right. replace (b - a) with 0 by lia. rewrite H0. split; reflexivity.
  - left. replace (b - a) with (- (a - b)) by lia.
    now apply binary_normalize_opp.
Qed.

End SignSymmetry.

(** *** Results that stay in range

    A product, quotient or difference whose magnitude is far from the top of
    the binary64 range is finite: rounding neither overflows nor yields a
    NaN. *)

Section Range.

Lemma digits2_pos_size (p : positive) : digits2_pos p = Pos.size p.
Proof. induction p; simpl; congruence. Qed.

Lemma Zdigits2_gt (m : Z) : 0 <= m -> m < 2 ^ Zdigits2 m.
Proof.
  destruct m as [|p|p]; intros H; simpl; [lia| |lia].
  rewrite digits2_pos_size.
  pose proof (Pos.size_gt p) as Hs.
  apply Pos2Z.pos_lt_pos in Hs. rewrite Pos2Z.inj_pow in Hs. exact Hs.
Qed.

Lemma Zdigits2_le (m k : Z) : 0 <= m -> 0 <= k -> m < 2 ^ k -> Zdigits2 m <= k.
Proof.
  destruct m as [|p|p]; intros Hm Hk H; simpl; [lia| |lia].
  rewrite digits2_pos_size.
  destruct (Z_le_gt_dec (Z.pos (Pos.size p)) k) as [|Hgt]; [assumption|exfalso].
  pose proof (Pos.size_le p) as Hs.
  apply Pos2Z.pos_le_pos in Hs. rewrite Pos2Z.inj_pow in Hs.
  assert (2 ^ (k + 1) <= 2 ^ Z.pos (Pos.size p)) by (apply Z.pow_le_mono_r; lia).
  rewrite Z.pow_add_r in H0 by lia. change (2 ^ 1) with 2 in H0.
  change (Z.pos p~0) with (2 * Z.pos p) in Hs. lia.
Qed.

Lemma Zdigits2_nonneg (m : Z) : 0 <= Zdigits2 m.
Proof. destruct m; simpl; lia. Qed.

Lemma shr_1_m (mrs : shr_record) :
  0 <= shr_m mrs -> shr_m (shr_1 mrs) = shr_m mrs / 2.
Proof.
  destruct mrs as [m r s]; simpl. intros Hm.
  destruct m as [|p|p]; [reflexivity| |lia].
  destruct p as [p|p|]; simpl shr_m.
  - rewrite Pos2Z.inj_xI. apply Z.div_unique with 1; lia.
  - rewrite Pos2Z.inj_xO. apply Z.div_unique with 0; lia.
  - reflexivity.
Qed.

Lemma iter_shr_1_m (p : positive) (mrs : shr_record) :
  0 <= shr_m mrs ->
  shr_m (iter_pos shr_1 p mrs) = shr_m mrs / 2 ^ Z.pos p.
Proof.
  revert mrs. induction p as [p IH|p IH|]; intros mrs Hm; simpl iter_pos.
  - assert (H1 : 0 <= shr_m (shr_1 mrs))
      by (rewrite shr_1_m by lia; apply Z.div_pos; lia).
    assert (H2 : 0 <= shr_m (iter_pos shr_1 p (shr_1 mrs)))
      by (rewrite IH by lia; apply Z.div_pos; [lia | apply Z.pow_pos_nonneg; lia]).
    rewrite IH, IH, shr_1_m by lia.
    rewrite !Z.div_div by (try apply Z.pow_pos_nonneg; lia).
    f_equal. rewrite Pos2Z.inj_xI.
    replace (2 * Z.pos p + 1) with (1 + Z.pos p + Z.pos p) by lia.
    rewrite (Z.pow_add_r 2 (1 + Z.pos p) (Z.pos p)) by lia.
    rewrite (Z.pow_add_r 2 1 (Z.pos p)) by lia. lia.
  - assert (H2 : 0 <= shr_m (iter_pos shr_1 p mrs))
      by (rewrite IH by lia; apply Z.div_pos; [lia | apply Z.pow_pos_nonneg; lia]).
    rewrite IH, IH by lia.
    rewrite !Z.div_div by (try apply Z.pow_pos_nonneg; lia).
    f_equal. replace (Z.pos p~0) with (Z.pos p + Z.pos p) by lia.
    rewrite (Z.pow_add_r 2 (Z.pos p) (Z.pos p)) by lia. lia.
  - apply shr_1_m. exact Hm.
Qed.

Lemma shr_record_of_loc_m (m : Z) (l : location) :
  shr_m (shr_record_of_loc m l) = m.
Proof. destruct l as [|[]]; reflexivity. Qed.

Lemma shr_fexp_spec (m e : Z) (l : location) (mrs' : shr_record) (e' : Z) :
  0 <= m ->
  shr_fexp prec emax m e l = (mrs', e') ->
  let n := fexp prec emax (Zdigits2 m + e) - e in
  (n <= 0 /\ shr_m mrs' = m /\ e' = e)
  \/ (0 < n /\ shr_m mrs' = m / 2 ^ n /\ e' = e + n).
Proof.
  intros Hm H n. unfold shr_fexp, shr in H. fold n in H.
  destruct n as [|p|p]; inversion H; subst.
  - left. rewrite shr_record_of_loc_m. lia.
  - right. rewrite iter_shr_1_m by (rewrite shr_record_of_loc_m; lia).
    rewrite shr_record_of_loc_m. lia.
  - left. rewrite shr_record_of_loc_m. lia.
Qed.

Lemma round_nearest_even_bounds (m : Z) (l : location) :
  m <= round_nearest_even m l <= m + 1.
Proof.
  destruct l as [|[]]; simpl; try lia.
  destruct (Z.even m); lia.
Qed.

Lemma Zdigits2_succ_le (m k : Z) :
  0 <= m -> 0 <= k -> m <= 2 ^ k -> Zdigits2 m <= k + 1.
Proof.
  intros Hm Hk H. apply Zdigits2_le; try lia.
  rewrite Z.pow_add_r by lia. change (2 ^ 1) with 2.
  assert (0 < 2 ^ k) by (apply Z.pow_pos_nonneg; lia). lia.
Qed.

Lemma binary_round_aux_finite (s : bool) (m e : Z) (l : location) :
  0 <= m -> Zdigits2 m + e <= 1023 -> e <= 970 ->
  is_finite (binary_round_aux prec emax s m e l) = true.
Proof.
  intros Hm Hd He. unfold binary_round_aux.
  destruct (shr_fexp prec emax m e l) as [mrs1 e1] eqn:H1.
  destruct (shr_fexp prec emax _ e1 loc_Exact) as [mrs2 e2] eqn:H2.
  apply shr_fexp_spec in H1; [|exact Hm].
  pose proof (round_nearest_even_bounds (shr_m mrs1) (loc_of_shr_record mrs1)) as Hr.
  set (m1' := round_nearest_even (shr_m mrs1) (loc_of_shr_record mrs1)) in *.
  pose proof (Zdigits2_gt m Hm) as Hlt.
  pose proof (Zdigits2_nonneg m) as Hd0.
  set (d := Zdigits2 m) in *.
  assert (Hm1 : 0 <= shr_m mrs1 /\ e1 <= 970 /\ Zdigits2 m1' + e1 <= 1024).
  { cbv zeta in H1. unfold fexp, emin, prec, emax in H1.
    destruct H1 as [(Hn & Hm1 & He1)|(Hn & Hm1 & He1)].
    - rewrite Hm1 in *. subst e1. repeat split; try lia.
      assert (Zdigits2 m1' <= d + 1) by (apply Zdigits2_succ_le; lia). lia.
    - set (n := Z.max (d + e - 53) (3 - 1024 - 53) - e) in *.
      assert (Hpn : 0 < 2 ^ n) by (apply Z.pow_pos_nonneg; lia).
      assert (H0 : 0 <= shr_m mrs1) by (rewrite Hm1; apply Z.div_pos; lia).
      repeat split; try lia.
      set (k := Z.max (d - n) 0).
      assert (Hk : shr_m mrs1 < 2 ^ k).
      { rewrite Hm1. apply Z.div_lt_upper_bound; [lia|].
        rewrite <- Z.pow_add_r by lia.
        apply Z.lt_le_trans with (2 ^ d); [lia|].
        apply Z.pow_le_mono_r; lia. }
      assert (Zdigits2 m1' <= k + 1) by (apply Zdigits2_succ_le; lia).
      lia. }
  destruct Hm1 as (Hm1 & He1 & Hd1).
  apply shr_fexp_spec in H2; [|lia].
  cbv zeta in H2. unfold fexp, emin, prec, emax in H2.
  assert (Hm2 : 0 <= shr_m mrs2 /\ e2 <= 971).
  { destruct H2 as [(Hn & Hm2 & He2)|(Hn & Hm2 & He2)].
    - lia.
    - split; [|lia]. rewrite Hm2. apply Z.div_pos; [lia|].
      apply Z.pow_pos_nonneg; lia. }
  destruct Hm2 as (Hm2 & He2).
  destruct (shr_m mrs2) as [|p|p]; [reflexivity| |lia].
  unfold emax, prec.
  destruct (e2 <=? 1024 - 53) eqn:Hle; [reflexivity|].
  apply Z.leb_gt in Hle. lia.
Qed.


Lemma iter_xO_value (m d : positive) :
  Z.pos (Pos.iter xO m d) = Z.pos m * 2 ^ Z.pos d.
Proof.
  induction d as [|d IH] using Pos.peano_ind.
  - simpl. lia.
  - rewrite Pos.iter_succ, Pos2Z.inj_succ, Z.pow_succ_r by lia.
    change (Z.pos (Pos.iter xO m d)~0) with (2 * Z.pos (Pos.iter xO m d)).
    rewrite IH. lia.
Qed.

Lemma shl_align_value (m : positive) (e e' : Z) :
  e' <= e ->
  Z.pos (fst (shl_align m e e')) = Z.pos m * 2 ^ (e - e')
  /\ snd (shl_align m e e') = e'.
Proof.
  intros Hle. unfold shl_align.
  destruct (e' - e) as [|d|d] eqn:Hd; cbn [fst snd].
  - replace (e - e') with 0 by lia. rewrite Z.pow_0_r. lia.
  - lia.
  - rewrite iter_xO_value. replace (e - e') with (Z.pos d) by lia.
    split; reflexivity.
Qed.

Lemma binary_round_finite (s : bool) (m : positive) (e : Z) :
  Z.pos (digits2_pos m) + e <= 1023 -> e <= 970 ->
  is_finite (binary_round prec emax s m e) = true.
Proof.
  intros Hd He. unfold binary_round.
  set (e' := fexp prec emax (Z.pos (digits2_pos m) + e)).
  pose proof (Zdigits2_gt (Z.pos m) ltac:(lia)) as Hm. simpl Zdigits2 in Hm.
  destruct (Z_le_gt_dec e' e) as [Hle|Hgt].
  - destruct (shl_align_value m e e' Hle) as [Hv He'].
    destruct (shl_align m e e') as [mz ez]. cbn [fst snd] in Hv, He'. subst ez.
    apply binary_round_aux_finite; try lia.
    assert (Zdigits2 (Z.pos mz) <= Z.pos (digits2_pos m) + (e - e')).
    { apply Zdigits2_le; try lia.
      rewrite Hv, (Z.pow_add_r 2 (Z.pos (digits2_pos m)) (e - e')) by lia.
      apply Z.mul_lt_mono_pos_r; [apply Z.pow_pos_nonneg; lia | exact Hm]. }
    lia.
  - unfold shl_align. destruct (e' - e) eqn:Hd'; try lia;
      apply binary_round_aux_finite; simpl Zdigits2; lia.
Qed.

Lemma fmul_finite (kx ky : Z) (x y : float) :
  abs_lt_pow2 kx x = true -> abs_lt_pow2 ky y = true -> kx + ky <= 972 ->
  is_finite (fmul x y) = true.
Proof.
  unfold fmul, abs_lt_pow2.
  destruct x as [sx|sx| |sx mx ex], y as [sy|sy| |sy my ey];
    cbn [SFmul is_finite]; try reflexivity; try discriminate.
  intros Hx Hy Hk. apply Z.leb_le in Hx, Hy.
  pose proof (Zdigits2_gt (Z.pos mx) ltac:(lia)) as Hmx.
  pose proof (Zdigits2_gt (Z.pos my) ltac:(lia)) as Hmy.
  simpl Zdigits2 in Hmx, Hmy.
  apply binary_round_aux_finite; try lia.
  assert (Zdigits2 (Z.pos (mx * my))
          <= Z.pos (digits2_pos mx) + Z.pos (digits2_pos my)).
  { apply Zdigits2_le; try lia.
    rewrite Pos2Z.inj_mul,
      (Z.pow_add_r 2 (Z.pos (digits2_pos mx)) (Z.pos (digits2_pos my))) by lia.
    nia. }
  lia.
Qed.

Lemma fsub_finite (k : Z) (x y : float) :
  abs_lt_pow2 k x = true -> abs_lt_pow2 k y = true -> k <= 971 ->
  is_finite (fsub x y) = true.
Proof.
  unfold fsub, abs_lt_pow2.
  destruct x as [sx|sx| |sx mx ex], y as [sy|sy| |sy my ey];
    cbn [SFsub is_finite]; try reflexivity; try discriminate.
  - destruct sx, sy; reflexivity.
  - intros Hx Hy Hk. apply Z.leb_le in Hx, Hy.
    pose proof (Zdigits2_gt (Z.pos mx) ltac:(lia)) as Hmx.
    pose proof (Zdigits2_gt (Z.pos my) ltac:(lia)) as Hmy.
    simpl Zdigits2 in Hmx, Hmy.
    set (ez := Z.min ex ey).
    destruct (shl_align_value mx ex ez ltac:(lia)) as [Hvx _].
    destruct (shl_align_value my ey ez ltac:(lia)) as [Hvy _].
    set (a := Z.pos (fst (shl_align mx ex ez))) in *.
    set (b := Z.pos (fst (shl_align my ey ez))) in *.
    assert (Hpx : 0 < 2 ^ (ex - ez)) by (apply Z.pow_pos_nonneg; lia).
    assert (Hpy : 0 < 2 ^ (ey - ez)) by (apply Z.pow_pos_nonneg; lia).
    assert (Ha : 0 < a < 2 ^ (k - ez)).
    { split; [lia|]. apply Z.lt_le_trans with (2 ^ (Z.pos (digits2_pos mx) + (ex - ez))).
      - rewrite (Z.pow_add_r 2 (Z.pos (digits2_pos mx)) (ex - ez)) by lia. nia.
      - apply Z.pow_le_mono_r; lia. }
    assert (Hb : 0 < b < 2 ^ (k - ez)).
    { split; [lia|]. apply Z.lt_le_trans with (2 ^ (Z.pos (digits2_pos my) + (ey - ez))).
      - rewrite (Z.pow_add_r 2 (Z.pos (digits2_pos my)) (ey - ez)) by lia. nia.
      - apply Z.pow_le_mono_r; lia. }
    assert (Hz : forall z, Z.abs z < 2 ^ (k - ez + 1) ->
                 is_finite (binary_normalize prec emax z ez false) = true).
    { intros z Hzb. destruct z as [|p|p]; simpl; [reflexivity| |];
        apply binary_round_finite; try lia;
        pose proof (Zdigits2_le (Z.pos p) (k - ez + 1) ltac:(lia) ltac:(lia) Hzb) as Hdz;
        simpl Zdigits2 in Hdz; lia. }
    apply Hz. rewrite (Z.pow_add_r 2 (k - ez) 1) by lia. change (2 ^ 1) with 2.
    fold ez a b. destruct sx, sy; cbn [cond_Zopp]; lia.
Qed.

Lemma fsub_diag (x : float) : is_finite x = true -> fsub x x = pzero.
Proof.
  destruct x as [s|s| |s m e]; simpl; try discriminate; intros _.
  - destruct s; reflexivity.
  - rewrite Z.sub_diag. reflexivity.
Qed.

End Range.

(** *** Signs *)

Section Signs.

Lemma binary_round_aux_not_negative (m e : Z) (l : location) :
  not_negative (binary_round_aux prec emax false m e l) = true.
Proof.
  unfold binary_round_aux.
  destruct (shr_fexp prec emax m e l) as [mrs1 e1].
  destruct (shr_fexp prec emax _ e1 loc_Exact) as [mrs2 e2].
  destruct (shr_m mrs2); try reflexivity.
  destruct (e2 <=? emax - prec); reflexivity.
Qed.

Lemma fmul_not_negative (x y : float) :
  not_negative x = true -> not_negative y = true ->
  not_negative (fmul x y) = true.
Proof.
  destruct x as [sx|sx| |sx mx ex], y as [sy|sy| |sy my ey]; simpl;
    try reflexivity; try discriminate;
    try (destruct sx; try discriminate); try (destruct sy; try discriminate);
    try reflexivity.
  intros _ _. apply binary_round_aux_not_negative.
Qed.

Lemma fdiv_not_negative (x y : float) :
  not_negative x = true -> is_positive y = true ->
  not_negative (fdiv x y) = true.
Proof.
  destruct x as [sx|sx| |sx mx ex], y as [sy|sy| |sy my ey]; simpl;
    try reflexivity; try discriminate;
    try (destruct sx; try discriminate); try (destruct sy; try discriminate);
    try reflexivity.
  intros _ _.
  destruct (SFdiv_core_binary prec emax (Z.pos mx) ex (Z.pos my) ey)
    as [[mz ez] lz].
  apply binary_round_aux_not_negative.
Qed.

Lemma fsqrt_not_negative (x : float) : not_negative (fsqrt x) = true.
Proof.
  destruct x as [s|s| |s m e]; simpl; try reflexivity.
  - destruct s; reflexivity.
  - destruct s; [reflexivity|].
    destruct (SFsqrt_core_binary prec emax (Z.pos m) e) as [[mz ez] lz].
    apply binary_round_aux_not_negative.
Qed.

Lemma trunc_nonneg (x : float) : not_negative x = true -> 0 <= trunc x.
Proof.
  destruct x as [s|s| |s m e]; simpl; try lia.
  destruct s; [discriminate|]. intros _.
  destruct e; [apply Z.shiftl_nonneg|apply Z.shiftl_nonneg|apply Z.shiftr_nonneg]; lia.
Qed.

End Signs.

(** ** Fleet status *)

Section FleetStatusFacts.

Lemma len_filter_split {A : Type} (f : A -> bool) (l : list A) :
  len l - len (filter f l) = len (filter (fun x => negb (f x)) l).
Proof.
  unfold len. rewrite <- (filter_length f l) at 1.
  rewrite Nat2Z.inj_add. lia.
Qed.

Lemma get_fleet_status_fields (w : world) (db : database) (fs : FleetStatus.t) :
  get_fleet_status w db = Return fs ->
  FleetStatus.total_buses fs = len (buses db)
  /\ FleetStatus.active_buses fs = len (filter is_active (buses db))
  /\ FleetStatus.offline_buses fs
     = FleetStatus.total_buses fs - FleetStatus.active_buses fs.
Proof.
  unfold get_fleet_status.
  destruct (sum (map Bus.capacity (buses db)) >? 0).
  - destruct (int_truediv _ _) as [q|e|]; simpl; intros H; inversion H.
    repeat split.
  - simpl. intros H. inversion H. repeat split.
Qed.

End FleetStatusFacts.

(** C9.  [get_fleet_status] reports [offline_buses] as [total_buses] minus
    [active_buses]; hence it counts every bus whose status is not
    ["active"], and a bus in ["maintenance"] is among those counted. *)
Theorem fleet_status_offline_counts_non_active
  (w : world) (db : database) (fs : FleetStatus.t) :
  get_fleet_status w db = Return fs ->
  FleetStatus.offline_buses fs
  = FleetStatus.total_buses fs - FleetStatus.active_buses fs
  /\ FleetStatus.offline_buses fs
     = len (filter (fun b => negb (is_active b)) (buses db))
  /\ forall b, In b (buses db) -> Bus.status b = "maintenance"%string ->
       In b (filter (fun b => negb (is_active b)) (buses db)).
Proof.
  intros H. destruct (get_fleet_status_fields w db fs H) as (Ht & Ha & Ho).
  split; [exact Ho|]. split.
  - rewrite Ho, Ht, Ha. apply len_filter_split.
  - intros b Hin Hst. apply filter_In. split; [exact Hin|].
    unfold is_active. rewrite Hst. reflexivity.
Qed.

Lemma fleet_status_offline_counts_non_active_witness :
  get_fleet_status sample_world (seeded_db mixed_fleet) = Return mixed_fleet_status
  /\ FleetStatus.offline_buses mixed_fleet_status = 2
  /\ FleetStatus.offline_buses mixed_fleet_status
     = len (filter (fun b => negb (is_active b)) mixed_fleet).
Proof.
  assert (H : get_fleet_status sample_world (seeded_db mixed_fleet)
              = Return mixed_fleet_status) by (vm_compute; reflexivity).
  split; [exact H|]. split; [reflexivity|].
  exact (proj1 (proj2 (fleet_status_offline_counts_non_active _ _ _ H))).
Defined.

(** C10.  [get_fleet_status] never divides by zero: it never raises
    [ZeroDivisionError], and when the summed capacity is not positive (no
    buses, say) it returns with [occupancy_rate] equal to the integer 0. *)
Theorem fleet_status_never_divides_by_zero (w : world) (db : database) :
  get_fleet_status w db <> Raise ZeroDivisionError
  /\ (sum (map Bus.capacity (buses db)) <= 0 ->
      exists fs, get_fleet_status w db = Return fs
                 /\ FleetStatus.occupancy_rate fs = PyInt 0).
Proof.
  unfold get_fleet_status.
  destruct (sum (map Bus.capacity (buses db)) >? 0) eqn:Hpos.
  - apply Z.gtb_lt in Hpos. split; [|lia].
    unfold int_truediv.
    destruct (sum (map Bus.capacity (buses db)) =? 0) eqn:Hz;
      [apply Z.eqb_eq in Hz; lia|].
    destruct (is_inf _); simpl; discriminate.
  - simpl. split; [discriminate|]. intros _. eexists. split; reflexivity.
Qed.

Lemma fleet_status_never_divides_by_zero_witness :
  exists fs, get_fleet_status sample_world (seeded_db []) = Return fs
             /\ FleetStatus.occupancy_rate fs = PyInt 0.
Proof.
  apply (proj2 (fleet_status_never_divides_by_zero sample_world (seeded_db []))).
  vm_compute. discriminate.
Defined.

(** ** Route matching *)

Lemma mem_string_In (x : string) (l : list string) :
  mem_string x l = true <-> In x l.
Proof.
  unfold mem_string. rewrite existsb_exists. split.
  - intros (y & Hy & Heq). apply String.eqb_eq in Heq. now subst.
  - intros H. exists x. split; [exact H|apply String.eqb_refl].
Qed.


(** The Green Line runs Chandni Chowk, Red Fort, Connaught Place, Khan
    Market: it is matched for Khan Market to Chandni Chowk, stops that are
    neither adjacent nor in travel order. *)
Example green_line_matches_reversed_pair :
  map Route.name
    (find_routes_all all_route_docs "stop:Khan Market" "stop:Chandni Chowk")
  = ["Green Line"%string].
Proof. vm_compute. reflexivity. Qed.

(** ** Stop lookup *)

Section StopLookup.

Lemma compile_plain (q : string) :
  plain_query q = true -> regex.compile q = Some (literal q).
Proof.
  induction q as [|c q IH]; [reflexivity|].
  simpl. rewrite !andb_true_iff, !negb_true_iff. intros [[Hm Ha] Hq].
  rewrite (IH Hq).
  assert (Hdot : Ascii.eqb c "."%char = false).
  { destruct (Ascii.eqb c ".") eqn:E; [|reflexivity].
    apply Ascii.eqb_eq in E. subst c. discriminate Hm. }
  rewrite Hdot, Hm, Ha. reflexivity.
Qed.

Lemma match_here_literal (q n : string) :
  regex.match_here (literal q) n = true
  <-> exists mid post, n = (mid ++ post)%string /\ lower mid = lower q.
Proof.
  revert n. induction q as [|c q IH]; intros n; simpl.
  - split; [|reflexivity]. intros _. exists EmptyString, n. split; reflexivity.
  - destruct n as [|d n].
    + split; [discriminate|]. intros (mid & post & Hn & Hl).
      destruct mid; simpl in *; discriminate.
    + rewrite andb_true_iff, Ascii.eqb_eq, IH. split.
      * intros (Hc & mid & post & Hn & Hl). exists (String d mid), post.
        simpl. rewrite Hn, Hl, Hc. split; reflexivity.
      * intros (mid & post & Hn & Hl). destruct mid as [|d' mid]; [discriminate|].
        simpl in Hn, Hl. inversion Hn; subst. inversion Hl.
        split; [congruence|]. exists mid, post. split; [reflexivity|congruence].
Qed.

Lemma search_literal (q n : string) :
  regex.search (literal q) n = true <-> contains_ci n q.
Proof.
  unfold contains_ci. induction n as [|d n IH]; simpl.
  - rewrite orb_false_r, match_here_literal. split.
    + intros (mid & post & Hn & Hl). exists EmptyString, mid, post. now split.
    + intros (pre & mid & post & Hn & Hl). destruct pre; [|discriminate].
      exists mid, post. now split.
  - rewrite orb_true_iff, match_here_literal, IH. split.
    + intros [(mid & post & Hn & Hl)|(pre & mid & post & Hn & Hl)].
      * exists EmptyString, mid, post. now split.
      * exists (String d pre), mid, post. simpl. rewrite Hn. now split.
    + intros (pre & mid & post & Hn & Hl). destruct pre as [|d' pre].
      * left. exists mid, post. now split.
      * right. simpl in Hn. inversion Hn; subst.
        exists pre, mid, post. now split.
Qed.

Lemma first_match_found (atoms : list regex.atom) (coll : list BusStop.t)
  (s : BusStop.t) :
  Forall (fun t => regex.all_ascii7 (BusStop.name t) = true) coll ->
  first_match atoms coll = Return (Some s)
  <-> exists before after,
        coll = before ++ s :: after
        /\ regex.search atoms (BusStop.name s) = true
        /\ Forall (fun t => regex.search atoms (BusStop.name t) = false) before.
Proof.
  induction coll as [|d coll IH]; intros Hascii; simpl.
  - split; [discriminate|]. intros (before & after & H & _).
    destruct before; discriminate.
  - inversion Hascii as [|? ? Hd Hrest]; subst. rewrite Hd.
    destruct (regex.search atoms (BusStop.name d)) eqn:Hs.
    + split.
      * intros H. inversion H; subst. exists [], coll. repeat split; auto.
      * intros (before & after & Hc & Hm & Hb).
        destruct before as [|d' before]; simpl in Hc; inversion Hc; subst.
        -- reflexivity.
        -- inversion Hb; subst. congruence.
    + rewrite (IH Hrest). split.
      * intros (before & after & Hc & Hm & Hb). exists (d :: before), after.
        subst. repeat split; auto.
      * intros (before & after & Hc & Hm & Hb).
        destruct before as [|d' before]; simpl in Hc; inversion Hc; subst.
        -- congruence.
        -- inversion Hb; subst. exists before, after. repeat split; auto.
Qed.

Lemma first_match_none (atoms : list regex.atom) (coll : list BusStop.t) :
  Forall (fun t => regex.all_ascii7 (BusStop.name t) = true) coll ->
  first_match atoms coll = Return None
  <-> Forall (fun t => regex.search atoms (BusStop.name t) = false) coll.
Proof.
  induction coll as [|d coll IH]; intros Hascii; simpl.
  - split; auto.
  - inversion Hascii as [|? ? Hd Hrest]; subst. rewrite Hd.
    destruct (regex.search atoms (BusStop.name d)) eqn:Hs.
    + split; [discriminate|]. intros H. inversion H; subst. congruence.
    + rewrite (IH Hrest). split.
      * intros H. constructor; assumption.
      * intros H. inversion H; assumption.
Qed.

Lemma first_match_total (atoms : list regex.atom) (coll : list BusStop.t) :
  Forall (fun t => regex.all_ascii7 (BusStop.name t) = true) coll ->
  exists r, first_match atoms coll = Return r.
Proof.
  induction coll as [|d coll IH]; intros Hascii; simpl.
  - now exists None.
  - inversion Hascii as [|? ? Hd Hrest]; subst. rewrite Hd.
    destruct (regex.search atoms (BusStop.name d)); [now eexists|auto].
Qed.

Lemma search_false_iff (q n : string) :
  regex.search (literal q) n = false <-> ~ contains_ci n q.
Proof.
  rewrite <- search_literal. destruct (regex.search (literal q) n); split;
    intros H; congruence.
Qed.

End StopLookup.

(** X19.  For every query made of ordinary 7-bit ASCII characters (no regular
    expression metacharacter), over a catalog of ASCII names, the lookup
    returns: it yields stop [s] exactly when [s] is the first stop whose name
    contains the query case-insensitively, and yields no stop exactly when no
    name contains it. *)
Theorem find_stop_by_name_plain_query (coll : list BusStop.t) (q : string) :
  plain_query q = true ->
  Forall (fun t => regex.all_ascii7 (BusStop.name t) = true) coll ->
  (exists r, find_one_name_regex coll q = Return r)
  /\ (forall s, find_one_name_regex coll q = Return (Some s)
                <-> first_containing coll q s)
  /\ (find_one_name_regex coll q = Return None
      <-> Forall (fun t => ~ contains_ci (BusStop.name t) q) coll).
Proof.
  intros Hq Hascii. unfold find_one_name_regex. rewrite (compile_plain q Hq).
  split; [apply first_match_total; exact Hascii|]. split.
  - intros s. rewrite (first_match_found _ _ _ Hascii). unfold first_containing.
    split; intros (before & after & Hc & Hm & Hb); exists before, after;
      (split; [exact Hc|]); split.
    + now apply search_literal.
    + eapply Forall_impl; [|exact Hb]. intros t. apply search_false_iff.
    + now apply search_literal.
    + eapply Forall_impl; [|exact Hb]. intros t. apply search_false_iff.
  - rewrite (first_match_none _ _ Hascii). split; intros H;
      (eapply Forall_impl; [|exact H]); intros t; apply search_false_iff.
Qed.

Lemma all_stop_docs_ascii :
  Forall (fun t => regex.all_ascii7 (BusStop.name t) = true) all_stop_docs.
Proof. repeat constructor. Qed.

Lemma find_stop_by_name_plain_query_witness :
  first_containing all_stop_docs "red fort" red_fort_doc
  /\ first_containing all_stop_docs "Fort" red_fort_doc
  /\ Forall (fun t => ~ contains_ci (BusStop.name t) "NoSuchStop") all_stop_docs.
Proof.
  split; [|split].
  - apply (proj1 (proj2 (find_stop_by_name_plain_query all_stop_docs "red fort"
                           eq_refl all_stop_docs_ascii))).
    vm_compute. reflexivity.
  - apply (proj1 (proj2 (find_stop_by_name_plain_query all_stop_docs "Fort"
                           eq_refl all_stop_docs_ascii))).
    vm_compute. reflexivity.
  - apply (proj2 (proj2 (find_stop_by_name_plain_query all_stop_docs "NoSuchStop"
                           eq_refl all_stop_docs_ascii))).
    vm_compute. reflexivity.
Defined.

(** C4.  The lookup hands the query to the database as a regular
    expression, unescaped.  The query ["."] is a substring of no stop name,
    yet the lookup returns Red Fort, which is not a stop containing it, and
    [find_buses] answers with the bus for Red Fort; so does the query
    ["Red.Fort"]. *)
Lemma find_stop_by_name_dot_matches_any :
  find_one_name_regex all_stop_docs "." = Return (Some red_fort_doc)
  /\ Forall (fun t => ~ contains_ci (BusStop.name t) ".") all_stop_docs
  /\ ~ first_containing all_stop_docs "." red_fort_doc
  /\ find_buses small_angle_libm sample_world (seeded_db red_fort_fleet)
       (query "." "India Gate") = Return red_fort_results
  /\ find_one_name_regex all_stop_docs "Red.Fort" = Return (Some red_fort_doc)
  /\ Forall (fun t => ~ contains_ci (BusStop.name t) "Red.Fort") all_stop_docs.
Proof.
  split; [vm_compute; reflexivity|].
  assert (Hnone : forall q,
             forallb (fun t => negb (regex.search (literal q) (BusStop.name t)))
               all_stop_docs = true ->
             Forall (fun t => ~ contains_ci (BusStop.name t) q) all_stop_docs).
  { intros q Hq. apply Forall_forall. intros t Hin. apply search_false_iff.
    rewrite forallb_forall in Hq. specialize (Hq t Hin).
    now apply negb_true_iff in Hq. }
  assert (Hdot : Forall (fun t => ~ contains_ci (BusStop.name t) ".") all_stop_docs)
    by (apply Hnone; vm_compute; reflexivity).
  split; [exact Hdot|]. split.
  - intros (before & after & Hc & Hm & _).
    rewrite Forall_forall in Hdot. apply (Hdot red_fort_doc); [|exact Hm].
    vm_compute. left. reflexivity.
  - split; [vm_compute; reflexivity|]. split; [vm_compute; reflexivity|].
    apply Hnone. vm_compute. reflexivity.
Qed.

(** ** Unresolved stops *)

(** C1 (the code departs from it).  When either name resolves to no stop,
    the [HTTPException] with status 404 raised inside the [try] block is
    caught by [except Exception] and replaced: the caller receives status
    500, "Error finding buses". *)
Theorem find_buses_unresolved_stop_surfaces_500
  (M : libm) (w : world) (db : database) (q : BusQuery.t)
  (f t : option BusStop.t) :
  find_one_name_regex (bus_stops db) (BusQuery.from_stop q) = Return f ->
  find_one_name_regex (bus_stops db) (BusQuery.to_stop q) = Return t ->
  f = None \/ t = None ->
  find_buses M w db q = Raise (HTTPException 500 "Error finding buses").
Proof.
  intros Hf Ht Hnone. unfold find_buses, collect_results.
  rewrite Hf, Ht. simpl.
  destruct Hnone; subst; [reflexivity|]. destruct f; reflexivity.
Qed.

(** Whatever goes wrong inside the [try] block, the caller only ever sees
    the status 500. *)
Lemma find_buses_raises_only_500
  (M : libm) (w : world) (db : database) (q : BusQuery.t) (e : exn) :
  find_buses M w db q = Raise e ->
  e = HTTPException 500 "Error finding buses".
Proof.
  unfold find_buses.
  destruct (collect_results M w db q) as [rs|e'|]; simpl; intros H;
    inversion H; reflexivity.
Qed.

(** Two stops that resolve but share no route: an empty success. *)
Example find_buses_no_common_route :
  find_buses small_angle_libm sample_world (seeded_db red_fort_fleet)
    (query "Red Fort" "Dwarka") = Return [].
Proof. vm_compute. reflexivity. Qed.

Lemma find_buses_unresolved_stop_surfaces_500_witness :
  find_buses small_angle_libm sample_world (seeded_db red_fort_fleet)
    (query "NoSuchStop" "AlsoMissing")
  = Raise (HTTPException 500 "Error finding buses").
Proof.
  apply (find_buses_unresolved_stop_surfaces_500 _ _ _ _ None None);
    [vm_compute; reflexivity | vm_compute; reflexivity | left; reflexivity].
Defined.

(** ** Ordering of the results *)

Section Ordering.

Lemma insert_by_eta_perm (r : BusQueryResponse.t) (l : list BusQueryResponse.t) :
  Permutation (r :: l) (insert_by_eta r l).
Proof.
  induction l as [|x l IH]; simpl; [reflexivity|].
  destruct (BusQueryResponse.eta_minutes r <=? BusQueryResponse.eta_minutes x).
  - reflexivity.
  - rewrite perm_swap. now apply perm_skip.
Qed.

Lemma sort_by_eta_perm (l : list BusQueryResponse.t) :
  Permutation l (sort_by_eta l).
Proof.
  induction l as [|x l IH]; simpl; [reflexivity|].
  rewrite <- insert_by_eta_perm. now apply perm_skip.
Qed.

Lemma insert_by_eta_sorted (r : BusQueryResponse.t) (l : list BusQueryResponse.t) :
  StronglySorted eta_le l -> StronglySorted eta_le (insert_by_eta r l).
Proof.
  induction l as [|x l IH]; simpl; intros Hs.
  - repeat constructor.
  - inversion Hs as [|? ? Hl Hx]; subst.
    destruct (BusQueryResponse.eta_minutes r <=? BusQueryResponse.eta_minutes x)
      eqn:Hle.
    + apply Z.leb_le in Hle. constructor; [exact Hs|].
      constructor; [exact Hle|].
      eapply Forall_impl; [|exact Hx]. unfold eta_le. intros y Hy. lia.
    + apply Z.leb_gt in Hle. constructor; [now apply IH|].
      apply (Permutation_Forall (insert_by_eta_perm r l)).
      constructor; [unfold eta_le; lia|exact Hx].
Qed.

Lemma sort_by_eta_sorted (l : list BusQueryResponse.t) :
  StronglySorted eta_le (sort_by_eta l).
Proof.
  induction l as [|x l IH]; simpl; [constructor|].
  now apply insert_by_eta_sorted.
Qed.

Lemma insert_by_eta_stable (v : Z) (r : BusQueryResponse.t)
  (l : list BusQueryResponse.t) :
  filter (has_eta v) (insert_by_eta r l) = filter (has_eta v) (r :: l).
Proof.
  induction l as [|x l IH]; [reflexivity|].
  simpl insert_by_eta.
  destruct (BusQueryResponse.eta_minutes r <=? BusQueryResponse.eta_minutes x)
    eqn:Hle; [reflexivity|].
  apply Z.leb_gt in Hle. simpl filter at 1. rewrite IH. simpl. unfold has_eta.
  destruct (BusQueryResponse.eta_minutes x =? v) eqn:Hx;
    destruct (BusQueryResponse.eta_minutes r =? v) eqn:Hr; try reflexivity.
  apply Z.eqb_eq in Hx, Hr. lia.
Qed.

Lemma sort_by_eta_stable (v : Z) (l : list BusQueryResponse.t) :
  filter (has_eta v) (sort_by_eta l) = filter (has_eta v) l.
Proof.
  induction l as [|x l IH]; [reflexivity|].
  simpl sort_by_eta. rewrite insert_by_eta_stable. simpl. now rewrite IH.
Qed.

Lemma find_buses_returns (M : libm) (w : world) (db : database)
  (q : BusQuery.t) (rs : list BusQueryResponse.t) :
  find_buses M w db q = Return rs ->
  exists collected,
    collect_results M w db q = Return collected /\ rs = sort_by_eta collected.
Proof.
  unfold find_buses.
  destruct (collect_results M w db q) as [collected|e|]; simpl; intros H;
    inversion H. now exists collected.
Qed.

End Ordering.

(** C3 (amended).  Whenever [find_buses] returns, the results are a
    rearrangement of the collected (route, bus) results that is sorted
    non-decreasing by [eta_minutes], and results with equal [eta_minutes]
    keep the order in which they were collected (route order, then the
    collection's order of buses); bus identity plays no part. *)
Theorem find_buses_sorted_by_eta_stable
  (M : libm) (w : world) (db : database) (q : BusQuery.t)
  (rs : list BusQueryResponse.t) :
  find_buses M w db q = Return rs ->
  exists collected,
    collect_results M w db q = Return collected
    /\ Permutation collected rs
    /\ StronglySorted eta_le rs
    /\ forall v, filter (has_eta v) rs = filter (has_eta v) collected.
Proof.
  intros H. destruct (find_buses_returns M w db q rs H) as (collected & Hc & ->).
  exists collected. split; [exact Hc|]. split; [apply sort_by_eta_perm|].
  split; [apply sort_by_eta_sorted|]. intros v. apply sort_by_eta_stable.
Qed.

Lemma find_buses_sorted_by_eta_stable_witness :
  exists collected,
    collect_results small_angle_libm sample_world (seeded_db crowded_fleet)
      (query "Red Fort" "India Gate") = Return collected
    /\ Permutation collected crowded_results
    /\ StronglySorted eta_le crowded_results
    /\ forall v, filter (has_eta v) crowded_results = filter (has_eta v) collected.
Proof.
  apply (find_buses_sorted_by_eta_stable small_angle_libm sample_world
           (seeded_db crowded_fleet) (query "Red Fort" "India Gate")).
  vm_compute. reflexivity.
Defined.

(** C3 as stated fails on ties: two buses with equal [eta_minutes] come
    back in collection order, here bus-9 (DL-09) before bus-1 (DL-01). *)
Lemma find_buses_tie_not_ordered_by_bus_identity :
  find_buses small_angle_libm flat_world (seeded_db tie_fleet)
    (query "Red Fort" "India Gate") = Return tie_results
  /\ map BusQueryResponse.eta_minutes tie_results = [2; 2]
  /\ map BusQueryResponse.bus_number tie_results = ["DL-09"; "DL-01"]%string
  /\ map Bus.id tie_fleet = ["bus-9"; "bus-1"]%string
  /\ String.ltb "DL-01" "DL-09" = true
  /\ String.ltb "bus-1" "bus-9" = true.
Proof. vm_compute. repeat split; reflexivity. Qed.

(** ** Provenance of the results *)

Section Provenance.

Lemma for_each_invariant {A S : Type} (P : S -> Prop) (Q : A -> Prop)
  (body : A -> S -> outcome S) (l : list A) :
  (forall x s s', Q x -> P s -> body x s = Return s' -> P s') ->
  Forall Q l ->
  forall s s', P s -> for_each l body s = Return s' -> P s'.
Proof.
  intros Hbody HQ. induction HQ as [|x l Hx Hl IH]; intros s s' Hs; simpl.
  - intros H. inversion H; subst. exact Hs.
  - destruct (body x s) as [s1|e|] eqn:Hb; simpl; try discriminate.
    apply IH. eapply Hbody; eassumption.
Qed.

Lemma Return_inj {A : Type} (a b : A) : Return a = Return b -> a = b.
Proof. intros H. now inversion H. Qed.

Lemma float_truediv_positive (x y : float) :
  is_positive y = true -> float_truediv x y = Return (fdiv x y).
Proof. destruct y as [| | |[] m e]; try discriminate. reflexivity. Qed.

Lemma bus_result_inv (M : libm) (w : world) (from_stop : BusStop.t)
  (route : Route.t) (bus : Bus.t) (results : list BusQueryResponse.t) (k : nat)
  (st' : list BusQueryResponse.t * nat) :
  bus_result M w from_stop route bus (results, k) = Return st' ->
  exists r, st' = (results ++ [r], S k) /\ produced M w from_stop route bus k r.
Proof.
  unfold bus_result.
  destruct (calculate_distance M _ _ _ _) as [d|e|] eqn:Hd; cbn [bind];
    try discriminate.
  rewrite float_truediv_positive by reflexivity. cbn [bind].
  destruct (py_int (fmul (fdiv d (of_int 20)) (of_int 60))) as [whole|e|] eqn:Hw;
    cbn [bind]; try discriminate.
  destruct (int_truediv _ _) as [ratio|e|] eqn:Hr; cbn [bind]; try discriminate.
  destruct (py_int (fmul ratio (of_int 100))) as [pct|e|] eqn:Hp;
    cbn [bind]; try discriminate.
  destruct (plus_minutes _ _) as [arrival|e|] eqn:Ha; cbn [bind]; try discriminate.
  intros H. apply Return_inj in H. subst st'. eexists. split; [reflexivity|].
  unfold produced.
  unfold BusQueryResponse.eta_minutes, BusQueryResponse.occupancy_percentage,
    BusQueryResponse.available_seats, BusQueryResponse.next_arrival,
    BusQueryResponse.bus_number, BusQueryResponse.route_name.
  exists d, ratio, arrival.
  replace (whole + randint w k 2 8 - randint w k 2 8) with whole by lia.
  repeat split; first [assumption | reflexivity].
Qed.

Lemma collect_results_provenance (M : libm) (w : world) (db : database)
  (q : BusQuery.t) (rs : list BusQueryResponse.t) :
  collect_results M w db q = Return rs ->
  exists from_stop to_stop,
    find_one_name_regex (bus_stops db) (BusQuery.from_stop q)
    = Return (Some from_stop)
    /\ find_one_name_regex (bus_stops db) (BusQuery.to_stop q)
       = Return (Some to_stop)
    /\ Forall (result_of M w db from_stop to_stop) rs.
Proof.
  unfold collect_results.
  destruct (find_one_name_regex _ (BusQuery.from_stop q)) as [[f|]|e|] eqn:Hf;
    cbn [bind]; try discriminate;
    destruct (find_one_name_regex _ (BusQuery.to_stop q)) as [[t|]|e|] eqn:Ht;
    cbn [bind]; try discriminate.
  destruct (for_each _ _ _) as [st|e|] eqn:Hloop; cbn [bind]; try discriminate.
  intros H. inversion H; subst. exists f, t. repeat split.
  set (P := fun st : list BusQueryResponse.t * nat =>
              Forall (result_of M w db f t) (fst st)).
  change (P st).
  eapply (for_each_invariant P
            (fun route => In route (find_routes_all (routes db) (BusStop.id f)
                                      (BusStop.id t))));
    [ | apply Forall_forall; intros route Hroute; exact Hroute
      | | exact Hloop ]; [|constructor].
  intros route s s' Hroute Hs Hrun. unfold route_results in Hrun.
  eapply (for_each_invariant P
            (fun bus => In bus (find_buses_on_route (buses db) (Route.id route))));
    [ | apply Forall_forall; intros bus Hbus; exact Hbus | exact Hs | exact Hrun ].
  intros bus [results k] s1 Hbus Hs0 Hstep.
  destruct (bus_result_inv _ _ _ _ _ _ _ _ Hstep) as (r & -> & Hprod).
  unfold P in *. cbn [fst] in *. apply Forall_app. split; [exact Hs0|].
  constructor; [|constructor]. exists route, bus, k. now repeat split.
Qed.

Lemma find_buses_provenance (M : libm) (w : world) (db : database)
  (q : BusQuery.t) (rs : list BusQueryResponse.t) :
  find_buses M w db q = Return rs ->
  exists from_stop to_stop,
    find_one_name_regex (bus_stops db) (BusQuery.from_stop q)
    = Return (Some from_stop)
    /\ find_one_name_regex (bus_stops db) (BusQuery.to_stop q)
       = Return (Some to_stop)
    /\ Forall (result_of M w db from_stop to_stop) rs.
Proof.
  intros H. destruct (find_buses_returns M w db q rs H) as (collected & Hc & ->).
  destruct (collect_results_provenance M w db q collected Hc)
    as (f & t & Hf & Ht & Hall).
  exists f, t. repeat split; try assumption.
  apply (Permutation_Forall (sort_by_eta_perm collected)). exact Hall.
Qed.

Lemma py_int_inv (x : float) (n : Z) :
  py_int x = Return n -> is_finite x = true /\ n = trunc x.
Proof.
  destruct x; simpl; intros H; inversion H; split; reflexivity.
Qed.

Lemma find_buses_on_route_In (coll : list Bus.t) (rid : string) (bus : Bus.t) :
  In bus (find_buses_on_route coll rid)
  <-> In bus coll /\ Bus.route_id bus = rid /\ is_active bus = true.
Proof.
  unfold find_buses_on_route, is_active.
  rewrite filter_In, andb_true_iff, String.eqb_eq. tauto.
Qed.

End Provenance.

(** C2 (amended).  Every result of [find_buses] stems from an active bus
    of the fleet: its [occupancy_percentage] is the double
    [occupancy / capacity] times 100, truncated toward zero, and its
    [available_seats] is [capacity - occupancy]; 39 of 40 and 5 of 40 give
    97 and 12. *)
Theorem find_buses_occupancy_fields
  (M : libm) (w : world) (db : database) (q : BusQuery.t)
  (rs : list BusQueryResponse.t) :
  find_buses M w db q = Return rs ->
  Forall (fun r =>
            exists bus : Bus.t,
              In bus (buses db) /\ is_active bus = true
              /\ BusQueryResponse.bus_number r = Bus.bus_number bus
              /\ percent_of (Bus.current_occupancy bus) (Bus.capacity bus)
                 = Return (BusQueryResponse.occupancy_percentage r)
              /\ BusQueryResponse.available_seats r
                 = Bus.capacity bus - Bus.current_occupancy bus) rs
  /\ percent_of 39 40 = Return 97
  /\ percent_of 5 40 = Return 12.
Proof.
  intros H. split; [|split; vm_compute; reflexivity].
  destruct (find_buses_provenance M w db q rs H) as (f & t & _ & _ & Hall).
  eapply Forall_impl; [|exact Hall].
  intros r (route & bus & k & _ & Hbus & Hprod).
  apply find_buses_on_route_In in Hbus. destruct Hbus as (Hin & _ & Hactive).
  destruct Hprod
    as (d & ratio & arrival & _ & _ & Hratio & Hpct & Hseats & _ & _ & Hnum & _).
  exists bus. unfold percent_of. rewrite Hratio. cbn [bind].
  repeat split; assumption.
Qed.

Lemma find_buses_occupancy_fields_witness :
  Forall (fun r =>
            exists bus : Bus.t,
              In bus crowded_fleet /\ is_active bus = true
              /\ BusQueryResponse.bus_number r = Bus.bus_number bus
              /\ percent_of (Bus.current_occupancy bus) (Bus.capacity bus)
                 = Return (BusQueryResponse.occupancy_percentage r)
              /\ BusQueryResponse.available_seats r
                 = Bus.capacity bus - Bus.current_occupancy bus) crowded_results.
Proof.
  apply (find_buses_occupancy_fields small_angle_libm sample_world
           (seeded_db crowded_fleet) (query "Red Fort" "India Gate")).
  vm_compute. reflexivity.
Defined.

(** C2 as stated fails: for two buses on the Red Line with occupancy 39/40
    and 5/40 the results carry 97 and 12, where rounding gives 98 and 13. *)
Lemma find_buses_occupancy_is_truncated :
  find_buses small_angle_libm sample_world (seeded_db crowded_fleet)
    (query "Red Fort" "India Gate") = Return crowded_results
  /\ map BusQueryResponse.occupancy_percentage crowded_results = [97; 12]
  /\ map (fun b => round_half_up_percent (Bus.current_occupancy b) (Bus.capacity b))
       crowded_fleet = [98; 13].
Proof. vm_compute. repeat split; reflexivity. Qed.

(** For the capacities of actual buses the double arithmetic stays within
    one of the exact quotient: the percentage is [100 * occupancy / capacity]
    rounded down, or one less (29 of 100 gives 28). *)
Lemma percent_of_small_capacity (occupancy capacity : Z) :
  1 <= capacity <= 120 -> 0 <= occupancy <= capacity ->
  percent_near_floor occupancy capacity = true.
Proof.
  intros Hc Ho.
  assert (Hall : forallb (fun c => forallb (fun o =>
                    percent_near_floor (Z.of_nat o) (Z.of_nat c))
                    (seq 0 (S c))) (seq 1 120) = true)
    by (vm_compute; reflexivity).
  rewrite forallb_forall in Hall.
  specialize (Hall (Z.to_nat capacity)).
  rewrite in_seq, forallb_forall in Hall.
  specialize (Hall ltac:(lia) (Z.to_nat occupancy)).
  rewrite in_seq, !Z2Nat.id in Hall by lia.
  apply Hall. lia.
Qed.

Example percent_of_29_100 : percent_of 29 100 = Return 28.
Proof. vm_compute. reflexivity. Qed.

(** ** Distance *)

Section Distance.

Variable M : libm.

Lemma math_1_inv (f : float -> float) (x r : float) :
  math.math_1 f x = Return r -> r = f x.
Proof.
  unfold math.math_1.
  destruct (is_nan (f x) && negb (is_nan x)); [discriminate|].
  destruct (is_inf (f x) && is_finite x); [discriminate|].
  intros H. now apply Return_inj in H.
Qed.

Lemma math_1_cases (f : float -> float) (x : float) :
  math.math_1 f x = Return (f x) \/ math.math_1 f x = Raise ValueError.
Proof.
  unfold math.math_1.
  destruct (is_nan (f x) && negb (is_nan x)); [now right|].
  destruct (is_inf (f x) && is_finite x); [now right|now left].
Qed.

Lemma math_1_fneg (f : float -> float) (x : float) :
  (forall y, f (fneg y) = fneg (f y)) ->
  math.math_1 f (fneg x)
  = match math.math_1 f x with
    | Return r => Return (fneg r)
    | other => other
    end.
Proof.
  intros Hodd. unfold math.math_1. rewrite Hodd.
  replace (is_nan (fneg (f x))) with (is_nan (f x)) by (destruct (f x); reflexivity).
  replace (is_inf (fneg (f x))) with (is_inf (f x)) by (destruct (f x); reflexivity).
  replace (is_nan (fneg x)) with (is_nan x) by (destruct x; reflexivity).
  replace (is_finite (fneg x)) with (is_finite x) by (destruct x; reflexivity).
  destruct (is_nan (f x) && negb (is_nan x)); [reflexivity|].
  destruct (is_inf (f x) && is_finite x); reflexivity.
Qed.

Lemma math_2_inv (f : float -> float -> float) (x y r : float) :
  math.math_2 f x y = Return r -> r = f x y.
Proof.
  unfold math.math_2.
  destruct (is_nan (f x y)).
  - destruct (negb (is_nan x) && negb (is_nan y)); [discriminate|].
    intros H. now apply Return_inj in H.
  - destruct (is_inf (f x y)).
    + destruct (is_finite x && is_finite y); [discriminate|].
      intros H. now apply Return_inj in H.
    + intros H. now apply Return_inj in H.
Qed.

(** [calculate_distance] with the repeated calls shared. *)
Lemma calculate_distance_shared (lat1 lng1 lat2 lng2 : float) :
  calculate_distance M lat1 lng1 lat2 lng2
  = (s <- math.sin M (half_angle (fsub lat2 lat1)) ;;
     c1 <- math.cos M (math.radians lat1) ;;
     c2 <- math.cos M (math.radians lat2) ;;
     t <- math.sin M (half_angle (fsub lng2 lng1)) ;;
     central_distance M (haversine_a s c1 c2 t)).
Proof.
  unfold calculate_distance, central_distance, haversine_a, half_angle.
  rewrite !float_truediv_positive by reflexivity. cbn [bind].
  destruct (math.sin M _) as [s| |]; cbn [bind]; try reflexivity.
  destruct (math.cos M (math.radians lat1)) as [c1| |]; cbn [bind];
    try reflexivity.
  destruct (math.cos M (math.radians lat2)) as [c2| |]; cbn [bind];
    try reflexivity.
  destruct (math.sin M _) as [t| |]; cbn [bind]; reflexivity.
Qed.

Lemma fmul_fneg_r (x y : float) : fmul x (fneg y) = fneg (fmul x y).
Proof. now rewrite (fmul_comm x (fneg y)), fmul_fneg_l, (fmul_comm y x). Qed.

Lemma haversine_a_fneg_s (s c1 c2 t : float) :
  haversine_a (fneg s) c1 c2 t = haversine_a s c1 c2 t.
Proof. unfold haversine_a. now rewrite fmul_fneg_fneg. Qed.

Lemma haversine_a_fneg_t (s c1 c2 t : float) :
  haversine_a s c1 c2 (fneg t) = haversine_a s c1 c2 t.
Proof.
  unfold haversine_a. now rewrite !fmul_fneg_r, fmul_fneg_l, fneg_involutive.
Qed.

Lemma haversine_a_swap (s c1 c2 t : float) :
  haversine_a s c1 c2 t = haversine_a s c2 c1 t.
Proof. unfold haversine_a. now rewrite (fmul_comm c1 c2). Qed.

Lemma half_angle_fneg (x : float) : half_angle (fneg x) = fneg (half_angle x).
Proof. unfold half_angle, math.radians. now rewrite fmul_fneg_l, fdiv_fneg_l. Qed.

(** A sine whose result is only used through an even continuation may have
    its argument negated. *)
Lemma bind_sin_even {B : Type} (x x' : float) (k : float -> outcome B) :
  (forall y, c_sin M (fneg y) = fneg (c_sin M y)) ->
  (forall r, k (fneg r) = k r) ->
  x' = fneg x \/ x' = x ->
  bind (math.sin M x') k = bind (math.sin M x) k.
Proof.
  intros Hodd Heven [->| ->]; [|reflexivity].
  unfold math.sin. rewrite (math_1_fneg _ _ Hodd).
  destruct (math.math_1 (c_sin M) x); cbn [bind]; auto.
Qed.

Lemma half_angle_difference (a b : float) :
  half_angle (fsub a b) = fneg (half_angle (fsub b a))
  \/ half_angle (fsub a b) = half_angle (fsub b a).
Proof.
  destruct (fsub_antisym b a) as [H|[H1 H2]].
  - left. rewrite H. apply half_angle_fneg.
  - right. now rewrite H1, H2.
Qed.

Lemma calculate_distance_swap (lat1 lng1 lat2 lng2 : float) :
  (forall y, c_sin M (fneg y) = fneg (c_sin M y)) ->
  calculate_distance M lat1 lng1 lat2 lng2
  = calculate_distance M lat2 lng2 lat1 lng1.
Proof.
  intros Hodd. rewrite !calculate_distance_shared.
  rewrite (bind_sin_even (half_angle (fsub lat1 lat2)) (half_angle (fsub lat2 lat1)));
    [ | exact Hodd | | apply half_angle_difference ].
  - destruct (math.sin M (half_angle (fsub lat1 lat2))) as [s| |]; cbn [bind];
      try reflexivity.
    unfold math.cos.
    destruct (math_1_cases (c_cos M) (math.radians lat1)) as [E1|E1],
             (math_1_cases (c_cos M) (math.radians lat2)) as [E2|E2];
      rewrite E1, E2; cbn [bind]; try reflexivity.
    rewrite (bind_sin_even (half_angle (fsub lng1 lng2))
               (half_angle (fsub lng2 lng1)));
      [ | exact Hodd | | apply half_angle_difference ].
    + destruct (math.sin M (half_angle (fsub lng1 lng2))) as [t| |]; cbn [bind];
        try reflexivity.
      now rewrite haversine_a_swap.
    + intros r. now rewrite haversine_a_fneg_t.
  - intros r.
    destruct (math.cos M (math.radians lat1)) as [c1| |]; cbn [bind];
      try reflexivity.
    destruct (math.cos M (math.radians lat2)) as [c2| |]; cbn [bind];
      try reflexivity.
    destruct (math.sin M (half_angle (fsub lng2 lng1))) as [t| |]; cbn [bind];
      try reflexivity.
    now rewrite haversine_a_fneg_s.
Qed.

Lemma binary_round_aux_sign_bit (m e : Z) (l : location) :
  sign_bit (binary_round_aux prec emax false m e l) = false.
Proof.
  unfold binary_round_aux.
  destruct (shr_fexp prec emax m e l) as [mrs1 e1].
  destruct (shr_fexp prec emax _ e1 loc_Exact) as [mrs2 e2].
  destruct (shr_m mrs2); try reflexivity.
  destruct (e2 <=? emax - prec); reflexivity.
Qed.

Lemma fmul_self_sign_bit (c : float) : sign_bit (fmul c c) = false.
Proof.
  destruct c as [s|s| |s m e]; simpl; rewrite ?xorb_nilpotent; try reflexivity.
  apply binary_round_aux_sign_bit.
Qed.

Lemma fmul_self_times_zero (c : float) :
  abs_lt_pow2 1 c = true -> fmul (fmul (fmul c c) pzero) pzero = pzero.
Proof.
  intros Hc.
  pose proof (fmul_finite 1 1 c c Hc Hc ltac:(lia)) as Hfin.
  pose proof (fmul_self_sign_bit c) as Hsign.
  destruct (fmul c c) as [s|s| |s m e]; try discriminate;
    simpl in Hsign; subst s; reflexivity.
Qed.

Lemma finite_double_finite (x : float) :
  finite_double x = true -> is_finite x = true.
Proof. unfold finite_double. now rewrite andb_true_iff. Qed.

(** Converting a finite double to radians cannot overflow. *)
Lemma radians_finite (x : float) :
  finite_double x = true -> is_finite (math.radians x) = true.
Proof.
  unfold finite_double, valid, math.radians.
  change math.degToRad with (S754_finite false 5030569068109113 (-58)).
  destruct x as [s|s| |s m e]; try discriminate; [reflexivity|].
  cbn [is_finite valid_binary andb]. unfold bounded, canonical_mantissa.
  rewrite andb_true_iff, Z.eqb_eq, Z.leb_le. unfold fexp, emin, emax, prec.
  intros [Hc He]. cbn [fmul SFmul].
  pose proof (Zdigits2_gt (Z.pos m) ltac:(lia)) as Hm. simpl Zdigits2 in Hm.
  apply binary_round_aux_finite; try lia.
  assert (Zdigits2 (Z.pos (m * 5030569068109113))
          <= Z.pos (digits2_pos m) + 53).
  { apply Zdigits2_le; try lia.
    rewrite Pos2Z.inj_mul, (Z.pow_add_r 2 (Z.pos (digits2_pos m)) 53) by lia.
    assert (Z.pos 5030569068109113 < 2 ^ 53) by reflexivity. nia. }
  lia.
Qed.

Lemma math_cos_returns (x : float) :
  libm_ok M -> is_finite x = true ->
  exists c, math.cos M x = Return c /\ abs_lt_pow2 1 c = true.
Proof.
  intros HM Hx. exists (c_cos M x).
  pose proof (cos_range M HM x Hx) as Hc. split; [|exact Hc].
  unfold math.cos, math.math_1.
  destruct (c_cos M x); try discriminate; reflexivity.
Qed.

Lemma math_sin_zero : libm_ok M -> math.sin M pzero = Return pzero.
Proof.
  intros HM. unfold math.sin, math.math_1. rewrite (sin_zero M HM). reflexivity.
Qed.

(** The distance from a point to itself is [+0]. *)
Lemma calculate_distance_same_point (lat lng : float) :
  libm_ok M -> finite_double lat = true -> finite_double lng = true ->
  calculate_distance M lat lng lat lng = Return pzero.
Proof.
  intros HM Hlat Hlng. rewrite calculate_distance_shared.
  rewrite !fsub_diag by (apply finite_double_finite; assumption).
  change (half_angle pzero) with pzero.
  rewrite (math_sin_zero HM). cbn [bind].
  destruct (math_cos_returns (math.radians lat) HM (radians_finite lat Hlat))
    as (c & -> & Hc).
  cbn [bind]. unfold haversine_a. rewrite (fmul_self_times_zero c Hc).
  reflexivity.
Qed.

Lemma fsqrt_nzero (a : float) : fsqrt a = nzero -> a = nzero.
Proof.
  destruct a as [s|s| |s m e]; simpl; try discriminate.
  - intros H. exact H.
  - destruct s; discriminate.
  - destruct s; [discriminate|].
    destruct (SFsqrt_core_binary prec emax (Z.pos m) e) as [[mz ez] lz].
    intros H. pose proof (binary_round_aux_sign_bit mz ez lz) as Hs.
    rewrite H in Hs. discriminate.
Qed.

Lemma m_atan2_not_negative (y x : float) :
  libm_ok M ->
  not_negative y = true -> not_negative x = true ->
  (y = nzero -> sign_bit x = false) ->
  not_negative (math.m_atan2 M y x) = true.
Proof.
  intros HM Hy Hx Hyx. unfold math.m_atan2.
  destruct y as [[]|[]| |[] my ey]; try discriminate Hy;
    destruct x as [[]|[]| |[] mx ex]; try discriminate Hx;
    try (specialize (Hyx eq_refl); discriminate Hyx);
    try (vm_compute; reflexivity);
    apply (atan2_quadrant M HM); reflexivity.
Qed.

Lemma central_distance_not_negative (a d : float) :
  libm_ok M -> central_distance M a = Return d -> not_negative d = true.
Proof.
  intros HM. unfold central_distance.
  destruct (math.sqrt a) as [y| |] eqn:Hy; cbn [bind]; try discriminate.
  destruct (math.sqrt (fsub (of_int 1) a)) as [x| |] eqn:Hx; cbn [bind];
    try discriminate.
  destruct (math.atan2 M y x) as [r| |] eqn:Hr; cbn [bind]; try discriminate.
  intros H. apply Return_inj in H. subst d.
  apply math_1_inv in Hy, Hx. apply math_2_inv in Hr.
  apply fmul_not_negative; [reflexivity|].
  apply fmul_not_negative; [reflexivity|].
  subst r. apply m_atan2_not_negative; try exact HM.
  - subst y. apply fsqrt_not_negative.
  - subst x. apply fsqrt_not_negative.
  - intros Hz. subst y. apply fsqrt_nzero in Hz. subst a x. reflexivity.
Qed.

Lemma calculate_distance_not_negative (lat1 lng1 lat2 lng2 d : float) :
  libm_ok M ->
  calculate_distance M lat1 lng1 lat2 lng2 = Return d ->
  not_negative d = true.
Proof.
  intros HM. rewrite calculate_distance_shared.
  destruct (math.sin M _) as [s| |]; cbn [bind]; try discriminate.
  destruct (math.cos M (math.radians lat1)) as [c1| |]; cbn [bind];
    try discriminate.
  destruct (math.cos M (math.radians lat2)) as [c2| |]; cbn [bind];
    try discriminate.
  destruct (math.sin M _) as [t| |]; cbn [bind]; try discriminate.
  apply central_distance_not_negative. exact HM.
Qed.

Lemma feqb_refl (x : float) : is_nan x = false -> feqb x x = true.
Proof.
  destruct x as [s|s| |s m e]; simpl; try discriminate; intros _;
    unfold feqb, SFeqb; simpl.
  - reflexivity.
  - destruct s; reflexivity.
  - destruct s; rewrite Z.compare_refl, Pos.compare_cont_refl; reflexivity.
Qed.

End Distance.

Lemma small_angle_libm_ok : libm_ok small_angle_libm.
Proof.
  constructor; simpl.
  - reflexivity.
  - reflexivity.
  - intros x _. reflexivity.
  - intros y x Hy _ _. destruct y as [| | |[] m e]; try discriminate. reflexivity.
Qed.



(** ** Estimated time of arrival *)

Lemma randint_bounds (w : world) (k : nat) : 2 <= randint w k 2 8 <= 8.
Proof.
  unfold randint. pose proof (Z.mod_pos_bound (entropy w k) (8 - 2 + 1)). lia.
Qed.

(** What [calculate_distance] returns is the haversine distance. *)
Lemma calculate_distance_value (M : libm) (lat1 lng1 lat2 lng2 d : float) :
  calculate_distance M lat1 lng1 lat2 lng2 = Return d ->
  d = distanceKm M lat1 lng1 lat2 lng2.
Proof.
  rewrite calculate_distance_shared. unfold math.sin, math.cos, distanceKm.
  destruct (math.math_1 (c_sin M) (half_angle (fsub lat2 lat1))) as [s| |] eqn:Hs;
    cbn [bind]; try discriminate.
  destruct (math.math_1 (c_cos M) (math.radians lat1)) as [c1| |] eqn:Hc1;
    cbn [bind]; try discriminate.
  destruct (math.math_1 (c_cos M) (math.radians lat2)) as [c2| |] eqn:Hc2;
    cbn [bind]; try discriminate.
  destruct (math.math_1 (c_sin M) (half_angle (fsub lng2 lng1))) as [t| |] eqn:Ht;
    cbn [bind]; try discriminate.
  apply math_1_inv in Hs, Hc1, Hc2, Ht. subst s c1 c2 t.
  set (a := haversine_a _ _ _ _).
  unfold central_distance, math.sqrt, math.atan2.
  destruct (math.math_1 fsqrt a) as [y| |] eqn:Hy; cbn [bind]; try discriminate.
  destruct (math.math_1 fsqrt (fsub (of_int 1) a)) as [x| |] eqn:Hx; cbn [bind];
    try discriminate.
  destruct (math.math_2 (math.m_atan2 M) y x) as [r| |] eqn:Hr; cbn [bind];
    try discriminate.
  apply math_1_inv in Hy, Hx. apply math_2_inv in Hr. subst y x r.
  intros H. apply Return_inj in H. now subst d.
Qed.

(** C5.  With a C library that meets its range guarantees, every result of
    [find_buses] stems from an active bus, and its [eta_minutes] is
    [int(d / 20 * 60) + jitter] with [2 <= jitter <= 8], where [d] is what
    [calculate_distance] returns for the bus and the origin stop: the
    haversine distance in kilometres between the two, on a sphere of radius
    6371 km.  [eta_minutes] is positive, and for a bus standing exactly at
    the origin stop it lies between 2 and 10. *)
Theorem find_buses_eta_minutes
  (M : libm) (w : world) (db : database) (q : BusQuery.t)
  (rs : list BusQueryResponse.t) :
  libm_ok M ->
  find_buses M w db q = Return rs ->
  exists from_stop : BusStop.t,
    find_one_name_regex (bus_stops db) (BusQuery.from_stop q)
    = Return (Some from_stop)
    /\ Forall (fun r =>
         exists (bus : Bus.t) (d : float) (jitter : Z),
           In bus (buses db) /\ is_active bus = true
           /\ BusQueryResponse.bus_number r = Bus.bus_number bus
           /\ calculate_distance M (Bus.current_lat bus) (Bus.current_lng bus)
                (BusStop.lat from_stop) (BusStop.lng from_stop) = Return d
           /\ d = distanceKm M (Bus.current_lat bus) (Bus.current_lng bus)
                    (BusStop.lat from_stop) (BusStop.lng from_stop)
           /\ 2 <= jitter <= 8
           /\ BusQueryResponse.eta_minutes r
              = trunc (fmul (fdiv d (of_int 20)) (of_int 60)) + jitter
           /\ 0 < BusQueryResponse.eta_minutes r
           /\ (Bus.current_lat bus = BusStop.lat from_stop ->
               Bus.current_lng bus = BusStop.lng from_stop ->
               finite_double (BusStop.lat from_stop) = true ->
               finite_double (BusStop.lng from_stop) = true ->
               2 <= BusQueryResponse.eta_minutes r <= 10)) rs.
Proof.
  intros HM H.
  destruct (find_buses_provenance M w db q rs H) as (f & t & Hf & _ & Hall).
  exists f. split; [exact Hf|].
  eapply Forall_impl; [|exact Hall].
  intros r (route & bus & k & _ & Hbus & Hprod).
  apply find_buses_on_route_In in Hbus. destruct Hbus as (Hin & _ & Hactive).
  destruct Hprod as (d & ratio & arrival & Hd & Heta & _ & _ & _ & _ & _ & Hnum & _).
  apply py_int_inv in Heta. destruct Heta as [_ Heta].
  pose proof (randint_bounds w k) as Hj.
  assert (Hnn : 0 <= trunc (fmul (fdiv d (of_int 20)) (of_int 60))).
  { apply trunc_nonneg. apply fmul_not_negative; [|reflexivity].
    apply fdiv_not_negative; [|reflexivity].
    eapply calculate_distance_not_negative; eassumption. }
  exists bus, d, (randint w k 2 8).
  split; [exact Hin|]. split; [exact Hactive|]. split; [exact Hnum|].
  split; [exact Hd|]. split; [exact (calculate_distance_value _ _ _ _ _ _ Hd)|].
  split; [exact Hj|]. split; [lia|]. split; [lia|].
  intros Hlat Hlng Hclat Hclng. rewrite Hlat, Hlng in Hd.
  rewrite (calculate_distance_same_point M _ _ HM Hclat Hclng) in Hd.
  apply Return_inj in Hd. subst d.
  change (trunc (fmul (fdiv pzero (of_int 20)) (of_int 60))) with 0 in Heta.
  lia.
Qed.

Lemma find_buses_eta_minutes_witness :
  libm_ok small_angle_libm
  /\ find_buses small_angle_libm sample_world (seeded_db india_gate_fleet)
       (query "Red Fort" "India Gate") = Return india_gate_results
  /\ Forall (fun r =>
       exists jitter, 2 <= jitter <= 8
         /\ BusQueryResponse.eta_minutes r
            = trunc (fmul (fdiv (distanceKm small_angle_libm
                                   (BusStop.lat india_gate_doc)
                                   (BusStop.lng india_gate_doc)
                                   red_fort_lat red_fort_lng) (of_int 20))
                       (of_int 60)) + jitter) india_gate_results
  /\ trunc (fmul (fdiv (distanceKm small_angle_libm
                          (BusStop.lat india_gate_doc) (BusStop.lng india_gate_doc)
                          red_fort_lat red_fort_lng) (of_int 20)) (of_int 60)) = 14
  /\ find_buses small_angle_libm sample_world (seeded_db red_fort_fleet)
       (query "Red Fort" "India Gate") = Return red_fort_results
  /\ Forall (fun r => 2 <= BusQueryResponse.eta_minutes r <= 10) red_fort_results.
Proof.
  assert (Hl : forall fleet,
             find_one_name_regex (bus_stops (seeded_db fleet))
               (BusQuery.from_stop (query "Red Fort" "India Gate"))
             = Return (Some red_fort_doc)) by (intros; vm_compute; reflexivity).
  assert (Haway : find_buses small_angle_libm sample_world (seeded_db india_gate_fleet)
                    (query "Red Fort" "India Gate") = Return india_gate_results)
    by (vm_compute; reflexivity).
  assert (Hat : find_buses small_angle_libm sample_world (seeded_db red_fort_fleet)
                  (query "Red Fort" "India Gate") = Return red_fort_results)
    by (vm_compute; reflexivity).
  split; [exact small_angle_libm_ok|]. split; [exact Haway|]. split.
  { destruct (find_buses_eta_minutes _ _ _ _ _ small_angle_libm_ok Haway)
      as (f & Hf & Hall).
    rewrite Hl in Hf. apply Return_inj in Hf. inversion Hf; subst f.
    eapply Forall_impl; [|exact Hall].
    intros r (bus & d & j & Hin & _ & _ & _ & Hd & Hj & Heta & _).
    destruct Hin as [<-|[]]. exists j. split; [exact Hj|].
    rewrite Heta, Hd. reflexivity. }
  split; [vm_compute; reflexivity|]. split; [exact Hat|].
  destruct (find_buses_eta_minutes _ _ _ _ _ small_angle_libm_ok Hat)
    as (f & Hf & Hall).
  rewrite Hl in Hf. apply Return_inj in Hf. inversion Hf; subst f.
  eapply Forall_impl; [|exact Hall].
  intros r (bus & d & j & Hin & _ & _ & _ & _ & _ & _ & _ & Hstop).
  destruct Hin as [<-|[]]. apply Hstop; reflexivity.
Defined.

(** ** Interpolation *)

(** *** Operations that round nothing away *)

Section Exact.

Lemma iter_pos_nat {A : Type} (f : A -> A) (k : positive) (x : A) :
  iter_pos f k x = Nat.iter (Pos.to_nat k) f x.
Proof.
  revert x. induction k as [k IH|k IH|]; intros x; simpl iter_pos.
  - rewrite !IH, Pos2Nat.inj_xI. 
    replace (S (2 * Pos.to_nat k)) with (Pos.to_nat k + (Pos.to_nat k + 1))%nat by lia.
    rewrite !Nat.iter_add. reflexivity.
  - rewrite !IH, Pos2Nat.inj_xO.
    replace (2 * Pos.to_nat k)%nat with (Pos.to_nat k + Pos.to_nat k)%nat by lia.
    rewrite Nat.iter_add. reflexivity.
  - reflexivity.
Qed.

Lemma iter_shr_1_exact (k m : positive) :
  iter_pos shr_1 k (shr_record_of_loc (Z.pos (Pos.iter xO m k)) loc_Exact)
  = shr_record_of_loc (Z.pos m) loc_Exact.
Proof.
  rewrite iter_pos_nat, Pos2Nat.inj_iter.
  induction (Pos.to_nat k) as [|n IH]; [reflexivity|].
  rewrite Nat.iter_succ_r. simpl nat_rect. exact IH.
Qed.

Lemma digits2_pos_iter_xO (m k : positive) :
  Z.pos (digits2_pos (Pos.iter xO m k)) = Z.pos (digits2_pos m) + Z.pos k.
Proof.
  induction k as [|k IH] using Pos.peano_ind.
  - simpl. lia.
  - rewrite Pos.iter_succ. simpl digits2_pos. lia.
Qed.


(** Rounding is the identity on a mantissa that only carries trailing
    zeros beyond a canonical one. *)
Lemma binary_round_aux_exact (s : bool) (M m : positive) (e k : Z) :
  0 <= k -> Z.pos M = Z.pos m * 2 ^ k ->
  canonical_mantissa prec emax m (e + k) = true -> e + k <= 971 ->
  binary_round_aux prec emax s (Z.pos M) e loc_Exact = S754_finite s m (e + k).
Proof.
  intros Hk HM Hc He. unfold canonical_mantissa in Hc. apply Z.eqb_eq in Hc.
  assert (Hshift : shr_fexp prec emax (Z.pos M) e loc_Exact
                   = (shr_record_of_loc (Z.pos m) loc_Exact, e + k)).
  { unfold shr_fexp. destruct k as [|kp|kp]; [| |lia].
    - rewrite Z.pow_0_r, Z.mul_1_r in HM. injection HM as ->.
      rewrite Z.add_0_r in *. simpl Zdigits2. rewrite Hc, Z.sub_diag. reflexivity.
    - rewrite <- iter_xO_value in HM. injection HM as ->.
      simpl Zdigits2. rewrite digits2_pos_iter_xO.
      replace (Z.pos (digits2_pos m) + Z.pos kp + e)
        with (Z.pos (digits2_pos m) + (e + Z.pos kp)) by lia.
      rewrite Hc. replace (e + Z.pos kp - e) with (Z.pos kp) by lia.
      unfold shr. now rewrite iter_shr_1_exact. }
  unfold binary_round_aux. rewrite Hshift.
  cbn [shr_record_of_loc shr_m loc_of_shr_record round_nearest_even].
  unfold shr_fexp. simpl Zdigits2. rewrite Hc, Z.sub_diag.
  cbn [shr shr_record_of_loc shr_m].
  unfold emax, prec.
  destruct (e + k <=? 1024 - 53) eqn:E; [reflexivity|]. apply Z.leb_gt in E. lia.
Qed.


(** Normalising a mantissa of at most 53 bits is exact. *)
Lemma binary_round_small (s : bool) (p : positive) (e : Z) :
  Z.pos (digits2_pos p) <= 53 -> -1074 <= e <= 971 ->
  exists (pd : positive) (ed : Z),
    binary_round prec emax s p e = S754_finite s pd ed
    /\ -1074 <= ed <= e
    /\ Z.pos pd = Z.pos p * 2 ^ (e - ed)
    /\ canonical_mantissa prec emax pd ed = true.
Proof.
  intros Hd He. unfold binary_round.
  set (f := fexp prec emax (Z.pos (digits2_pos p) + e)).
  assert (Hf : f = Z.max (Z.pos (digits2_pos p) + e - 53) (-1074)) by reflexivity.
  unfold shl_align. destruct (f - e) as [|j|j] eqn:Hj; [| lia |].
  - assert (Hfe : f = e) by lia.
    assert (Hc : canonical_mantissa prec emax p (e + 0) = true).
    { unfold canonical_mantissa. rewrite Z.add_0_r. fold f. now apply Z.eqb_eq. }
    pose proof (binary_round_aux_exact s p p e 0 ltac:(lia)
                  ltac:(now rewrite Z.pow_0_r, Z.mul_1_r) Hc ltac:(lia)) as Hr.
    rewrite Z.add_0_r in Hr, Hc.
    exists p, e. rewrite Z.sub_diag.
    split; [exact Hr|]. split; [lia|]. split; [lia|exact Hc].
  - assert (Hc : canonical_mantissa prec emax (Pos.iter xO p j) (f + 0) = true).
    { unfold canonical_mantissa. rewrite Z.add_0_r, digits2_pos_iter_xO.
      replace (Z.pos (digits2_pos p) + Z.pos j + f)
        with (Z.pos (digits2_pos p) + e) by lia.
      fold f. apply Z.eqb_refl. }
    pose proof (binary_round_aux_exact s _ (Pos.iter xO p j) f 0 ltac:(lia)
                  ltac:(now rewrite Z.pow_0_r, Z.mul_1_r) Hc ltac:(lia)) as Hr.
    rewrite Z.add_0_r in Hr, Hc.
    exists (Pos.iter xO p j), f.
    split; [exact Hr|]. split; [lia|]. split; [|exact Hc].
    rewrite iter_xO_value. f_equal. f_equal. lia.
Qed.

Lemma valid_finite_inv (s : bool) (m : positive) (e : Z) :
  finite_double (S754_finite s m e) = true ->
  canonical_mantissa prec emax m e = true
  /\ Z.pos (digits2_pos m) <= 53 /\ -1074 <= e <= 971.
Proof.
  unfold finite_double, valid. cbn [is_finite valid_binary andb].
  unfold bounded. rewrite andb_true_iff, Z.leb_le. intros [Hc He].
  split; [exact Hc|]. unfold canonical_mantissa in Hc. apply Z.eqb_eq in Hc.
  unfold fexp, emin, emax, prec in *. lia.
Qed.


Lemma digits2_pos_shifted (Q m : positive) (j : Z) :
  0 <= j -> Z.pos Q = Z.pos m * 2 ^ j ->
  Z.pos (digits2_pos Q) = Z.pos (digits2_pos m) + j.
Proof.
  intros Hj HQ. destruct j as [|jp|jp]; [| |lia].
  - rewrite Z.pow_0_r, Z.mul_1_r in HQ. injection HQ as ->. lia.
  - rewrite <- iter_xO_value in HQ. injection HQ as ->.
    apply digits2_pos_iter_xO.
Qed.

(** Normalising [m * 2^j] at exponent [e - j] gives back the canonical
    [(m, e)]. *)
Lemma binary_normalize_exact (s : bool) (m : positive) (e j z : Z) :
  0 <= j -> z = cond_Zopp s (Z.pos m * 2 ^ j) ->
  canonical_mantissa prec emax m e = true -> e <= 971 ->
  binary_normalize prec emax z (e - j) false = S754_finite s m e.
Proof.
  intros Hj Hz Hc He.
  assert (Hp : 0 < Z.pos m * 2 ^ j)
    by (apply Z.mul_pos_pos; [lia|apply Z.pow_pos_nonneg; lia]).
  assert (Hround : forall Q, Z.pos Q = Z.pos m * 2 ^ j ->
            binary_round prec emax s Q (e - j) = S754_finite s m e).
  { intros Q HQ. unfold binary_round.
    rewrite (digits2_pos_shifted Q m j Hj HQ).
    replace (Z.pos (digits2_pos m) + j + (e - j))
      with (Z.pos (digits2_pos m) + e) by lia.
    pose proof Hc as Hc'. unfold canonical_mantissa in Hc'.
    apply Z.eqb_eq in Hc'. rewrite Hc'.
    unfold shl_align. replace (e - (e - j)) with j by lia.
    destruct j as [|jp|jp]; [| |lia].
    - rewrite (binary_round_aux_exact s Q m (e - 0) 0); try lia;
        rewrite ?Z.sub_0_r, ?Z.add_0_r; try assumption.
      reflexivity.
    - rewrite (binary_round_aux_exact s Q m (e - Z.pos jp) (Z.pos jp));
        try lia; replace (e - Z.pos jp + Z.pos jp) with e by lia;
        try assumption.
      reflexivity. }
  destruct s; cbn [cond_Zopp] in Hz; subst z.
  - destruct (Z.pos m * 2 ^ j) as [|Q|Q] eqn:HQ; try lia.
    cbn [Z.opp binary_normalize]. apply Hround. reflexivity.
  - destruct (Z.pos m * 2 ^ j) as [|Q|Q] eqn:HQ; try lia.
    cbn [binary_normalize]. apply Hround. reflexivity.
Qed.

Lemma fmul_one (s : bool) (m : positive) (e : Z) :
  canonical_mantissa prec emax m e = true -> e <= 971 ->
  fmul (S754_finite s m e) (of_int 1) = S754_finite s m e.
Proof.
  intros Hc He.
  change (of_int 1) with (S754_finite false 4503599627370496 (-52)).
  cbn [fmul SFmul]. rewrite xorb_false_r.
  rewrite (binary_round_aux_exact s _ m (e + -52) 52); try lia.
  - f_equal. lia.
  - replace (e + -52 + 52) with e by lia. exact Hc.
Qed.

(** Two doubles of one sign and one binary exponent. *)
Lemma blend_at_one (x y : float) :
  finite_double x = true -> finite_double y = true ->
  same_binade x y = true ->
  fadd x (fmul (fsub y x) (of_int 1)) = y.
Proof.
  destruct x as [sx|sx| |sx mx ex], y as [sy|sy| |sy my ey];
    try discriminate.
  intros Hx Hy Hb. unfold same_binade in Hb.
  apply andb_true_iff in Hb. destruct Hb as [Hs He].
  apply Bool.eqb_prop in Hs. apply Z.eqb_eq in He. subst sy ey.
  destruct (valid_finite_inv _ _ _ Hx) as (Hcx & Hdx & Hex).
  destruct (valid_finite_inv _ _ _ Hy) as (Hcy & Hdy & Hey).
  pose proof (Zdigits2_gt (Z.pos mx) ltac:(lia)) as Hmx.
  pose proof (Zdigits2_gt (Z.pos my) ltac:(lia)) as Hmy.
  simpl Zdigits2 in Hmx, Hmy.
  assert (Hmx53 : Z.pos mx < 2 ^ 53)
    by (eapply Z.lt_le_trans; [exact Hmx|apply Z.pow_le_mono_r; lia]).
  assert (Hmy53 : Z.pos my < 2 ^ 53)
    by (eapply Z.lt_le_trans; [exact Hmy|apply Z.pow_le_mono_r; lia]).
  unfold fsub. cbn [SFsub]. rewrite Z.min_id.
  unfold shl_align at 1 2. rewrite Z.sub_diag. cbn [fst].
  set (M := cond_Zopp sx (Z.pos my) - cond_Zopp sx (Z.pos mx)).
  assert (HM : Z.abs M < 2 ^ 53) by (unfold M; destruct sx; cbn [cond_Zopp]; lia).
  assert (Hsmall : forall sd p, Z.pos p = Z.abs M -> M = cond_Zopp sd (Z.pos p) ->
            fadd (S754_finite sx mx ex)
              (fmul (binary_round prec emax sd p ex) (of_int 1))
            = S754_finite sx my ex).
  { intros sd p Hp HMp.
    assert (Hdp : Z.pos (digits2_pos p) <= 53).
    { apply (Zdigits2_le (Z.pos p) 53); lia. }
    destruct (binary_round_small sd p ex Hdp Hex) as (pd & ed & -> & Hed & Hpd & Hcd).
    rewrite (fmul_one sd pd ed Hcd ltac:(lia)).
    unfold fadd. cbn [SFadd]. rewrite Z.min_r by lia.
    destruct (shl_align_value mx ex ed ltac:(lia)) as [Hvx _].
    rewrite Hvx. unfold shl_align at 1. rewrite Z.sub_diag. cbn [fst].
    replace ed with (ex - (ex - ed)) at 2 by lia.
    apply binary_normalize_exact; try lia; try exact Hcy.
    rewrite Hpd.
    assert (H2 : 0 < 2 ^ (ex - ed)) by (apply Z.pow_pos_nonneg; lia).
    unfold M in HMp. clear - HMp.
    set (T := 2 ^ (ex - ed)).
    destruct sx, sd; cbn [cond_Zopp] in HMp |- *;
      [ replace (Z.pos my) with (Z.pos mx + Z.pos p) by lia
      | replace (Z.pos my) with (Z.pos mx - Z.pos p) by lia
      | replace (Z.pos my) with (Z.pos mx - Z.pos p) by lia
      | replace (Z.pos my) with (Z.pos mx + Z.pos p) by lia ]; ring. }
  destruct M as [|p|p] eqn:EM.
  - cbn [binary_normalize]. cbn [fmul SFmul xorb]. cbn [fadd SFadd].
    assert (Heq : Z.pos mx = Z.pos my)
      by (unfold M in EM; destruct sx; cbn [cond_Zopp] in EM; lia).
    now injection Heq as ->.
  - cbn [binary_normalize]. apply Hsmall; [reflexivity|reflexivity].
  - cbn [binary_normalize]. apply Hsmall; [reflexivity|reflexivity].
Qed.

End Exact.

Section Interpolation.

Lemma blend_at_zero (x y : float) :
  coordinate x = true -> coordinate y = true ->
  feqb (fadd x (fmul (fsub y x) (of_int 0))) x = true.
Proof.
  intros Hx Hy.
  pose proof (fsub_finite 8 y x Hy Hx ltac:(lia)) as Hd.
  change (of_int 0) with pzero.
  destruct (fsub y x) as [sd|sd| |sd md ed]; try discriminate Hd;
    destruct x as [sx|sx| |sx mx ex]; try discriminate Hx;
    cbn [fmul SFmul fadd SFadd];
    try (destruct sx, sd; reflexivity);
    apply feqb_refl; reflexivity.
Qed.

End Interpolation.

(** C8 (amended).  [interpolate_position] returns the componentwise blend
    [start + (end - start) * progress], evaluated in double precision.  For
    all points with coordinates in range, progress 0 yields the first point.
    Progress 1 yields the second point whenever each coordinate of the
    first point has the sign and the binary exponent of the corresponding
    coordinate of the second, and for every pair of stops of the seed table;
    for arbitrary points the last step [start + (end - start)] is rounded
    and may miss the second point. *)
Theorem interpolate_position_endpoints :
  (forall start_lat start_lng end_lat end_lng progress,
      interpolate_position start_lat start_lng end_lat end_lng progress
      = (fadd start_lat (fmul (fsub end_lat start_lat) progress),
         fadd start_lng (fmul (fsub end_lng start_lng) progress)))
  /\ (forall start_lat start_lng end_lat end_lng,
        coordinate start_lat = true -> coordinate start_lng = true ->
        coordinate end_lat = true -> coordinate end_lng = true ->
        point_eqb
          (interpolate_position start_lat start_lng end_lat end_lng (of_int 0))
          (start_lat, start_lng) = true)
  /\ (forall start_lat start_lng end_lat end_lng,
        finite_double start_lat = true -> finite_double start_lng = true ->
        finite_double end_lat = true -> finite_double end_lng = true ->
        same_binade start_lat end_lat = true ->
        same_binade start_lng end_lng = true ->
        interpolate_position start_lat start_lng end_lat end_lng (of_int 1)
        = (end_lat, end_lng))
  /\ (forall a b, In a all_stop_docs -> In b all_stop_docs ->
        point_eqb (interpolate_stops a b (of_int 1)) (stop_point b) = true).
Proof.
  split; [reflexivity|]. split; [|split].
  - intros a_lat a_lng b_lat b_lng Ha1 Ha2 Hb1 Hb2.
    unfold point_eqb, interpolate_position. cbn [fst snd].
    now rewrite !blend_at_zero.
  - intros a_lat a_lng b_lat b_lng Ha1 Ha2 Hb1 Hb2 Hlat Hlng.
    unfold interpolate_position. now rewrite !blend_at_one.
  - assert (Hall : forallb (fun a => forallb (fun b =>
                      point_eqb (interpolate_stops a b (of_int 1)) (stop_point b))
                      all_stop_docs) all_stop_docs = true)
      by (vm_compute; reflexivity).
    intros a b Ha Hb. rewrite forallb_forall in Hall.
    specialize (Hall a Ha). rewrite forallb_forall in Hall. now apply Hall.
Qed.

Lemma interpolate_position_endpoints_witness :
  point_eqb
    (interpolate_position red_fort_lat red_fort_lng
       (BusStop.lat india_gate_doc) (BusStop.lng india_gate_doc) (of_int 0))
    (red_fort_lat, red_fort_lng) = true
  /\ interpolate_position red_fort_lat red_fort_lng
       (BusStop.lat india_gate_doc) (BusStop.lng india_gate_doc) (of_int 1)
     = (BusStop.lat india_gate_doc, BusStop.lng india_gate_doc)
  /\ point_eqb (interpolate_stops red_fort_doc india_gate_doc (of_int 1))
       (stop_point india_gate_doc) = true.
Proof.
  destruct interpolate_position_endpoints as (_ & Hzero & Hone & Hseed).
  split; [|split].
  - apply Hzero; reflexivity.
  - apply Hone; reflexivity.
  - apply Hseed; vm_compute; tauto.
Defined.

(** C8 as stated fails at progress 1: from Red Fort (28.6562, 77.2410) to
    the point (10.1, 77.2410) the interpolated latitude is
    10.100000000000001, which is not [==] to 10.1. *)
Lemma interpolate_position_end_point_missed :
  coordinate (decimal 101 1) = true
  /\ fst (interpolate_position red_fort_lat red_fort_lng
            (decimal 101 1) red_fort_lng (of_int 1))
     = S754_finite false 5685794529555252 (-49)
  /\ decimal 101 1 = S754_finite false 5685794529555251 (-49)
  /\ point_eqb
       (interpolate_position red_fort_lat red_fort_lng
          (decimal 101 1) red_fort_lng (of_int 1))
       (decimal 101 1, red_fort_lng) = false.
Proof. vm_compute. repeat split; reflexivity. Qed.

(** ** The seeded scenario *)

Lemma plus_minutes_returns (t : datetime) (m : Z) :
  1 <= day t < 3652059 -> 0 <= minute_of_day t < 1440 -> 0 <= m <= 1440 ->
  exists t', plus_minutes t m = Return t'.
Proof.
  intros Hd Hm Hk. unfold plus_minutes.
  assert (0 <= (minute_of_day t + m) / 1440 <= 1).
  { split; [apply Z.div_pos; lia|].
    apply Z.lt_succ_r, Z.div_lt_upper_bound; lia. }
  destruct ((1 <=? day t + (minute_of_day t + m) / 1440)
            && (day t + (minute_of_day t + m) / 1440 <=? 3652059)) eqn:E.
  - eexists. reflexivity.
  - apply andb_false_iff in E. destruct E as [E|E];
      [apply Z.leb_gt in E|apply Z.leb_gt in E]; lia.
Qed.

(** Red Fort and India Gate on the Red Line, one active bus standing at
    Red Fort with 10 of its 40 seats taken: whatever the C library (within
    its guarantees), the random draw and the time of day, the query returns
    exactly one result, on the Red Line, with 30 seats available, 25 percent
    occupancy and an estimated arrival in 2 to 10 minutes. *)
Lemma red_fort_scenario (M : libm) (w : world) :
  libm_ok M ->
  1 <= day (clock w 0) < 3652059 ->
  0 <= minute_of_day (clock w 0) < 1440 ->
  exists r,
    find_buses M w (seeded_db red_fort_fleet) (query "Red Fort" "India Gate")
    = Return [r]
    /\ BusQueryResponse.route_name r = "Red Line"%string
    /\ BusQueryResponse.available_seats r = 30
    /\ BusQueryResponse.occupancy_percentage r = 25
    /\ 2 <= BusQueryResponse.eta_minutes r <= 10.
Proof.
  intros HM Hday Hmin.
  pose proof (randint_bounds w 0) as Hj.
  destruct (plus_minutes_returns (clock w 0) (0 + randint w 0 2 8) Hday Hmin
              ltac:(lia)) as (arrival & Harr).
  exists (response "DL-01" "Red Line" (0 + randint w 0 2 8) 25 30
            (strftime_HM arrival)).
  split; [|repeat split; cbn [response BusQueryResponse.eta_minutes]; lia].
  unfold find_buses, collect_results.
  replace (find_one_name_regex (bus_stops (seeded_db red_fort_fleet))
             (BusQuery.from_stop (query "Red Fort" "India Gate")))
    with (Return (Some red_fort_doc)) by (vm_compute; reflexivity).
  replace (find_one_name_regex (bus_stops (seeded_db red_fort_fleet))
             (BusQuery.to_stop (query "Red Fort" "India Gate")))
    with (Return (Some india_gate_doc)) by (vm_compute; reflexivity).
  cbn [bind].
  replace (find_routes_all (routes (seeded_db red_fort_fleet))
             (BusStop.id red_fort_doc) (BusStop.id india_gate_doc))
    with [red_line_doc] by (vm_compute; reflexivity).
  cbn [for_each]. unfold route_results at 1.
  replace (find_buses_on_route (buses (seeded_db red_fort_fleet))
             (Route.id red_line_doc))
    with red_fort_fleet by (vm_compute; reflexivity).
  unfold red_fort_fleet. cbn [for_each]. unfold bus_result.
  change (Bus.current_lat (bus_doc _ _ _ _ _ red_fort_lat red_fort_lng _))
    with red_fort_lat.
  change (Bus.current_lng (bus_doc _ _ _ _ _ red_fort_lat red_fort_lng _))
    with red_fort_lng.
  change (BusStop.lat red_fort_doc) with red_fort_lat.
  change (BusStop.lng red_fort_doc) with red_fort_lng.
  rewrite (calculate_distance_same_point M red_fort_lat red_fort_lng HM)
    by reflexivity.
  cbn [bind]. rewrite float_truediv_positive by reflexivity. cbn [bind].
  change (py_int (fmul (fdiv pzero (of_int 20)) (of_int 60))) with (Return 0).
  cbn [bind].
  replace (int_truediv (Bus.current_occupancy (bus_doc "bus-1" "DL-01"
             "route:Red Line" 40 10 red_fort_lat red_fort_lng "active"))
             (Bus.capacity (bus_doc "bus-1" "DL-01" "route:Red Line" 40 10
                red_fort_lat red_fort_lng "active")))
    with (Return (decimal 25 2)) by (vm_compute; reflexivity).
  cbn [bind].
  change (py_int (fmul (decimal 25 2) (of_int 100))) with (Return 25).
  cbn [bind]. rewrite Harr. reflexivity.
Qed.

(** * The rest of the handlers

    Properties of the two query loops taken together, of the failure modes
    of the helpers, and of the handlers and dashboard helpers beside
    [find_buses] and [get_fleet_status]. *)

(** ** One result per route and bus *)

Section PairByPair.

Variable M : libm.
Variable w : world.
Variable from_stop : BusStop.t.

Lemma produced_in_order_app (p1 p2 : list (Route.t * Bus.t))
  (r1 r2 : list BusQueryResponse.t) (k : nat) :
  produced_in_order M w from_stop k p1 r1 ->
  produced_in_order M w from_stop (k + List.length r1) p2 r2 ->
  produced_in_order M w from_stop k (p1 ++ p2) (r1 ++ r2).
Proof.
  revert r1 k. induction p1 as [|[route bus] p1 IH]; intros [|r r1] k; simpl;
    try contradiction.
  - intros _. now rewrite Nat.add_0_r.
  - intros [Hr H1] H2. split; [exact Hr|].
    apply IH; [exact H1|].
    now replace (S k + List.length r1)%nat with (k + S (List.length r1))%nat by lia.
Qed.

Lemma produced_in_order_length (pairs : list (Route.t * Bus.t))
  (results : list BusQueryResponse.t) (k : nat) :
  produced_in_order M w from_stop k pairs results ->
  List.length results = List.length pairs.
Proof.
  revert results k.
  induction pairs as [|[route bus] pairs IH]; intros [|r results] k; simpl;
    try contradiction; [reflexivity|].
  intros [_ H]. f_equal. exact (IH _ _ H).
Qed.

Lemma produced_in_order_In (pairs : list (Route.t * Bus.t))
  (results : list BusQueryResponse.t) (k : nat) (route : Route.t) (bus : Bus.t) :
  produced_in_order M w from_stop k pairs results ->
  In (route, bus) pairs ->
  exists j r, In r results /\ produced M w from_stop route bus j r.
Proof.
  revert results k.
  induction pairs as [|[route' bus'] pairs IH]; intros [|r results] k; simpl;
    try contradiction.
  intros [Hr H] [Heq|Hin].
  - inversion Heq; subst. exists k, r. split; [now left|exact Hr].
  - destruct (IH _ _ H Hin) as (j & r' & Hr' & Hp).
    exists j, r'. split; [now right|exact Hp].
Qed.

Lemma produced_in_order_names (pairs : list (Route.t * Bus.t))
  (results : list BusQueryResponse.t) (k : nat) :
  produced_in_order M w from_stop k pairs results ->
  map BusQueryResponse.bus_number results
  = map (fun p => Bus.bus_number (snd p)) pairs
  /\ map BusQueryResponse.route_name results
     = map (fun p => Route.name (fst p)) pairs.
Proof.
  revert results k.
  induction pairs as [|[route bus] pairs IH]; intros [|r results] k; simpl;
    try contradiction; [now split|].
  intros [Hr H]. destruct (IH _ _ H) as [Hb Hn].
  destruct Hr as (d & ratio & arrival & _ & _ & _ & _ & _ & _ & _ & Hbn & Hrn).
  split; f_equal; assumption.
Qed.

Lemma inner_loop_in_order (route : Route.t) (buses : list Bus.t)
  (results : list BusQueryResponse.t) (k : nat)
  (st' : list BusQueryResponse.t * nat) :
  for_each buses (bus_result M w from_stop route) (results, k) = Return st' ->
  exists new,
    st' = (results ++ new, (k + List.length new)%nat)
    /\ produced_in_order M w from_stop k (map (pair route) buses) new.
Proof.
  revert results k. induction buses as [|bus buses IH]; intros results k;
    cbn [for_each map].
  - intros H. apply Return_inj in H. subst st'. exists [].
    now rewrite app_nil_r, Nat.add_0_r.
  - destruct (bus_result M w from_stop route bus (results, k)) as [st1| |] eqn:Hb;
      cbn [bind]; try discriminate.
    destruct (bus_result_inv _ _ _ _ _ _ _ _ Hb) as (r & -> & Hr).
    intros H. destruct (IH _ _ H) as (new & -> & Hnew).
    exists (r :: new). rewrite <- app_assoc. simpl.
    rewrite Nat.add_succ_r. now repeat split.
Qed.

Lemma outer_loop_in_order (db : database) (routes : list Route.t)
  (results : list BusQueryResponse.t) (k : nat)
  (st' : list BusQueryResponse.t * nat) :
  for_each routes (route_results M w db from_stop) (results, k) = Return st' ->
  exists new,
    st' = (results ++ new, (k + List.length new)%nat)
    /\ produced_in_order M w from_stop k
         (flat_map (fun route =>
            map (pair route) (find_buses_on_route (buses db) (Route.id route)))
            routes) new.
Proof.
  revert results k. induction routes as [|route routes IH]; intros results k;
    cbn [for_each flat_map].
  - intros H. apply Return_inj in H. subst st'. exists [].
    now rewrite app_nil_r, Nat.add_0_r.
  - destruct (route_results M w db from_stop route (results, k)) as [st1| |] eqn:Hr;
      cbn [bind]; try discriminate.
    unfold route_results in Hr.
    destruct (inner_loop_in_order _ _ _ _ _ Hr) as (new1 & -> & H1).
    intros H. destruct (IH _ _ H) as (new2 & -> & H2).
    exists (new1 ++ new2). rewrite <- app_assoc, length_app, Nat.add_assoc.
    split; [reflexivity|]. now apply produced_in_order_app.
Qed.

End PairByPair.

Lemma collect_results_in_order (M : libm) (w : world) (db : database)
  (q : BusQuery.t) (collected : list BusQueryResponse.t) :
  collect_results M w db q = Return collected ->
  exists from_stop to_stop,
    find_one_name_regex (bus_stops db) (BusQuery.from_stop q)
    = Return (Some from_stop)
    /\ find_one_name_regex (bus_stops db) (BusQuery.to_stop q)
       = Return (Some to_stop)
    /\ produced_in_order M w from_stop 0 (matching_pairs db from_stop to_stop)
         collected.
Proof.
  unfold collect_results.
  destruct (find_one_name_regex _ (BusQuery.from_stop q)) as [[f|]| |];
    cbn [bind]; try discriminate;
    destruct (find_one_name_regex _ (BusQuery.to_stop q)) as [[t|]| |];
    cbn [bind]; try discriminate.
  destruct (for_each _ _ _) as [st| |] eqn:Hloop; cbn [bind]; try discriminate.
  intros H. apply Return_inj in H. subst collected.
  destruct (outer_loop_in_order _ _ _ _ _ _ _ _ Hloop) as (new & -> & Hnew).
  exists f, t. now repeat split.
Qed.

Lemma sort_by_eta_length (l : list BusQueryResponse.t) :
  List.length (sort_by_eta l) = List.length l.
Proof. apply Permutation_length, Permutation_sym, sort_by_eta_perm. Qed.

(** ** What can go wrong in a query *)

Lemma math_2_cases (f : float -> float -> float) (x y : float) :
  math.math_2 f x y = Return (f x y)
  \/ math.math_2 f x y = Raise ValueError
  \/ math.math_2 f x y = Raise OverflowError.
Proof.
  unfold math.math_2.
  destruct (is_nan (f x y)).
  - destruct (negb (is_nan x) && negb (is_nan y)); auto.
  - destruct (is_inf (f x y)); [|auto].
    destruct (is_finite x && is_finite y); auto.
Qed.

Lemma central_distance_cases (M : libm) (a : float) :
  (exists d, central_distance M a = Return d)
  \/ central_distance M a = Raise ValueError
  \/ central_distance M a = Raise OverflowError.
Proof.
  unfold central_distance, math.sqrt, math.atan2.
  destruct (math_1_cases fsqrt a) as [-> | ->]; cbn [bind]; [|auto].
  destruct (math_1_cases fsqrt (fsub (of_int 1) a)) as [-> | ->]; cbn [bind];
    [|auto].
  destruct (math_2_cases (math.m_atan2 M) (fsqrt a) (fsqrt (fsub (of_int 1) a)))
    as [-> | [-> | ->]]; cbn [bind]; eauto.
Qed.

Lemma calculate_distance_cases (M : libm) (lat1 lng1 lat2 lng2 : float) :
  (exists d, calculate_distance M lat1 lng1 lat2 lng2 = Return d)
  \/ calculate_distance M lat1 lng1 lat2 lng2 = Raise ValueError
  \/ calculate_distance M lat1 lng1 lat2 lng2 = Raise OverflowError.
Proof.
  rewrite calculate_distance_shared. unfold math.sin, math.cos.
  destruct (math_1_cases (c_sin M) (half_angle (fsub lat2 lat1))) as [-> | ->];
    cbn [bind]; [|auto].
  destruct (math_1_cases (c_cos M) (math.radians lat1)) as [-> | ->];
    cbn [bind]; [|auto].
  destruct (math_1_cases (c_cos M) (math.radians lat2)) as [-> | ->];
    cbn [bind]; [|auto].
  destruct (math_1_cases (c_sin M) (half_angle (fsub lng2 lng1))) as [-> | ->];
    cbn [bind]; [|auto].
  apply central_distance_cases.
Qed.

Lemma int_truediv_inside (a b : Z) : int_truediv a b <> OutsideModel.
Proof.
  unfold int_truediv. destruct (b =? 0); [discriminate|].
  destruct (is_inf _); discriminate.
Qed.

Lemma py_int_inside (x : float) : py_int x <> OutsideModel.
Proof. destruct x; discriminate. Qed.

Lemma bus_result_inside (M : libm) (w : world) (from_stop : BusStop.t)
  (route : Route.t) (bus : Bus.t) (st : list BusQueryResponse.t * nat) :
  bus_result M w from_stop route bus st <> OutsideModel.
Proof.
  unfold bus_result. destruct st as [results k].
  destruct (calculate_distance_cases M (Bus.current_lat bus) (Bus.current_lng bus)
              (BusStop.lat from_stop) (BusStop.lng from_stop))
    as [[d ->] | [-> | ->]]; cbn [bind]; try discriminate.
  rewrite float_truediv_positive by reflexivity. cbn [bind].
  destruct (py_int _) as [whole| |] eqn:H1; cbn [bind]; try discriminate;
    [clear H1|now apply py_int_inside in H1].
  destruct (int_truediv _ _) as [ratio| |] eqn:H2; cbn [bind]; try discriminate;
    [clear H2|now apply int_truediv_inside in H2].
  destruct (py_int _) as [pct| |] eqn:H3; cbn [bind]; try discriminate;
    [clear H3|now apply py_int_inside in H3].
  unfold plus_minutes. destruct (_ && _); discriminate.
Qed.

Lemma for_each_inside {A S : Type} (body : A -> S -> outcome S) (l : list A) :
  (forall x s, body x s <> OutsideModel) ->
  forall s, for_each l body s <> OutsideModel.
Proof.
  intros Hbody. induction l as [|x l IH]; intros s; cbn [for_each];
    [discriminate|].
  destruct (body x s) as [s1| |] eqn:Hb; cbn [bind];
    [apply IH|discriminate|now apply Hbody in Hb].
Qed.

Lemma loops_inside (M : libm) (w : world) (db : database) (from_stop : BusStop.t)
  (routes : list Route.t) (st : list BusQueryResponse.t * nat) :
  for_each routes (route_results M w db from_stop) st <> OutsideModel.
Proof.
  apply for_each_inside. intros route s. unfold route_results.
  apply for_each_inside. intros bus s'. apply bus_result_inside.
Qed.

(** With both stops resolved, [collect_results] is the two loops. *)
Lemma collect_results_resolved (M : libm) (w : world) (db : database)
  (q : BusQuery.t) (from_stop to_stop : BusStop.t) :
  find_one_name_regex (bus_stops db) (BusQuery.from_stop q) = Return (Some from_stop) ->
  find_one_name_regex (bus_stops db) (BusQuery.to_stop q) = Return (Some to_stop) ->
  collect_results M w db q
  = (st <- for_each
             (find_routes_all (routes db) (BusStop.id from_stop) (BusStop.id to_stop))
             (route_results M w db from_stop) ([], 0%nat) ;;
     Return (fst st)).
Proof. intros Hf Ht. unfold collect_results. now rewrite Hf, Ht. Qed.

Lemma loops_without_buses (M : libm) (w : world) (db : database)
  (from_stop : BusStop.t) (routes : list Route.t)
  (st : list BusQueryResponse.t * nat) :
  flat_map (fun route =>
    map (pair route) (find_buses_on_route (buses db) (Route.id route))) routes = [] ->
  for_each routes (route_results M w db from_stop) st = Return st.
Proof.
  induction routes as [|route routes IH]; cbn [for_each flat_map]; [reflexivity|].
  intros H. apply app_eq_nil in H. destruct H as [H1 H2].
  unfold route_results at 1. apply map_eq_nil in H1. rewrite H1. cbn [for_each bind].
  exact (IH H2).
Qed.

(** X1.  A successful query holds exactly one result for each pair of a
    route through both stops and an active bus assigned to it: before the
    sort the results follow the pairs in route order, then bus order, the
    [k]-th of them built at the [k]-th iteration, and the answer has as many
    entries as there are pairs. *)
Theorem find_buses_one_result_per_pair (M : libm) (w : world) (db : database)
  (q : BusQuery.t) (rs : list BusQueryResponse.t) :
  find_buses M w db q = Return rs ->
  exists from_stop to_stop collected,
    find_one_name_regex (bus_stops db) (BusQuery.from_stop q)
    = Return (Some from_stop)
    /\ find_one_name_regex (bus_stops db) (BusQuery.to_stop q)
       = Return (Some to_stop)
    /\ rs = sort_by_eta collected
    /\ produced_in_order M w from_stop 0 (matching_pairs db from_stop to_stop)
         collected
    /\ map BusQueryResponse.bus_number collected
       = map (fun p => Bus.bus_number (snd p)) (matching_pairs db from_stop to_stop)
    /\ List.length rs = List.length (matching_pairs db from_stop to_stop).
Proof.
  intros H. destruct (find_buses_returns _ _ _ _ _ H) as (collected & Hc & ->).
  destruct (collect_results_in_order _ _ _ _ _ Hc) as (f & t & Hf & Ht & Hp).
  exists f, t, collected. repeat split; try assumption.
  - exact (proj1 (produced_in_order_names _ _ _ _ _ _ Hp)).
  - rewrite sort_by_eta_length. exact (produced_in_order_length _ _ _ _ _ _ Hp).
Qed.

(** X2.  With both stops resolved, the query answers with the empty list
    exactly when no active bus runs on a route through both stops. *)
Theorem find_buses_empty_iff_no_pair (M : libm) (w : world) (db : database)
  (q : BusQuery.t) (from_stop to_stop : BusStop.t) :
  find_one_name_regex (bus_stops db) (BusQuery.from_stop q) = Return (Some from_stop) ->
  find_one_name_regex (bus_stops db) (BusQuery.to_stop q) = Return (Some to_stop) ->
  (find_buses M w db q = Return [] <-> matching_pairs db from_stop to_stop = []).
Proof.
  intros Hf Ht. split.
  - intros H. destruct (find_buses_returns _ _ _ _ _ H) as (collected & Hc & Hs).
    destruct (collect_results_in_order _ _ _ _ _ Hc) as (f & t & Hf' & Ht' & Hp).
    rewrite Hf in Hf'. rewrite Ht in Ht'.
    apply Return_inj in Hf', Ht'. inversion Hf'; inversion Ht'; subst f t.
    apply produced_in_order_length in Hp.
    assert (Hl : List.length (sort_by_eta collected) = 0%nat) by now rewrite <- Hs.
    rewrite sort_by_eta_length, Hp in Hl. now apply length_zero_iff_nil.
  - intros Hnil. unfold find_buses.
    rewrite (collect_results_resolved _ _ _ _ _ _ Hf Ht).
    rewrite loops_without_buses by exact Hnil. reflexivity.
Qed.

(** X3.  With both stops resolved, a single active bus of capacity zero on
    a matching route makes the whole query fail with status 500: the
    division by its capacity raises inside the [try] block, whatever the
    other buses are. *)
Theorem find_buses_zero_capacity_bus_fails (M : libm) (w : world) (db : database)
  (q : BusQuery.t) (from_stop to_stop : BusStop.t) (route : Route.t) (bus : Bus.t) :
  find_one_name_regex (bus_stops db) (BusQuery.from_stop q) = Return (Some from_stop) ->
  find_one_name_regex (bus_stops db) (BusQuery.to_stop q) = Return (Some to_stop) ->
  In (route, bus) (matching_pairs db from_stop to_stop) ->
  Bus.capacity bus = 0 ->
  find_buses M w db q = Raise (HTTPException 500 "Error finding buses").
Proof.
  intros Hf Ht Hin Hcap. unfold find_buses.
  rewrite (collect_results_resolved _ _ _ _ _ _ Hf Ht).
  destruct (for_each _ _ _) as [st| |] eqn:Hloop; cbn [bind try_except];
    [exfalso|reflexivity|now apply loops_inside in Hloop].
  destruct (outer_loop_in_order _ _ _ _ _ _ _ _ Hloop) as (new & _ & Hnew).
  destruct (produced_in_order_In _ _ _ _ _ _ _ _ Hnew Hin) as (j & r & _ & Hp).
  destruct Hp as (d & ratio & arrival & _ & _ & Hdiv & _).
  rewrite Hcap in Hdiv. discriminate Hdiv.
Qed.

(** ** Integer division in range *)

Lemma SFdiv_core_binary_bounds (m1 m2 : positive) (q e : Z) (l : location) :
  SFdiv_core_binary prec emax (Z.pos m1) 0 (Z.pos m2) 0 = (q, e, l) ->
  0 <= q /\ Zdigits2 q + e <= Zdigits2 (Z.pos m1) /\ e <= 0.
Proof.
  unfold SFdiv_core_binary.
  set (d1 := Zdigits2 (Z.pos m1)). set (d2 := Zdigits2 (Z.pos m2)).
  set (e' := Z.min _ _).
  assert (He' : e' <= 0) by (unfold e'; lia).
  set (m' := match 0 - 0 - e' with Z.pos _ => _ | Z0 => _ | Z.neg _ => _ end).
  assert (Hm' : m' = Z.pos m1 * 2 ^ (- e')).
  { unfold m'. destruct (0 - 0 - e') as [|p|p] eqn:Hs; try lia.
    - replace (- e') with 0 by lia. now rewrite Z.pow_0_r, Z.mul_1_r.
    - rewrite Z.shiftl_mul_pow2 by lia. f_equal. f_equal. lia. }
  pose proof (Z.div_eucl_eq m' (Z.pos m2) ltac:(lia)) as Heq.
  pose proof (Z.mod_pos_bound m' (Z.pos m2) ltac:(lia)) as Hmod.
  unfold Z.modulo in Hmod.
  destruct (Z.div_eucl m' (Z.pos m2)) as [q' r'].
  intros H. inversion H; subst q' e; clear H.
  assert (Hpow : 0 < 2 ^ (- e')) by (apply Z.pow_pos_nonneg; lia).
  assert (Hm'pos : 0 < m') by (rewrite Hm'; lia).
  assert (Hq : 0 <= q) by nia.
  assert (Hqm : q <= m') by nia.
  pose proof (Zdigits2_gt (Z.pos m1) ltac:(lia)) as Hd1. fold d1 in Hd1.
  assert (Hd1pos : 0 <= d1) by apply Zdigits2_nonneg.
  assert (Hlt : q < 2 ^ (d1 + - e')).
  { rewrite (Z.pow_add_r 2 d1 (- e')) by lia. nia. }
  pose proof (Zdigits2_le q (d1 + - e') Hq ltac:(lia) Hlt).
  repeat split; lia.
Qed.

Lemma int_truediv_returns (a b : Z) :
  b <> 0 -> Z.abs a < 2 ^ 1023 ->
  exists q, int_truediv a b = Return q /\ is_finite q = true.
Proof.
  intros Hb Ha. unfold int_truediv.
  destruct (b =? 0) eqn:E; [apply Z.eqb_eq in E; contradiction|].
  set (q := fdiv (int_mantissa a) (int_mantissa b)).
  assert (Hq : is_finite q = true).
  { unfold q, fdiv.
    destruct a as [|ma|ma], b as [|mb|mb]; try contradiction; try reflexivity;
      cbn [int_mantissa SFdiv];
      destruct (SFdiv_core_binary _ _ _ _ _ _) as [[mz ez] lz] eqn:Hcore;
      apply SFdiv_core_binary_bounds in Hcore; destruct Hcore as (Hm & Hd & He);
      (apply binary_round_aux_finite; [exact Hm| |lia]);
      assert (Zdigits2 (Z.pos ma) <= 1023)
        by (apply Zdigits2_le; [lia|lia|exact Ha]); lia. }
  exists q. split; [|exact Hq].
  destruct q; try discriminate Hq; reflexivity.
Qed.

(** ** Letter case in queries *)

Lemma to_lower_idempotent (c : ascii) :
  regex.to_lower (regex.to_lower c) = regex.to_lower c.
Proof. destruct c as [[] [] [] [] [] [] [] []]; reflexivity. Qed.

Lemma to_lower_class (c : ascii) :
  Ascii.eqb (regex.to_lower c) "." = Ascii.eqb c "."
  /\ regex.is_metachar (regex.to_lower c) = regex.is_metachar c
  /\ regex.is_ascii7 (regex.to_lower c) = regex.is_ascii7 c.
Proof. destruct c as [[] [] [] [] [] [] [] []]; repeat split; reflexivity. Qed.

Lemma compile_lower (q : string) :
  match regex.compile q with
  | Some atoms =>
      exists atoms', regex.compile (lower q) = Some atoms'
        /\ forall s, regex.match_here atoms s = regex.match_here atoms' s
  | None => regex.compile (lower q) = None
  end.
Proof.
  induction q as [|c q IH]; cbn [regex.compile lower].
  - now exists [].
  - destruct (to_lower_class c) as (Hdot & Hmeta & Hascii).
    destruct (regex.compile q) as [atoms|].
    + destruct IH as (atoms' & -> & Hsame).
      rewrite Hdot, Hmeta, Hascii.
      destruct (Ascii.eqb c ".").
      * exists (regex.Dot :: atoms'). split; [reflexivity|].
        intros [|d s]; cbn [regex.match_here]; [reflexivity|]. now rewrite Hsame.
      * destruct (regex.is_metachar c || negb (regex.is_ascii7 c)); [reflexivity|].
        exists (regex.Lit (regex.to_lower c) :: atoms'). split; [reflexivity|].
        intros [|d s]; cbn [regex.match_here regex.atom_matches]; [reflexivity|].
        now rewrite to_lower_idempotent, Hsame.
    + now rewrite IH.
Qed.

Lemma search_ext (atoms atoms' : list regex.atom) :
  (forall s, regex.match_here atoms s = regex.match_here atoms' s) ->
  forall s, regex.search atoms s = regex.search atoms' s.
Proof.
  intros H. induction s as [|c s IH]; cbn [regex.search]; rewrite H;
    [reflexivity|now rewrite IH].
Qed.

Lemma first_match_ext (atoms atoms' : list regex.atom) (coll : list BusStop.t) :
  (forall s, regex.search atoms s = regex.search atoms' s) ->
  first_match atoms coll = first_match atoms' coll.
Proof.
  intros H. induction coll as [|d coll IH]; cbn [first_match]; [reflexivity|].
  now rewrite H, IH.
Qed.

Lemma find_one_name_regex_lower (coll : list BusStop.t) (q : string) :
  find_one_name_regex coll (lower q) = find_one_name_regex coll q.
Proof.
  unfold find_one_name_regex. pose proof (compile_lower q) as H.
  destruct (regex.compile q) as [atoms|].
  - destruct H as (atoms' & -> & Hsame). symmetry.
    apply first_match_ext, search_ext, Hsame.
  - now rewrite H.
Qed.

(** Within the modelled fragment a query is answered or fails; the model
    does not abstain. *)
Lemma find_buses_inside (M : libm) (w : world) (db : database) (a b : string) :
  Forall (fun t => regex.all_ascii7 (BusStop.name t) = true) (bus_stops db) ->
  plain_query a = true -> plain_query b = true ->
  find_buses M w db (query a b) <> OutsideModel.
Proof.
  intros Hascii Ha Hb. unfold find_buses, collect_results, query.
  cbn [BusQuery.from_stop BusQuery.to_stop]. unfold find_one_name_regex.
  rewrite (compile_plain a Ha), (compile_plain b Hb).
  destruct (first_match_total (literal a) _ Hascii) as [f ->].
  destruct (first_match_total (literal b) _ Hascii) as [t ->].
  cbn [bind]. destruct f as [f|], t as [t|]; cbn [bind try_except];
    try discriminate.
  destruct (for_each _ _ _) as [st| |] eqn:Hloop; cbn [bind try_except];
    try discriminate.
  now apply loops_inside in Hloop.
Qed.

(** X4.  For stop names typed in ordinary 7-bit ASCII characters (no
    regular expression metacharacter), over a catalog of ASCII names, the
    query does not look at the letter case: names equal up to ASCII case
    get the same answer, failures included, and the answer is a result or an
    error of the program, not an abstention of the model. *)
Theorem find_buses_ignores_letter_case (M : libm) (w : world) (db : database)
  (a b a' b' : string) :
  Forall (fun t => regex.all_ascii7 (BusStop.name t) = true) (bus_stops db) ->
  plain_query a = true -> plain_query b = true ->
  lower a = lower a' -> lower b = lower b' ->
  find_buses M w db (query a b) = find_buses M w db (query a' b')
  /\ find_buses M w db (query a b) <> OutsideModel.
Proof.
  intros Hascii Hpa Hpb Ha Hb. split; [|now apply find_buses_inside].
  unfold find_buses, collect_results, query.
  cbn [BusQuery.from_stop BusQuery.to_stop].
  rewrite <- (find_one_name_regex_lower _ a), <- (find_one_name_regex_lower _ b).
  rewrite <- (find_one_name_regex_lower _ a'), <- (find_one_name_regex_lower _ b').
  now rewrite Ha, Hb.
Qed.

Lemma find_buses_ignores_letter_case_witness :
  Forall (fun t => regex.all_ascii7 (BusStop.name t) = true)
    (bus_stops (seeded_db red_fort_fleet))
  /\ plain_query "RED FORT" = true /\ plain_query "india gate" = true
  /\ lower "RED FORT" = lower "Red Fort" /\ lower "india gate" = lower "India Gate"
  /\ find_buses small_angle_libm sample_world (seeded_db red_fort_fleet)
       (query "RED FORT" "india gate")
     = find_buses small_angle_libm sample_world (seeded_db red_fort_fleet)
         (query "Red Fort" "India Gate")
  /\ find_buses small_angle_libm sample_world (seeded_db red_fort_fleet)
       (query "RED FORT" "india gate") <> OutsideModel
  /\ find_buses small_angle_libm sample_world (seeded_db red_fort_fleet)
       (query "RED FORT" "india gate") = Return red_fort_results.
Proof.
  split; [exact all_stop_docs_ascii|].
  split; [reflexivity|]. split; [reflexivity|].
  split; [reflexivity|]. split; [reflexivity|].
  destruct (find_buses_ignores_letter_case small_angle_libm sample_world
              (seeded_db red_fort_fleet) "RED FORT" "india gate"
              "Red Fort" "India Gate" all_stop_docs_ascii
              eq_refl eq_refl eq_refl eq_refl) as [Heq Hin].
  split; [exact Heq|]. split; [exact Hin|]. vm_compute. reflexivity.
Defined.

Lemma contains_ci_refl (n : string) : contains_ci n n.
Proof.
  exists EmptyString, n, EmptyString. split; [|reflexivity].
  cbn [append]. induction n as [|c n IH]; [reflexivity|].
  cbn [append]. now rewrite <- IH.
Qed.

(** X5.  Every stop of an ASCII catalog is found when its own name is the
    query, provided the name has no metacharacter: the lookup yields the
    first stop whose name contains that name, never no stop. *)
Theorem stop_found_by_its_own_name (coll : list BusStop.t) (s : BusStop.t) :
  Forall (fun t => regex.all_ascii7 (BusStop.name t) = true) coll ->
  In s coll ->
  plain_query (BusStop.name s) = true ->
  exists s', find_one_name_regex coll (BusStop.name s) = Return (Some s')
             /\ first_containing coll (BusStop.name s) s'.
Proof.
  intros Hascii Hin Hplain. unfold find_one_name_regex.
  rewrite (compile_plain _ Hplain).
  destruct (first_match_total (literal (BusStop.name s)) coll Hascii) as [[s'|] Hr].
  - exists s'. split; [exact Hr|].
    apply (first_match_found _ _ _ Hascii) in Hr.
    destruct Hr as (before & after & Hc & Hm & Hb).
    exists before, after. split; [exact Hc|]. split.
    + now apply search_literal.
    + eapply Forall_impl; [|exact Hb]. intros t Ht. now apply search_false_iff.
  - exfalso. apply (first_match_none _ _ Hascii) in Hr.
    rewrite Forall_forall in Hr. specialize (Hr s Hin).
    apply search_false_iff in Hr. apply Hr, contains_ci_refl.
Qed.

(** ** Distance, once more *)

(** X6.  A distance that [calculate_distance] returns is never below zero
    ([d < 0] is false), for every C library meeting [libm_ok]. *)
Theorem calculate_distance_never_below_zero (M : libm)
  (lat1 lng1 lat2 lng2 d : float) :
  libm_ok M ->
  calculate_distance M lat1 lng1 lat2 lng2 = Return d ->
  fltb d (of_int 0) = false.
Proof.
  intros HM H.
  pose proof (calculate_distance_not_negative M lat1 lng1 lat2 lng2 d HM H) as Hd.
  destruct d as [[]|[]| |[] m e]; try discriminate Hd; reflexivity.
Qed.

Lemma calculate_distance_never_below_zero_witness :
  calculate_distance small_angle_libm red_fort_lat red_fort_lng
    (BusStop.lat india_gate_doc) (BusStop.lng india_gate_doc)
  = Return (S754_finite false 5608846942366394 (-50))
  /\ fltb (S754_finite false 5608846942366394 (-50)) (of_int 0) = false.
Proof.
  assert (H : calculate_distance small_angle_libm red_fort_lat red_fort_lng
                (BusStop.lat india_gate_doc) (BusStop.lng india_gate_doc)
              = Return (S754_finite false 5608846942366394 (-50)))
    by (vm_compute; reflexivity).
  split; [exact H|].
  exact (calculate_distance_never_below_zero _ _ _ _ _ _ small_angle_libm_ok H).
Defined.

(** X7.  [calculate_distance] returns or raises one of the two errors of
    the [math] module, [ValueError] or [OverflowError]: its divisions by 2
    never raise [ZeroDivisionError], whatever the coordinates and the
    C library. *)
Theorem calculate_distance_fails_only_in_math (M : libm)
  (lat1 lng1 lat2 lng2 : float) :
  (exists d, calculate_distance M lat1 lng1 lat2 lng2 = Return d)
  \/ calculate_distance M lat1 lng1 lat2 lng2 = Raise ValueError
  \/ calculate_distance M lat1 lng1 lat2 lng2 = Raise OverflowError.
Proof. apply calculate_distance_cases. Qed.

(** ** Interpolation on a degenerate leg *)

Lemma blend_same (a t : float) :
  is_finite a = true -> is_finite t = true ->
  feqb (fadd a (fmul (fsub a a) t)) a = true.
Proof.
  intros Ha Ht. rewrite (fsub_diag a Ha).
  destruct t as [st|st| |st mt et]; try discriminate Ht;
    destruct a as [sa|sa| |sa ma ea]; try discriminate Ha;
    cbn [fmul SFmul pzero xorb fadd SFadd].
  - destruct sa, st; reflexivity.
  - apply feqb_refl. reflexivity.
  - destruct sa, st; reflexivity.
  - apply feqb_refl. reflexivity.
Qed.

(** X8.  Between a finite point and itself, [interpolate_position] stays on
    that point for every finite progress. *)
Theorem interpolate_position_same_point (lat lng progress : float) :
  is_finite lat = true -> is_finite lng = true -> is_finite progress = true ->
  point_eqb (interpolate_position lat lng lat lng progress) (lat, lng) = true.
Proof.
  intros Hlat Hlng Ht. unfold point_eqb, interpolate_position. cbn [fst snd].
  now rewrite !blend_same.
Qed.

Lemma interpolate_position_same_point_witness :
  is_finite red_fort_lat = true /\ is_finite red_fort_lng = true
  /\ is_finite (decimal 37 2) = true
  /\ point_eqb (interpolate_position red_fort_lat red_fort_lng
                  red_fort_lat red_fort_lng (decimal 37 2))
       (red_fort_lat, red_fort_lng) = true.
Proof.
  repeat (split; [reflexivity|]).
  apply interpolate_position_same_point; reflexivity.
Defined.

(** ** Fleet status in range *)

(** X9.  [get_fleet_status] returns, without any error, for every fleet
    whose summed occupancy is below [2^1023] in magnitude; the active and
    offline counts it reports lie between zero and the total, and the bus
    list is the stored one. *)
Theorem get_fleet_status_returns (w : world) (db : database) :
  Z.abs (sum (map Bus.current_occupancy (buses db))) < 2 ^ 1023 ->
  exists fs,
    get_fleet_status w db = Return fs
    /\ 0 <= FleetStatus.active_buses fs <= FleetStatus.total_buses fs
    /\ 0 <= FleetStatus.offline_buses fs <= FleetStatus.total_buses fs
    /\ FleetStatus.buses fs = buses db.
Proof.
  intros Hocc.
  assert (Hcount : 0 <= len (filter is_active (buses db)) <= len (buses db)).
  { unfold len. pose proof (filter_length_le is_active (buses db)). lia. }
  unfold get_fleet_status.
  destruct (sum (map Bus.capacity (buses db)) >? 0) eqn:Hcap.
  - destruct (int_truediv_returns (sum (map Bus.current_occupancy (buses db)))
                (sum (map Bus.capacity (buses db))) ltac:(lia) Hocc) as (q & -> & _).
    cbn [bind]. eexists. split; [reflexivity|]. cbn. repeat split; lia.
  - cbn [bind]. eexists. split; [reflexivity|]. cbn. repeat split; lia.
Qed.

Lemma get_fleet_status_returns_witness :
  Z.abs (sum (map Bus.current_occupancy (buses (seeded_db mixed_fleet)))) < 2 ^ 1023
  /\ exists fs,
       get_fleet_status sample_world (seeded_db mixed_fleet) = Return fs
       /\ 0 <= FleetStatus.active_buses fs <= FleetStatus.total_buses fs
       /\ 0 <= FleetStatus.offline_buses fs <= FleetStatus.total_buses fs
       /\ FleetStatus.buses fs = buses (seeded_db mixed_fleet).
Proof.
  assert (H : Z.abs (sum (map Bus.current_occupancy (buses (seeded_db mixed_fleet))))
              < 2 ^ 1023) by (vm_compute; reflexivity).
  split; [exact H|]. exact (get_fleet_status_returns sample_world _ H).
Defined.

(** ** Fleet insights *)

Lemma comprehension_if_inside {A : Type} (cond : A -> outcome bool) (l : list A) :
  (forall x, cond x <> OutsideModel) -> comprehension_if cond l <> OutsideModel.
Proof.
  intros Hc. induction l as [|x l IH]; cbn [comprehension_if]; [discriminate|].
  destruct (cond x) as [keep| |] eqn:Hx; cbn [bind];
    [|discriminate|now apply Hc in Hx].
  destruct (comprehension_if cond l) as [kept| |]; cbn [bind];
    [discriminate|discriminate|exact IH].
Qed.

Lemma comprehension_if_tested {A : Type} (cond : A -> outcome bool) (l kept : list A) :
  comprehension_if cond l = Return kept ->
  forall x, In x l -> exists keep, cond x = Return keep.
Proof.
  revert kept. induction l as [|y l IH]; intros kept; cbn [comprehension_if];
    [intros _ x []|].
  destruct (cond y) as [keep| |] eqn:Hy; cbn [bind]; try discriminate.
  destruct (comprehension_if cond l) as [kept'| |]; cbn [bind]; try discriminate.
  intros _ x [<-|Hin]; [now exists keep|]. exact (IH kept' eq_refl x Hin).
Qed.

Lemma comprehension_if_filter {A : Type} (cond : A -> outcome bool)
  (f : A -> bool) (l : list A) :
  Forall (fun x => cond x = Return (f x)) l ->
  comprehension_if cond l = Return (filter f l).
Proof.
  induction 1 as [|x l Hx _ IH]; cbn [comprehension_if filter]; [reflexivity|].
  rewrite Hx, IH. cbn [bind]. now destruct (f x).
Qed.

Lemma bind_inside {A B : Type} (c : outcome A) (k : A -> outcome B) :
  c <> OutsideModel -> (forall a, k a <> OutsideModel) ->
  bind c k <> OutsideModel.
Proof.
  intros Hc Hk. destruct c; cbn [bind]; [apply Hk|discriminate|now elim Hc].
Qed.

Ltac inside :=
  repeat first
    [ discriminate
    | apply int_truediv_inside
    | apply comprehension_if_inside; intros ?
    | apply bind_inside; [|intros ?]
    | match goal with |- (if ?c then _ else _) <> _ => destruct c end ].

Lemma fleet_metrics_inside (buses_data : list Bus.t) (routes_data : list Route.t) :
  fleet_metrics buses_data routes_data <> OutsideModel.
Proof. unfold fleet_metrics, load_factor. inside. Qed.

(** The [try] block of [get_ai_insights] cannot complete when a bus has no
    capacity. *)
Lemma fleet_metrics_zero_capacity (buses_data : list Bus.t)
  (routes_data : list Route.t) (b : Bus.t) (prompt : UserMessage.t) :
  In b buses_data -> Bus.capacity b = 0 ->
  fleet_metrics buses_data routes_data <> Return prompt.
Proof.
  intros Hin Hcap. unfold fleet_metrics.
  destruct (if len buses_data >? 0 then _ else _) as [avg| |]; cbn [bind];
    try discriminate.
  destruct (if sum (map Bus.capacity buses_data) >? 0 then _ else _) as [rate| |];
    cbn [bind]; try discriminate.
  destruct (comprehension_if _ buses_data) as [high| |] eqn:Hhigh; cbn [bind];
    try discriminate.
  exfalso. destruct (comprehension_if_tested _ _ _ Hhigh b Hin) as [keep Hb].
  unfold load_factor, int_truediv in Hb. rewrite Hcap in Hb. discriminate Hb.
Qed.

(** Left alone, [get_ai_insights] returns the fallback text or the model's
    answer. *)
Lemma get_ai_insights_answer (chat : LlmChat) (buses_data : list Bus.t)
  (routes_data : list Route.t) :
  exists text,
    get_ai_insights chat buses_data routes_data = Return text
    /\ (text = fallback_insights
        \/ exists prompt,
             fleet_metrics buses_data routes_data = Return prompt
             /\ send_message chat prompt = Answer text).
Proof.
  assert (Hfallback : forall e : exn,
             exists text, try_except (Raise e) (fun _ => Return fallback_insights)
                          = Return text
                          /\ (text = fallback_insights
                              \/ exists prompt,
                                   fleet_metrics buses_data routes_data = Return prompt
                                   /\ send_message chat prompt = Answer text))
    by (intros e; exists fallback_insights; split; [reflexivity|now left]).
  unfold get_ai_insights.
  destruct (with_model chat) as [e|]; cbn [bind]; [apply Hfallback|].
  destruct (fleet_metrics buses_data routes_data) as [prompt|e|] eqn:Hm;
    cbn [bind]; [|apply Hfallback|now apply fleet_metrics_inside in Hm].
  destruct (send_message chat prompt) as [text|e] eqn:Hs; [|apply Hfallback].
  exists text. split; [reflexivity|]. right. now exists prompt.
Qed.


(** X11.  With a bus of capacity zero in the database, the insights
    endpoint returns the static fallback text whatever the model would
    answer: the load factor of that bus raises [ZeroDivisionError] inside
    the [try] block, before any message is sent. *)
Theorem get_fleet_insights_zero_capacity_falls_back (chat : LlmChat) (w : world)
  (db : database) (b : Bus.t) :
  In b (buses db) -> Bus.capacity b = 0 ->
  get_fleet_insights chat w db
  = Return {| Insights.insights := fallback_insights;
              Insights.generated_at := clock w 1 |}.
Proof.
  intros Hin Hcap. unfold get_fleet_insights, get_ai_insights.
  destruct (with_model chat) as [e|]; cbn [bind try_except]; [reflexivity|].
  destruct (fleet_metrics (buses db) (routes db)) as [prompt|e|] eqn:Hm;
    cbn [bind try_except]; [|reflexivity|now apply fleet_metrics_inside in Hm].
  now apply (fleet_metrics_zero_capacity _ _ b prompt Hin Hcap) in Hm.
Qed.

Lemma get_fleet_insights_zero_capacity_falls_back_witness :
  In (bus_doc "bus-2" "DL-02" "route:Red Line" 0 0 red_fort_lat red_fort_lng
        "active") (buses (seeded_db zero_capacity_fleet))
  /\ get_fleet_insights (canned_chat "Add a bus to the Red Line.") sample_world
       (seeded_db zero_capacity_fleet)
     = Return {| Insights.insights := fallback_insights;
                 Insights.generated_at := clock sample_world 1 |}.
Proof.
  assert (H : In (bus_doc "bus-2" "DL-02" "route:Red Line" 0 0 red_fort_lat
                    red_fort_lng "active") (buses (seeded_db zero_capacity_fleet)))
    by (right; left; reflexivity).
  split; [exact H|].
  exact (get_fleet_insights_zero_capacity_falls_back _ _ _ _ H eq_refl).
Defined.

(** No load factor is both above 0.8 and below 0.3. *)
Lemma high_and_low_exclusive (q : float) :
  fltb (decimal 8 1) q && fltb q (decimal 3 1) = false.
Proof.
  change (decimal 8 1) with (S754_finite false 7205759403792794 (-53)).
  change (decimal 3 1) with (S754_finite false 5404319552844595 (-54)).
  unfold fltb, SFltb.
  destruct q as [[]|[]| |[] m e]; try reflexivity.
  cbn [SFcompare].
  destruct (Z.compare_spec (-53) e); destruct (Z.compare_spec e (-54));
    try lia; try reflexivity;
    try (destruct (Pos.compare_cont _ _ _); reflexivity).
Qed.

Lemma filter_exclusive_length {A : Type} (f g : A -> bool) (l : list A) :
  (forall x, f x && g x = false) ->
  len (filter f l) + len (filter g l) <= len l.
Proof.
  intros H. unfold len. induction l as [|x l IH]; cbn [filter]; [simpl; lia|].
  specialize (H x). destruct (f x), (g x); try discriminate H;
    cbn [List.length]; lia.
Qed.

(** X12.  When the chat can be built, no bus has capacity zero and the
    occupancies are below [2^1023] in magnitude, the fleet metrics are
    computed, the buses counted as high and as low occupancy together do
    not exceed the fleet, and [get_ai_insights] returns the model's answer
    to that message, or the fallback text if sending fails. *)
Theorem get_ai_insights_consults_the_model (chat : LlmChat)
  (buses_data : list Bus.t) (routes_data : list Route.t) :
  with_model chat = None ->
  Forall (fun b => Bus.capacity b <> 0 /\ Z.abs (Bus.current_occupancy b) < 2 ^ 1023)
    buses_data ->
  Z.abs (sum (map Bus.current_occupancy buses_data)) < 2 ^ 1023 ->
  exists prompt,
    fleet_metrics buses_data routes_data = Return prompt
    /\ UserMessage.total_buses prompt = len buses_data
    /\ len (UserMessage.high_occupancy_buses prompt)
       + len (UserMessage.low_occupancy_buses prompt) <= len buses_data
    /\ get_ai_insights chat buses_data routes_data
       = Return match send_message chat prompt with
                | Answer text => text
                | Failure _ => fallback_insights
                end.
Proof.
  intros Hchat Hbuses Hsum.
  assert (Hload : exists ratio : Bus.t -> float,
             Forall (fun b => load_factor b = Return (ratio b)) buses_data).
  { clear Hsum. induction Hbuses as [|b l [Hcap Hocc] _ [ratio IH]].
    - exists (fun _ => pzero). constructor.
    - destruct (int_truediv_returns _ _ Hcap Hocc) as (q & Hq & _).
      exists (fun x => match load_factor x with Return r => r | _ => pzero end).
      constructor.
      + unfold load_factor. now rewrite Hq.
      + eapply Forall_impl; [|exact IH]. cbn beta. intros x Hx. now rewrite Hx. }
  destruct Hload as [ratio Hload].
  assert (Hhigh : comprehension_if
            (fun b => q <- load_factor b ;; Return (fltb (decimal 8 1) q)) buses_data
          = Return (filter (fun b => fltb (decimal 8 1) (ratio b)) buses_data)).
  { apply comprehension_if_filter. eapply Forall_impl; [|exact Hload].
    cbn beta. intros b ->. reflexivity. }
  assert (Hlow : comprehension_if
            (fun b => q <- load_factor b ;; Return (fltb q (decimal 3 1))) buses_data
          = Return (filter (fun b => fltb (ratio b) (decimal 3 1)) buses_data)).
  { apply comprehension_if_filter. eapply Forall_impl; [|exact Hload].
    cbn beta. intros b ->. reflexivity. }
  assert (Hm : exists prompt,
             fleet_metrics buses_data routes_data = Return prompt
             /\ UserMessage.total_buses prompt = len buses_data
             /\ UserMessage.high_occupancy_buses prompt
                = filter (fun b => fltb (decimal 8 1) (ratio b)) buses_data
             /\ UserMessage.low_occupancy_buses prompt
                = filter (fun b => fltb (ratio b) (decimal 3 1)) buses_data).
  { unfold fleet_metrics. rewrite Hhigh, Hlow.
    destruct (len buses_data >? 0) eqn:Hn;
      [destruct (int_truediv_returns
                   (sum (map Bus.current_occupancy buses_data)) (len buses_data)
                   ltac:(lia) Hsum) as (avg & -> & _)|];
      (destruct (sum (map Bus.capacity buses_data) >? 0) eqn:Hc;
       [destruct (int_truediv_returns
                    (sum (map Bus.current_occupancy buses_data))
                    (sum (map Bus.capacity buses_data))
                    ltac:(lia) Hsum) as (rate & -> & _)|]);
      cbn [bind]; eexists; (split; [reflexivity|]);
      cbn [UserMessage.total_buses UserMessage.high_occupancy_buses
             UserMessage.low_occupancy_buses]; repeat split. }
  destruct Hm as (prompt & Hm & Htotal & Hh & Hl).
  exists prompt. split; [exact Hm|]. split; [exact Htotal|]. split.
  - rewrite Hh, Hl. apply filter_exclusive_length.
    intros b. apply high_and_low_exclusive.
  - unfold get_ai_insights. rewrite Hchat, Hm. cbn [bind].
    now destruct (send_message chat prompt).
Qed.

Lemma get_ai_insights_consults_the_model_witness :
  with_model (canned_chat "Add a bus to the Red Line.") = None
  /\ Forall (fun b => Bus.capacity b <> 0
                      /\ Z.abs (Bus.current_occupancy b) < 2 ^ 1023) crowded_fleet
  /\ Z.abs (sum (map Bus.current_occupancy crowded_fleet)) < 2 ^ 1023
  /\ get_ai_insights (canned_chat "Add a bus to the Red Line.") crowded_fleet
       all_route_docs = Return "Add a bus to the Red Line."%string
  /\ exists prompt,
       fleet_metrics crowded_fleet all_route_docs = Return prompt
       /\ UserMessage.total_buses prompt = len crowded_fleet
       /\ len (UserMessage.high_occupancy_buses prompt)
          + len (UserMessage.low_occupancy_buses prompt) <= len crowded_fleet
       /\ get_ai_insights (canned_chat "Add a bus to the Red Line.") crowded_fleet
            all_route_docs
          = Return match send_message (canned_chat "Add a bus to the Red Line.")
                           prompt with
                   | Answer text => text
                   | Failure _ => fallback_insights
                   end.
Proof.
  assert (Hbuses : Forall (fun b => Bus.capacity b <> 0
                             /\ Z.abs (Bus.current_occupancy b) < 2 ^ 1023)
                     crowded_fleet)
    by (repeat constructor; try discriminate; vm_compute; reflexivity).
  assert (Hsum : Z.abs (sum (map Bus.current_occupancy crowded_fleet)) < 2 ^ 1023)
    by (vm_compute; reflexivity).
  split; [reflexivity|]. split; [exact Hbuses|]. split; [exact Hsum|].
  split; [vm_compute; reflexivity|].
  exact (get_ai_insights_consults_the_model
           (canned_chat "Add a bus to the Red Line.") _ all_route_docs eq_refl
           Hbuses Hsum).
Defined.

(** X13.  The message sent to the model reports the same number of buses,
    the same number of active buses and the same occupancy rate as the
    fleet status endpoint computes from the same database. *)
Theorem fleet_metrics_match_fleet_status (w : world) (db : database)
  (fs : FleetStatus.t) (prompt : UserMessage.t) :
  get_fleet_status w db = Return fs ->
  fleet_metrics (buses db) (routes db) = Return prompt ->
  UserMessage.total_buses prompt = FleetStatus.total_buses fs
  /\ UserMessage.active_buses prompt = FleetStatus.active_buses fs
  /\ UserMessage.occupancy_rate prompt = FleetStatus.occupancy_rate fs.
Proof.
  unfold get_fleet_status, fleet_metrics.
  destruct (if len (buses db) >? 0 then _ else _) as [avg| |]; cbn [bind];
    try discriminate.
  destruct (if sum (map Bus.capacity (buses db)) >? 0 then _ else _) as [rate| |];
    cbn [bind]; try discriminate.
  destruct (comprehension_if _ _) as [high| |]; cbn [bind]; try discriminate.
  destruct (comprehension_if _ _) as [low| |]; cbn [bind]; try discriminate.
  intros Hfs Hp. apply Return_inj in Hfs, Hp. subst fs prompt. now repeat split.
Qed.

Lemma fleet_metrics_match_fleet_status_witness :
  exists fs prompt,
    get_fleet_status sample_world (seeded_db mixed_fleet) = Return fs
    /\ fleet_metrics (buses (seeded_db mixed_fleet)) (routes (seeded_db mixed_fleet))
       = Return prompt
    /\ UserMessage.total_buses prompt = FleetStatus.total_buses fs
    /\ UserMessage.active_buses prompt = FleetStatus.active_buses fs
    /\ UserMessage.occupancy_rate prompt = FleetStatus.occupancy_rate fs.
Proof.
  assert (Hfs : exists fs,
             get_fleet_status sample_world (seeded_db mixed_fleet) = Return fs)
    by (eexists; vm_compute; reflexivity).
  assert (Hp : exists prompt,
             fleet_metrics (buses (seeded_db mixed_fleet))
               (routes (seeded_db mixed_fleet)) = Return prompt)
    by (eexists; vm_compute; reflexivity).
  destruct Hfs as [fs Hfs]. destruct Hp as [prompt Hp].
  exists fs, prompt. split; [exact Hfs|]. split; [exact Hp|].
  exact (fleet_metrics_match_fleet_status _ _ _ _ Hfs Hp).
Defined.

(** ** The simulation switch *)

Lemma serve_while_running (n : nat) :
  serve (repeat StartSimulation n) true
  = (repeat "Simulation already running"%string n, true, []).
Proof.
  induction n as [|n IH]; [reflexivity|].
  cbn [repeat serve start_simulation negb]. now rewrite IH.
Qed.

(** X14.  Starting the simulation is idempotent: of any number of
    consecutive calls from a stopped process only the first schedules the
    background task and answers that the simulation started, the others
    answer that it is already running; after a shutdown the next call
    schedules the task again. *)
Theorem start_simulation_schedules_once (n : nat) :
  serve (repeat StartSimulation (S n)) false
  = ("Bus simulation started"%string :: repeat "Simulation already running"%string n,
     true, [simulate_bus_movement])
  /\ serve (repeat StartSimulation n ++ [Shutdown; StartSimulation]) true
     = (repeat "Simulation already running"%string n
        ++ ["Bus simulation started"%string],
        true, [simulate_bus_movement]).
Proof.
  split.
  - cbn [repeat serve start_simulation negb]. now rewrite serve_while_running.
  - induction n as [|n IH]; [reflexivity|].
    cbn [repeat app serve start_simulation negb]. now rewrite IH.
Qed.

(** ** Dashboard colours *)

(** X15.  For a bus of capacity zero and an occupancy that is not negative,
    [getOccupancyColor] picks the red class: the percentage is an infinity
    or a NaN, and both comparisons are false. *)
Theorem getOccupancyColor_zero_capacity (occupancy : float) :
  not_negative occupancy = true ->
  getOccupancyColor occupancy (of_int 0) = "text-red-600"%string.
Proof.
  destruct occupancy as [[]|[]| |[] m e]; try discriminate; intros _; reflexivity.
Qed.

Lemma getOccupancyColor_zero_capacity_witness :
  not_negative (of_int 12) = true
  /\ getOccupancyColor (of_int 12) (of_int 0) = "text-red-600"%string.
Proof.
  split; [reflexivity|]. apply getOccupancyColor_zero_capacity. reflexivity.
Defined.

(** X16.  For every capacity from 1 to 120 and every occupancy from 0 to
    the capacity, the background colour of the customer card, chosen from
    the percentage [find_buses] reports, and the text colour of the admin
    table, chosen from the two counters, stand for the same band. *)
Theorem occupancy_bands_agree (occupancy capacity : Z) :
  1 <= capacity <= 120 -> 0 <= occupancy <= capacity ->
  same_band occupancy capacity = true.
Proof.
  intros Hc Ho.
  assert (Hall : forallb (fun c => forallb (fun o =>
                    same_band (Z.of_nat o) (Z.of_nat c))
                    (seq 0 (S c))) (seq 1 120) = true)
    by (vm_compute; reflexivity).
  rewrite forallb_forall in Hall.
  specialize (Hall (Z.to_nat capacity)).
  rewrite in_seq, forallb_forall in Hall.
  specialize (Hall ltac:(lia) (Z.to_nat occupancy)).
  rewrite in_seq, !Z2Nat.id in Hall by lia.
  apply Hall. lia.
Qed.

Lemma occupancy_bands_agree_witness :
  1 <= 100 <= 120 /\ 0 <= 29 <= 100 /\ same_band 29 100 = true.
Proof.
  split; [lia|]. split; [lia|]. apply occupancy_bands_agree; lia.
Defined.

(** ** The query theorems on the seeded catalog *)

Lemma find_buses_one_result_per_pair_witness :
  find_buses small_angle_libm sample_world (seeded_db crowded_fleet)
    (query "Red Fort" "India Gate") = Return crowded_results
  /\ exists from_stop to_stop collected,
       find_one_name_regex (bus_stops (seeded_db crowded_fleet))
         (BusQuery.from_stop (query "Red Fort" "India Gate"))
       = Return (Some from_stop)
       /\ find_one_name_regex (bus_stops (seeded_db crowded_fleet))
            (BusQuery.to_stop (query "Red Fort" "India Gate"))
          = Return (Some to_stop)
       /\ crowded_results = sort_by_eta collected
       /\ produced_in_order small_angle_libm sample_world from_stop 0
            (matching_pairs (seeded_db crowded_fleet) from_stop to_stop) collected
       /\ map BusQueryResponse.bus_number collected
          = map (fun p => Bus.bus_number (snd p))
              (matching_pairs (seeded_db crowded_fleet) from_stop to_stop)
       /\ List.length crowded_results
          = List.length (matching_pairs (seeded_db crowded_fleet) from_stop to_stop).
Proof.
  assert (H : find_buses small_angle_libm sample_world (seeded_db crowded_fleet)
                (query "Red Fort" "India Gate") = Return crowded_results)
    by (vm_compute; reflexivity).
  split; [exact H|]. exact (find_buses_one_result_per_pair _ _ _ _ _ H).
Defined.

Lemma find_buses_empty_iff_no_pair_witness :
  find_one_name_regex (bus_stops (seeded_db []))
    (BusQuery.from_stop (query "Red Fort" "India Gate")) = Return (Some red_fort_doc)
  /\ find_one_name_regex (bus_stops (seeded_db []))
       (BusQuery.to_stop (query "Red Fort" "India Gate")) = Return (Some india_gate_doc)
  /\ (find_buses small_angle_libm sample_world (seeded_db [])
        (query "Red Fort" "India Gate") = Return []
      <-> matching_pairs (seeded_db []) red_fort_doc india_gate_doc = []).
Proof.
  assert (Hf : find_one_name_regex (bus_stops (seeded_db []))
                 (BusQuery.from_stop (query "Red Fort" "India Gate"))
               = Return (Some red_fort_doc)) by (vm_compute; reflexivity).
  assert (Ht : find_one_name_regex (bus_stops (seeded_db []))
                 (BusQuery.to_stop (query "Red Fort" "India Gate"))
               = Return (Some india_gate_doc)) by (vm_compute; reflexivity).
  split; [exact Hf|]. split; [exact Ht|].
  exact (find_buses_empty_iff_no_pair small_angle_libm sample_world _ _ _ _ Hf Ht).
Defined.

Lemma find_buses_zero_capacity_bus_fails_witness :
  find_one_name_regex (bus_stops (seeded_db zero_capacity_fleet))
    (BusQuery.from_stop (query "Red Fort" "India Gate")) = Return (Some red_fort_doc)
  /\ find_one_name_regex (bus_stops (seeded_db zero_capacity_fleet))
       (BusQuery.to_stop (query "Red Fort" "India Gate")) = Return (Some india_gate_doc)
  /\ In (red_line_doc,
         bus_doc "bus-2" "DL-02" "route:Red Line" 0 0 red_fort_lat red_fort_lng
           "active")
       (matching_pairs (seeded_db zero_capacity_fleet) red_fort_doc india_gate_doc)
  /\ find_buses small_angle_libm sample_world (seeded_db zero_capacity_fleet)
       (query "Red Fort" "India Gate")
     = Raise (HTTPException 500 "Error finding buses").
Proof.
  assert (Hf : find_one_name_regex (bus_stops (seeded_db zero_capacity_fleet))
                 (BusQuery.from_stop (query "Red Fort" "India Gate"))
               = Return (Some red_fort_doc)) by (vm_compute; reflexivity).
  assert (Ht : find_one_name_regex (bus_stops (seeded_db zero_capacity_fleet))
                 (BusQuery.to_stop (query "Red Fort" "India Gate"))
               = Return (Some india_gate_doc)) by (vm_compute; reflexivity).
  assert (Hin : In (red_line_doc,
                    bus_doc "bus-2" "DL-02" "route:Red Line" 0 0 red_fort_lat
                      red_fort_lng "active")
                  (matching_pairs (seeded_db zero_capacity_fleet) red_fort_doc
                     india_gate_doc))
    by (vm_compute; right; left; reflexivity).
  split; [exact Hf|]. split; [exact Ht|]. split; [exact Hin|].
  exact (find_buses_zero_capacity_bus_fails small_angle_libm sample_world _ _ _ _ _ _
           Hf Ht Hin eq_refl).
Defined.

Lemma stop_found_by_its_own_name_witness :
  In india_gate_doc all_stop_docs
  /\ plain_query (BusStop.name india_gate_doc) = true
  /\ exists s', find_one_name_regex all_stop_docs (BusStop.name india_gate_doc)
                = Return (Some s')
                /\ first_containing all_stop_docs (BusStop.name india_gate_doc) s'.
Proof.
  assert (Hin : In india_gate_doc all_stop_docs) by (vm_compute; tauto).
  split; [exact Hin|]. split; [reflexivity|].
  exact (stop_found_by_its_own_name _ _ all_stop_docs_ascii Hin eq_refl).
Defined.

(** ** The empty stop name *)

(** X17.  An empty stop name is not rejected: as a pattern it matches every
    name, so the lookup yields the first stop of the catalog. *)
Theorem empty_stop_name_finds_first_stop (s : BusStop.t) (rest : list BusStop.t) :
  regex.all_ascii7 (BusStop.name s) = true ->
  find_one_name_regex (s :: rest) EmptyString = Return (Some s).
Proof.
  intros Hascii. unfold find_one_name_regex. cbn [regex.compile first_match].
  rewrite Hascii. now destruct (BusStop.name s).
Qed.

Lemma empty_stop_name_finds_first_stop_witness :
  regex.all_ascii7 (BusStop.name red_fort_doc) = true
  /\ find_one_name_regex [red_fort_doc; india_gate_doc] EmptyString
     = Return (Some red_fort_doc).
Proof.
  split; [reflexivity|]. apply empty_stop_name_finds_first_stop. reflexivity.
Defined.

(** ** The direction of travel *)

Lemma matching_pairs_swap (db : database) (a b : BusStop.t) :
  matching_pairs db a b = matching_pairs db b a.
Proof.
  unfold matching_pairs, find_routes_all. f_equal.
  apply filter_ext. intros r. apply andb_comm.
Qed.

(** X18.  The query does not look at the direction of travel: when the query
    from [a] to [b] and the query from [b] to [a] both succeed, they offer
    the same buses, the same number of times. *)
Theorem find_buses_offers_same_buses_both_ways (M : libm) (w w' : world)
  (db : database) (a b : string) (rs rs' : list BusQueryResponse.t) :
  find_buses M w db (query a b) = Return rs ->
  find_buses M w' db (query b a) = Return rs' ->
  Permutation (map BusQueryResponse.bus_number rs)
    (map BusQueryResponse.bus_number rs').
Proof.
  intros H H'.
  destruct (find_buses_returns _ _ _ _ _ H) as (c & Hc & ->).
  destruct (find_buses_returns _ _ _ _ _ H') as (c' & Hc' & ->).
  destruct (collect_results_in_order _ _ _ _ _ Hc) as (f & t & Hf & Ht & Hp).
  destruct (collect_results_in_order _ _ _ _ _ Hc') as (f' & t' & Hf' & Ht' & Hp').
  cbn [query BusQuery.from_stop BusQuery.to_stop] in Hf, Ht, Hf', Ht'.
  rewrite Ht in Hf'. rewrite Hf in Ht'. apply Return_inj in Hf', Ht'.
  inversion Hf'; inversion Ht'; subst f' t'.
  rewrite (matching_pairs_swap db t f) in Hp'.
  apply produced_in_order_names in Hp, Hp'.
  destruct Hp as [Hn _]. destruct Hp' as [Hn' _].
  rewrite <- (Permutation_map _ (sort_by_eta_perm c)).
  rewrite <- (Permutation_map _ (sort_by_eta_perm c')).
  now rewrite Hn, Hn'.
Qed.

Lemma find_buses_offers_same_buses_both_ways_witness :
  find_buses small_angle_libm sample_world (seeded_db crowded_fleet)
    (query "Red Fort" "India Gate") = Return crowded_results
  /\ exists rs',
       find_buses small_angle_libm flat_world (seeded_db crowded_fleet)
         (query "India Gate" "Red Fort") = Return rs'
       /\ Permutation (map BusQueryResponse.bus_number crowded_results)
            (map BusQueryResponse.bus_number rs').
Proof.
  assert (H : find_buses small_angle_libm sample_world (seeded_db crowded_fleet)
                (query "Red Fort" "India Gate") = Return crowded_results)
    by (vm_compute; reflexivity).
  assert (H' : exists rs',
             find_buses small_angle_libm flat_world (seeded_db crowded_fleet)
               (query "India Gate" "Red Fort") = Return rs')
    by (eexists; vm_compute; reflexivity).
  destruct H' as [rs' H'].
  split; [exact H|]. exists rs'. split; [exact H'|].
  exact (find_buses_offers_same_buses_both_ways _ _ _ _ _ _ _ _ H H').
Defined.
